(** * Feed ingestion pipeline of [src/fetcher.py]

    A shallow embedding of [FeedFetcher]: content extraction, date parsing,
    the per-source entry loop with its length filter, duplicate gate and
    accepted-count cap, and the batch coordinator.

    Conventions.
    - A Python [str] is a [string]; one character stands for one code point
      (the Latin-1 range), so [len] is [String.length].
    - An [int] is a [Z].
    - Effects (log lines, the sessions and the pause between batches,
      calls on the seen-fingerprint store, reads of the wall clock) are
      threaded through an explicit state that keeps them in a trace;
      exceptions are values of a result type, and the state reached when
      an exception is raised is kept, as in Python.
    - The fetches of a batch run as [asyncio] tasks: each runs up to its
      request, and once its response is there runs to its end without
      another suspension.  The order in which the tasks of a batch resume
      is not in the program's hands; it is a parameter, the schedule, and
      the properties are proved for every schedule.
    - The network, the feed parser and the wall clock are parameters.

    The prompt templates of [src/agent/prompts/templates.py] and their
    rendering functions follow in the module [Templates], over a model of
    [string.Template.substitute]. *)

From Stdlib Require Import ZArith List Ascii String Bool Lia Permutation
  DecimalString.
From stdpp Require Import base decidable list strings gmap sets.

Import ListNotations.
Local Open Scope string_scope.
Local Open Scope Z_scope.
Local Open Scope list_scope.

(** ** Python strings *)

Module PyStr.

Definition lt_sign : ascii := "<"%char.
Definition gt_sign : ascii := ">"%char.

(** [re.sub(r'<[^>]+>', '', s)].  The scan goes left to right.  At a
    ["<"] the pattern needs one character other than [">"], then takes
    every further character other than [">"] and a closing [">"]; as
    [[^>]+] cannot step over a [">"], the match (if any) ends at the
    first [">"] after the ["<"].  On a match the scan resumes after it;
    otherwise the character is kept and the scan moves one step. *)
Fixpoint re_sub_tags (s : string) : string :=
  match s with
  | EmptyString => EmptyString
  | String c r =>
      if Ascii.eqb c lt_sign then
        match r with
        | EmptyString => String c EmptyString
        | String d r' =>
            if Ascii.eqb d gt_sign then String c (re_sub_tags r)
            else
              match
                (fix close (t : string) : option string :=
                   match t with
                   | EmptyString => None
                   | String e t' =>
                       if Ascii.eqb e gt_sign then Some (re_sub_tags t')
                       else close t'
                   end) r'
              with
              | Some out => out
              | None => String c (re_sub_tags r)
              end
        end
      else String c (re_sub_tags r)
  end.

(** The pattern [<[^>]+>] on its own, to say what a tag is.  [has_close s]:
    there is a [">"] in [s].  [after_close s]: what follows the first
    [">"] of [s].  [tag_at s]: the pattern matches at the head of [s].
    [has_tag s]: it matches somewhere in [s]. *)
Fixpoint has_close (s : string) : bool :=
  match s with
  | EmptyString => false
  | String c r => Ascii.eqb c gt_sign || has_close r
  end.

Fixpoint after_close (s : string) : option string :=
  match s with
  | EmptyString => None
  | String c r => if Ascii.eqb c gt_sign then Some r else after_close r
  end.

Definition tag_at (s : string) : bool :=
  match s with
  | String c (String d r) =>
      Ascii.eqb c lt_sign && negb (Ascii.eqb d gt_sign) && has_close r
  | _ => false
  end.

Fixpoint has_tag (s : string) : bool :=
  match s with
  | EmptyString => false
  | String _ r => tag_at s || has_tag r
  end.

(** [str.isspace] on one code point below 256: TAB..CR, FS..US, space,
    NEL and NBSP. *)
Definition isspace (c : ascii) : bool :=
  let n := Z.of_nat (nat_of_ascii c) in
  ((9 <=? n) && (n <=? 13)) || ((28 <=? n) && (n <=? 32))
  || (n =? 133) || (n =? 160).

Fixpoint lstrip (s : string) : string :=
  match s with
  | EmptyString => EmptyString
  | String c r => if isspace c then lstrip r else s
  end.

Fixpoint rstrip (s : string) : string :=
  match s with
  | EmptyString => EmptyString
  | String c r =>
      match rstrip r with
      | EmptyString => if isspace c then EmptyString else String c EmptyString
      | r' => String c r'
      end
  end.

(** [s.strip()] *)
Definition strip (s : string) : string := rstrip (lstrip s).

(** Whether a string starts, or ends, with a whitespace character. *)
Definition head_space (s : string) : bool :=
  match s with
  | EmptyString => false
  | String c _ => isspace c
  end.

Fixpoint last_space (s : string) : bool :=
  match s with
  | EmptyString => false
  | String c EmptyString => isspace c
  | String _ r => last_space r
  end.

(** [len(s)] *)
Definition len (s : string) : Z := Z.of_nat (String.length s).

(** [s.encode()]: UTF-8, one byte below 128 and two bytes from 128 to 255. *)
Fixpoint encode (s : string) : list Z :=
  match s with
  | EmptyString => []
  | String c r =>
      let n := Z.of_nat (nat_of_ascii c) in
      if n <? 128 then n :: encode r
      else Z.lor 192 (Z.shiftr n 6) :: Z.lor 128 (Z.land n 63) :: encode r
  end.

End PyStr.

(** ** [hashlib.md5(...).hexdigest()] (RFC 1321) *)

Module MD5.

Definition mask32 : Z := 0xFFFFFFFF.
Definition add32 (x y : Z) : Z := Z.land (x + y) mask32.
Definition not32 (x : Z) : Z := Z.lxor x mask32.
Definition rotl32 (x n : Z) : Z :=
  Z.lor (Z.land (Z.shiftl x n) mask32) (Z.shiftr x (32 - n)).

Definition K : list Z :=
  [ 0xd76aa478; 0xe8c7b756; 0x242070db; 0xc1bdceee;
    0xf57c0faf; 0x4787c62a; 0xa8304613; 0xfd469501;
    0x698098d8; 0x8b44f7af; 0xffff5bb1; 0x895cd7be;
    0x6b901122; 0xfd987193; 0xa679438e; 0x49b40821;
    0xf61e2562; 0xc040b340; 0x265e5a51; 0xe9b6c7aa;
    0xd62f105d; 0x02441453; 0xd8a1e681; 0xe7d3fbc8;
    0x21e1cde6; 0xc33707d6; 0xf4d50d87; 0x455a14ed;
    0xa9e3e905; 0xfcefa3f8; 0x676f02d9; 0x8d2a4c8a;
    0xfffa3942; 0x8771f681; 0x6d9d6122; 0xfde5380c;
    0xa4beea44; 0x4bdecfa9; 0xf6bb4b60; 0xbebfbc70;
    0x289b7ec6; 0xeaa127fa; 0xd4ef3085; 0x04881d05;
    0xd9d4d039; 0xe6db99e5; 0x1fa27cf8; 0xc4ac5665;
    0xf4292244; 0x432aff97; 0xab9423a7; 0xfc93a039;
    0x655b59c3; 0x8f0ccc92; 0xffeff47d; 0x85845dd1;
    0x6fa87e4f; 0xfe2ce6e0; 0xa3014314; 0x4e0811a1;
    0xf7537e82; 0xbd3af235; 0x2ad7d2bb; 0xeb86d391 ].

Definition shifts : list Z :=
  [ 7; 12; 17; 22; 7; 12; 17; 22; 7; 12; 17; 22; 7; 12; 17; 22;
    5; 9; 14; 20; 5; 9; 14; 20; 5; 9; 14; 20; 5; 9; 14; 20;
    4; 11; 16; 23; 4; 11; 16; 23; 4; 11; 16; 23; 4; 11; 16; 23;
    6; 10; 15; 21; 6; 10; 15; 21; 6; 10; 15; 21; 6; 10; 15; 21 ].

Definition nthZ (l : list Z) (i : Z) : Z := nth (Z.to_nat i) l 0.

(** Message padding: a [0x80] byte, zeros up to 56 modulo 64, then the
    bit length as 8 little-endian bytes. *)
Definition le_bytes (n : nat) (x : Z) : list Z :=
  map (fun k => Z.land (Z.shiftr x (8 * Z.of_nat k)) 255) (seq 0 n).

Definition pad (msg : list Z) : list Z :=
  let n := Z.of_nat (length msg) in
  let zeros := (55 - n) mod 64 in
  msg ++ [128] ++ repeat 0 (Z.to_nat zeros) ++ le_bytes 8 (Z.land (8 * n) (2 ^ 64 - 1)).

(** The padded message as little-endian 32-bit words. *)
Fixpoint words (bs : list Z) : list Z :=
  match bs with
  | b0 :: b1 :: b2 :: b3 :: r =>
      (b0 + Z.shiftl b1 8 + Z.shiftl b2 16 + Z.shiftl b3 24) :: words r
  | _ => []
  end.

Definition round (M : list Z) (st : Z * Z * Z * Z) (i : Z) : Z * Z * Z * Z :=
  let '(a, b, c, d) := st in
  let '(f, g) :=
    if i <? 16 then (Z.lor (Z.land b c) (Z.land (not32 b) d), i)
    else if i <? 32 then (Z.lor (Z.land d b) (Z.land (not32 d) c), (5 * i + 1) mod 16)
    else if i <? 48 then (Z.lxor (Z.lxor b c) d, (3 * i + 5) mod 16)
    else (Z.lxor c (Z.lor b (not32 d)), (7 * i) mod 16) in
  let f' := add32 (add32 (add32 f a) (nthZ K i)) (nthZ M g) in
  (d, add32 b (rotl32 f' (nthZ shifts i)), b, c).

Definition block (st : Z * Z * Z * Z) (M : list Z) : Z * Z * Z * Z :=
  let '(a, b, c, d) := st in
  let '(a', b', c', d') :=
    fold_left (round M) (map Z.of_nat (seq 0 64)) st in
  (add32 a a', add32 b b', add32 c c', add32 d d').

(** The words in blocks of sixteen. *)
Fixpoint blocks (ws : list Z) : list (list Z) :=
  match ws with
  | w0 :: w1 :: w2 :: w3 :: w4 :: w5 :: w6 :: w7
    :: w8 :: w9 :: w10 :: w11 :: w12 :: w13 :: w14 :: w15 :: r =>
      [w0; w1; w2; w3; w4; w5; w6; w7; w8; w9; w10; w11; w12; w13; w14; w15]
      :: blocks r
  | _ => []
  end.

Definition hex_digit (n : Z) : ascii :=
  nth (Z.to_nat n) (list_ascii_of_string "0123456789abcdef") "0"%char.

Definition hex_byte (b : Z) : string :=
  String (hex_digit (Z.shiftr b 4)) (String (hex_digit (Z.land b 15)) EmptyString).

Definition digest (msg : list Z) : list Z :=
  let '(a, b, c, d) :=
    fold_left block (blocks (words (pad msg)))
              (0x67452301, 0xefcdab89, 0x98badcfe, 0x10325476) in
  le_bytes 4 a ++ le_bytes 4 b ++ le_bytes 4 c ++ le_bytes 4 d.

Definition hexdigest (msg : list Z) : string :=
  fold_right (fun b acc => hex_byte b ++ acc)%string EmptyString (digest msg).

End MD5.

(** ** Data model *)

(** Exceptions.  [ClientError] stands for [aiohttp.ClientError] and its
    subclasses (the argument names the subclass); every other constructor
    is an [Exception] that is not a [ClientError]. *)
Inductive exn : Type :=
  | ClientError (kind : string)
  | TimeoutError
  | TypeError
  | ValueError
  | IndexError
  | AttributeError
  | OtherError (name : string).

Definition is_ClientError (e : exn) : bool :=
  match e with ClientError _ => true | _ => false end.

Inductive result (A : Type) : Type :=
  | Ok (a : A)
  | Raise (e : exn).
Arguments Ok {A} a.
Arguments Raise {A} e.

(** One element of [entry.content]: an object with a [value] attribute. *)
Record content_item : Type := { value : string }.

(** A feed entry as the fetcher reads it.  [None] is an attribute that the
    entry does not have ([hasattr] false, [get] gives the default);
    [published_parsed] may be present and hold Python's [None]. *)
Record entry : Type := {
  e_content : option (list content_item);
  e_summary : option string;
  e_description : option string;
  e_title : option string;
  e_link : option string;
  e_published_parsed : option (option (list Z));
}.

(** What [feedparser.parse] gives: [feed.entries] and [feed.feed]. *)
Record feed_doc : Type := {
  entries : list entry;
  feed_title : option string;
}.

(** [datetime] values: year, month, day, hour, minute, second. *)
Record datetime : Type := {
  year : Z; month : Z; day : Z; hour : Z; minute : Z; second : Z;
}.

(** Modelled from the spec: [src.core.models.Article] is not among the
    sources.  The fetcher builds it from five keyword arguments, and the
    spec gives it as an immutable value of these five fields. *)
Record Article : Type := {
  title : string;
  content : string;
  url : string;
  published : datetime;
  source : string;
}.

(** [CONFIG["processing"]]: the two thresholds the fetcher reads from
    [src.core.config], which is not among the sources.  Their values are a
    parameter of everything below; Python's [int] gives them no sign. *)
Record config : Type := {
  max_articles_per_feed : Z;
  min_article_length : Z;
}.

(** What the three network lines of [fetch_single_feed] come to:
    [session.get] fails to connect or times out, [raise_for_status]
    raises for the status it sees, [response.text()] raises, or the body
    text is there. *)
Inductive http_outcome : Type :=
  | ConnectionFailed
  | TimedOut
  | ErrorStatus (status : Z)
  | BodyFailed (e : exn)
  | Body (text : string).

(** ** The seen-fingerprint store *)

Module NewsDatabase.

(** Modelled from the spec: [src.data.database.NewsDatabase] is not among
    the sources.  The spec gives the store as a set of seen fingerprints,
    and [isDuplicate] as true if the fingerprint has been recorded in any
    prior call. *)
Definition is_duplicate (db : gset string) (content_hash : string) : bool :=
  bool_decide (content_hash ∈ db).

(** Modelled from the spec: [record] of [NewsDatabase], which marks the
    fingerprint as seen and is idempotent, an atomic set insert. *)
Definition cache_article (db : gset string) (content_hash : string)
  : gset string :=
  {[ content_hash ]} ∪ db.

End NewsDatabase.

(** ** Effects *)

Inductive level : Type := DEBUG | INFO | ERROR.

(** The log lines of the fetcher, by their format string. *)
Inductive log_msg : Type :=
  | Attempting (feed_url : string)
  | SkippingShort (entry_title : string)
  | SkippingDuplicate (entry_title : string)
  | Fetched (n : nat) (feed_url : string)
  | HttpError (feed_url : string) (e : exn)
  | GeneralError (feed_url : string) (e : exn).

(** What the fetcher does to the world, one event per call: a log line,
    a question to the store with its answer, a write to the store, the
    opening and the closing of the HTTP session of a batch, and the sleep
    of half a second between two batches. *)
Inductive event : Type :=
  | Log (lvl : level) (msg : log_msg)
  | IsDuplicate (content_hash : string) (answer : bool)
  | CacheArticle (content_hash : string)
  | SessionOpen
  | SessionClose
  | Sleep.

(** The state the fetcher acts on: the store, the effects so far in the
    order they happened, and the number of clock reads so far. *)
Record state : Type := {
  db : gset string;
  trace : list event;
  ticks : nat;
}.

(** Computations of the fetcher: from a state to a value or an exception,
    and the state reached. *)
Definition M (A : Type) : Type := state -> result A * state.

Definition ret {A} (a : A) : M A := fun s => (Ok a, s).
Definition raise {A} (e : exn) : M A := fun s => (Raise e, s).
Definition bind {A B} (m : M A) (k : A -> M B) : M B :=
  fun s =>
    match m s with
    | (Ok a, s') => k a s'
    | (Raise e, s') => (Raise e, s')
    end.

(** [try: m except Exception as e: h e] *)
Definition try_except {A} (m : M A) (h : exn -> M A) : M A :=
  fun s =>
    match m s with
    | (Ok a, s') => (Ok a, s')
    | (Raise e, s') => h e s'
    end.

Definition lift {A} (r : result A) : M A := fun s => (r, s).

Declare Scope fetch_scope.
Delimit Scope fetch_scope with fetch.
Notation "'let*' x ':=' m 'in' k" := (bind m (fun x => k))
  (at level 10, x name, m at level 100, k at level 200) : fetch_scope.
Notation "m '>>' k" := (bind m (fun _ => k))
  (at level 62, right associativity) : fetch_scope.
Local Open Scope fetch_scope.

Definition emit (ev : event) : M unit :=
  fun s => (Ok tt, {| db := db s; trace := trace s ++ [ev]; ticks := ticks s |}).

Definition logger (lvl : level) (msg : log_msg) : M unit := emit (Log lvl msg).

(** [self.db.is_duplicate(content_hash)] *)
Definition db_is_duplicate (content_hash : string) : M bool :=
  fun s =>
    let b := NewsDatabase.is_duplicate (db s) content_hash in
    (Ok b, {| db := db s; trace := trace s ++ [IsDuplicate content_hash b];
              ticks := ticks s |}).

(** [self.db.cache_article(content_hash)] *)
Definition db_cache_article (content_hash : string) : M unit :=
  fun s =>
    (Ok tt, {| db := NewsDatabase.cache_article (db s) content_hash;
               trace := trace s ++ [CacheArticle content_hash];
               ticks := ticks s |}).

(** ** [datetime(...)] *)

Definition is_leap (y : Z) : bool :=
  ((y mod 4 =? 0) && negb (y mod 100 =? 0)) || (y mod 400 =? 0).

Definition days_in_month (y m : Z) : Z :=
  if m =? 2 then (if is_leap y then 29 else 28)
  else if (m =? 4) || (m =? 6) || (m =? 9) || (m =? 11) then 30
  else 31.

Definition in_range (lo x hi : Z) : bool := (lo <=? x) && (x <=? hi).

(** The [datetime] constructor on at most six integers: year, month and day are
    required ([TypeError] without them), and every field has its range
    ([ValueError] outside it). *)
Definition datetime_new (args : list Z) : result datetime :=
  match args with
  | y :: m :: d :: rest =>
      let h := nth 0 rest 0 in
      let mi := nth 1 rest 0 in
      let s := nth 2 rest 0 in
      if in_range 1 y 9999 && in_range 1 m 12
         && in_range 1 d (days_in_month y m)
         && in_range 0 h 23 && in_range 0 mi 59 && in_range 0 s 59
      then Ok {| year := y; month := m; day := d;
                 hour := h; minute := mi; second := s |}
      else Raise ValueError
  | _ => Raise TypeError
  end.

(** ** [FeedFetcher] *)

(** The values [extract_content] holds in its local [content]. *)
Inductive pyobj : Type :=
  | PStr (s : string)
  | PList (l : list content_item).

(** Truth value of an object: empty strings and empty lists are false. *)
Definition truthy (v : pyobj) : bool :=
  match v with
  | PStr EmptyString => false
  | PList [] => false
  | _ => true
  end.

(** [getattr(entry, field)], [None] where [hasattr(entry, field)] is false. *)
Definition getattr (e : entry) (field : string) : option pyobj :=
  if String.eqb field "content" then PList <$> e_content e
  else if String.eqb field "summary" then PStr <$> e_summary e
  else if String.eqb field "description" then PStr <$> e_description e
  else None.

(** [v[0].value] *)
Definition first_value (v : pyobj) : result pyobj :=
  match v with
  | PList (x :: _) => Ok (PStr (value x))
  | PList [] => Raise IndexError
  | PStr EmptyString => Raise IndexError
  | PStr _ => Raise AttributeError
  end.

(** [re.sub(r'<[^>]+>', '', v)]: a [TypeError] on anything but a string. *)
Definition re_sub (v : pyobj) : result string :=
  match v with
  | PStr s => Ok (PyStr.re_sub_tags s)
  | PList _ => Raise TypeError
  end.

(** The [for field in ...] loop of [extract_content]; it leaves at the
    first field the entry has. *)
Fixpoint extract_fields (fields : list string) (e : entry) (content : pyobj)
  : result pyobj :=
  match fields with
  | [] => Ok content
  | field :: fields' =>
      match getattr e field with
      | Some v =>
          if String.eqb field "content" && truthy v
          then (if truthy v then first_value v else Ok (PStr ""))
          else Ok v
      | None => extract_fields fields' e content
      end
  end.

Definition extract_content (e : entry) : result string :=
  match extract_fields ["content"; "summary"; "description"] e (PStr "") with
  | Ok v =>
      match re_sub v with
      | Ok s => Ok (PyStr.strip s)
      | Raise x => Raise x
      end
  | Raise x => Raise x
  end.

(** [hashlib.md5(content.encode()).hexdigest()] *)
Definition content_hash_of (content : string) : string :=
  MD5.hexdigest (PyStr.encode content).
Arguments content_hash_of : simpl never.

(** The [try] block of [parse_date]: [Ok (Some d)] is its [return],
    [Ok None] is falling out of the [if]. *)
Definition parse_date_try (e : entry) : result (option datetime) :=
  match e_published_parsed e with
  | Some (Some t) =>
      match t with
      | [] => Ok None
      | _ :: _ =>
          match datetime_new (firstn 6 t) with
          | Ok d => Ok (Some d)
          | Raise x => Raise x
          end
      end
  | Some None => Ok None
  | None => Ok None
  end.

(** [entry.get('title', 'No Title')] in the two debug lines. *)
Definition log_title (e : entry) : string := default "No Title" (e_title e).

(** Exception or body text of the three network lines. *)
Definition response_text (r : http_outcome) : result string :=
  match r with
  | ConnectionFailed => Raise (ClientError "ClientConnectionError")
  | TimedOut => Raise TimeoutError
  | ErrorStatus _ => Raise (ClientError "ClientResponseError")
  | BodyFailed e => Raise e
  | Body text => Ok text
  end.

(** [range(0, stop, step)] for [stop >= 0]. *)
Definition py_range (stop step : Z) : result (list Z) :=
  if step =? 0 then Raise ValueError
  else if step <? 0 then Ok []
  else Ok (map (fun k => Z.of_nat k * step)
               (seq 0 (Z.to_nat ((stop + step - 1) / step)))).

(** [l[lo:hi]] for [0 <= lo]. *)
Definition py_slice {A} (l : list A) (lo hi : Z) : list A :=
  firstn (Z.to_nat (hi - lo)) (skipn (Z.to_nat lo) l).

Section Fetcher.

(** [CONFIG], read from the configuration collaborator. *)
Variable CONFIG : config.

(** What the network answers to the request for the source at a position
    of the feed list. *)
Variable http_get : Z -> string -> http_outcome.

(** [feedparser.parse]. *)
Variable feedparser_parse : string -> result feed_doc.

(** The wall clock: the value of the n-th read of [datetime.now()]. *)
Variable wall_clock : nat -> datetime.

(** The order in which the fetches of one batch get their response and
    run on: for the batch that starts at a position of the feed list,
    the positions inside the batch, first to resume first. *)
Variable schedule : Z -> list nat.

Definition datetime_now : M datetime :=
  fun s => (Ok (wall_clock (ticks s)),
            {| db := db s; trace := trace s; ticks := S (ticks s) |}).

Definition parse_date (e : entry) : M datetime :=
  match parse_date_try e with
  | Ok (Some d) => ret d
  | Ok None => datetime_now
  | Raise _ => datetime_now
  end.

(** The [for entry in feed.entries] loop; [articles] and [fetched_count]
    are its two locals. *)
Fixpoint entries_loop (feed : feed_doc) (feed_url : string)
    (es : list entry) (articles : list Article) (fetched_count : Z)
  : M (list Article) :=
  match es with
  | [] => ret articles
  | entry :: es' =>
      if fetched_count >=? max_articles_per_feed CONFIG then ret articles
      else
        let* content := lift (extract_content entry) in
        if PyStr.len content <? min_article_length CONFIG then
          logger DEBUG (SkippingShort (log_title entry)) >>
          entries_loop feed feed_url es' articles fetched_count
        else
          let content_hash := content_hash_of content in
          let* dup := db_is_duplicate content_hash in
          if dup then
            logger DEBUG (SkippingDuplicate (log_title entry)) >>
            entries_loop feed feed_url es' articles fetched_count
          else
            let* published := parse_date entry in
            let article :=
              {| title := default "" (e_title entry);
                 content := content;
                 url := default "" (e_link entry);
                 published := published;
                 source := default feed_url (feed_title feed) |} in
            db_cache_article content_hash >>
            entries_loop feed feed_url es' (articles ++ [article])
                         (fetched_count + 1)
  end.

(** One turn of the loop body past the cap test, as a computation of its
    own: [Some article] when the entry is accepted, [None] when it is
    skipped ([continue]).  [entries_loop_cons] relates the loop to it. *)
Definition entry_step (feed : feed_doc) (feed_url : string) (entry : entry)
  : M (option Article) :=
  let* content := lift (extract_content entry) in
  if PyStr.len content <? min_article_length CONFIG then
    logger DEBUG (SkippingShort (log_title entry)) >> ret None
  else
    let content_hash := content_hash_of content in
    let* dup := db_is_duplicate content_hash in
    if dup then
      logger DEBUG (SkippingDuplicate (log_title entry)) >> ret None
    else
      let* published := parse_date entry in
      let article :=
        {| title := default "" (e_title entry);
           content := content;
           url := default "" (e_link entry);
           published := published;
           source := default feed_url (feed_title feed) |} in
      db_cache_article content_hash >> ret (Some article).

(** The [try] block of [fetch_single_feed]. *)
Definition fetch_body (response : http_outcome) (feed_url : string)
  : M (list Article) :=
  let* text := lift (response_text response) in
  let* feed := lift (feedparser_parse text) in
  let* articles := entries_loop feed feed_url (entries feed) [] 0 in
  logger INFO (Fetched (length articles) feed_url) >>
  ret articles.

(** The two [except] clauses, tried in order. *)
Definition fetch_handler (feed_url : string) (e : exn) : M (list Article) :=
  if is_ClientError e
  then logger ERROR (HttpError feed_url e) >> ret []
  else logger ERROR (GeneralError feed_url e) >> ret [].

(** [fetch_single_feed] from its first suspension on: the response is
    there, and the rest runs without another suspension. *)
Definition fetch_resume (response : http_outcome) (feed_url : string)
  : M (list Article) :=
  try_except (fetch_body response feed_url) (fetch_handler feed_url).

Definition fetch_single_feed (response : http_outcome) (feed_url : string)
  : M (list Article) :=
  logger INFO (Attempting feed_url) >>
  fetch_resume response feed_url.

(** [asyncio.gather] with [return_exceptions=True] on the fetches of
    one batch.  Every task runs up to its request in task order; the
    tasks then resume in the order of the schedule, each to its end;
    the results come back in task order, an exception as a value. *)
Fixpoint start_tasks (batch : list string) : M unit :=
  match batch with
  | [] => ret tt
  | feed_url :: batch' =>
      logger INFO (Attempting feed_url) >> start_tasks batch'
  end.

Fixpoint resume_tasks (i : Z) (batch : list string) (order : list nat)
    (results : list (option (result (list Article))))
  : M (list (option (result (list Article)))) :=
  match order with
  | [] => ret results
  | j :: order' =>
      match batch !! j with
      | Some feed_url =>
          fun s =>
            let '(r, s') :=
              fetch_resume (http_get (i + Z.of_nat j) feed_url) feed_url s in
            resume_tasks i batch order' (<[j := Some r]> results) s'
      | None => resume_tasks i batch order' results
      end
  end.

Definition gather (i : Z) (batch : list string)
  : M (list (option (result (list Article)))) :=
  start_tasks batch >>
  resume_tasks i batch (schedule i) (replicate (length batch) None).

(** [for result in results: if isinstance(result, list): articles.extend(result)] *)
Fixpoint extend_results (articles : list Article)
    (results : list (option (result (list Article)))) : list Article :=
  match results with
  | [] => articles
  | Some (Ok l) :: results' => extend_results (articles ++ l) results'
  | _ :: results' => extend_results articles results'
  end.

(** The [for i in range(0, len(feeds), batch_size)] loop. *)
Fixpoint batches_loop (feeds : list string) (batch_size : Z)
    (starts : list Z) (articles : list Article) : M (list Article) :=
  match starts with
  | [] => ret articles
  | i :: starts' =>
      let batch := py_slice feeds i (i + batch_size) in
      emit SessionOpen >>
      let* results := gather i batch in
      let articles' := extend_results articles results in
      emit SessionClose >>
      (if i + batch_size <? Z.of_nat (length feeds)
       then emit Sleep else ret tt) >>
      batches_loop feeds batch_size starts' articles'
  end.

(** [fetch_feeds_batch], from the feed list of the configuration file on. *)
Definition fetch_feeds_batch (feeds : list string) (batch_size : Z)
  : M (list Article) :=
  let* starts := lift (py_range (Z.of_nat (length feeds)) batch_size) in
  batches_loop feeds batch_size starts [].

End Fetcher.

(** ** Vocabulary for the properties *)

(** The fingerprints written to the store by a stretch of effects. *)
Fixpoint cached (evs : list event) : list string :=
  match evs with
  | [] => []
  | CacheArticle h :: evs' => h :: cached evs'
  | _ :: evs' => cached evs'
  end.

(** [steps_to s evs s']: from [s] the effects [evs] happened and led to
    [s']; the store of [s'] is the store of [s] with the fingerprints
    written in between. *)
Definition steps_to (s : state) (evs : list event) (s' : state) : Prop :=
  trace s' = trace s ++ evs
  /\ db s' = list_to_set (cached evs) ∪ db s
  /\ (ticks s <= ticks s')%nat.

Definition is_store_event (ev : event) : bool :=
  match ev with
  | IsDuplicate _ _ | CacheArticle _ => true
  | _ => false
  end.

(** [gated d evs]: started on the store [d], the effects [evs] follow the
    ordering contract of the store.  Every check is answered by the store
    as it is at that point, and a fingerprint is written only directly
    after a check of that very fingerprint answered false. *)
Inductive gated : gset string -> list event -> Prop :=
  | gated_nil d :
      gated d []
  | gated_accept d h evs :
      h ∉ d ->
      gated ({[ h ]} ∪ d) evs ->
      gated d (IsDuplicate h false :: CacheArticle h :: evs)
  | gated_reject d h evs :
      h ∈ d ->
      gated d evs ->
      gated d (IsDuplicate h true :: evs)
  | gated_other d ev evs :
      is_store_event ev = false ->
      gated d evs ->
      gated d (ev :: evs).

Definition fingerprint (a : Article) : string := content_hash_of (content a).

(** The acceptance of an article shows in the effects as the check of its
    fingerprint answered false, directly followed by the write. *)
Definition accepted_in (evs : list event) (h : string) : Prop :=
  exists pre post, evs = pre ++ [IsDuplicate h false; CacheArticle h] ++ post.

(** What one turn of the loop body does to an entry in a state: the
    outcome of [entry_step] and the effects it adds. *)
Inductive entry_run (CONFIG : config) (feed : feed_doc) (feed_url : string)
    (e : entry) (s : state) : result (option Article) -> list event -> Prop :=
  | run_raise x :
      extract_content e = Raise x ->
      entry_run CONFIG feed feed_url e s (Raise x) []
  | run_short c :
      extract_content e = Ok c ->
      PyStr.len c < min_article_length CONFIG ->
      entry_run CONFIG feed feed_url e s (Ok None)
        [Log DEBUG (SkippingShort (log_title e))]
  | run_duplicate c :
      extract_content e = Ok c ->
      min_article_length CONFIG <= PyStr.len c ->
      content_hash_of c ∈ db s ->
      entry_run CONFIG feed feed_url e s (Ok None)
        [IsDuplicate (content_hash_of c) true;
         Log DEBUG (SkippingDuplicate (log_title e))]
  | run_accept c d :
      extract_content e = Ok c ->
      min_article_length CONFIG <= PyStr.len c ->
      content_hash_of c ∉ db s ->
      entry_run CONFIG feed feed_url e s
        (Ok (Some {| title := default "" (e_title e);
                     content := c;
                     url := default "" (e_link e);
                     published := d;
                     source := default feed_url (feed_title feed) |}))
        [IsDuplicate (content_hash_of c) false;
         CacheArticle (content_hash_of c)].

(** A run of the entry loop from its two locals and a state: the result,
    the effects and the final state.  The five rules are the five ways
    through the loop: out of entries, the cap reached ([break]), the body
    raising, an entry skipped ([continue]) and an entry accepted. *)
Inductive loop_run (CONFIG : config) (feed : feed_doc) (feed_url : string)
  : list entry -> list Article -> Z -> state ->
    result (list Article) -> list event -> state -> Prop :=
  | loop_done articles n s :
      loop_run CONFIG feed feed_url [] articles n s (Ok articles) [] s
  | loop_break e es articles n s :
      max_articles_per_feed CONFIG <= n ->
      loop_run CONFIG feed feed_url (e :: es) articles n s (Ok articles) [] s
  | loop_raise e es articles n s x evs s' :
      n < max_articles_per_feed CONFIG ->
      entry_run CONFIG feed feed_url e s (Raise x) evs ->
      steps_to s evs s' ->
      loop_run CONFIG feed feed_url (e :: es) articles n s (Raise x) evs s'
  | loop_skip e es articles n s evs s' r evs' s'' :
      n < max_articles_per_feed CONFIG ->
      entry_run CONFIG feed feed_url e s (Ok None) evs ->
      steps_to s evs s' ->
      loop_run CONFIG feed feed_url es articles n s' r evs' s'' ->
      loop_run CONFIG feed feed_url (e :: es) articles n s r (evs ++ evs') s''
  | loop_accept e es articles n s a evs s' r evs' s'' :
      n < max_articles_per_feed CONFIG ->
      entry_run CONFIG feed feed_url e s (Ok (Some a)) evs ->
      steps_to s evs s' ->
      loop_run CONFIG feed feed_url es (articles ++ [a]) (n + 1) s' r evs' s'' ->
      loop_run CONFIG feed feed_url (e :: es) articles n s r (evs ++ evs') s''.

(** An entry and the article made from it. *)
Definition made_from (feed : feed_doc) (feed_url : string)
    (e : entry) (a : Article) : Prop :=
  extract_content e = Ok (content a)
  /\ title a = default "" (e_title e)
  /\ url a = default "" (e_link e)
  /\ source a = default feed_url (feed_title feed).

(** [backed CONFIG evs out]: the articles [out] have pairwise different
    fingerprints, each is long enough and each was written to the store
    within the effects [evs]. *)
Definition backed (CONFIG : config) (evs : list event) (out : list Article) : Prop :=
  NoDup (fingerprint <$> out)
  /\ forall a, a ∈ out ->
       min_article_length CONFIG <= PyStr.len (content a)
       /\ fingerprint a ∈ cached evs.

(** A state with further effects appended to its trace. *)
Definition with_events (s : state) (evs : list event) : state :=
  {| db := db s; trace := trace s ++ evs; ticks := ticks s |}.

(** The line the [except] clauses log for an exception. *)
Definition error_line (feed_url : string) (e : exn) : event :=
  Log ERROR (if is_ClientError e then HttpError feed_url e
             else GeneralError feed_url e).

(** The articles [fetch_feeds_batch] takes from the results of a gather. *)
Definition gathered (results : list (option (result (list Article))))
  : list Article :=
  extend_results [] results.

(** The articles in one slot of the results. *)
Definition slot_articles (r : option (result (list Article))) : list Article :=
  match r with
  | Some (Ok l) => l
  | _ => []
  end.

(** [runs_on s0 evs s]: the state [s] comes from [s0] by the effects
    [evs], and these keep to the store protocol. *)
Definition runs_on (s0 : state) (evs : list event) (s : state) : Prop :=
  steps_to s0 evs s /\ gated (db s0) evs.

(** [fetched ... k feed_url l]: the articles [l] are what the fetch of the
    source at position [k] of the feed list returned, in some state. *)
Definition fetched (CONFIG : config) (http_get : Z -> string -> http_outcome)
    (feedparser_parse : string -> result feed_doc)
    (wall_clock : nat -> datetime)
    (k : Z) (feed_url : string) (l : list Article) : Prop :=
  exists s1 s2,
    fetch_resume CONFIG feedparser_parse wall_clock
                 (http_get k feed_url) feed_url s1 = (Ok l, s2).

(** The sources from position [k] on and their results, one by one. *)
Inductive sources_fetched (CONFIG : config)
    (http_get : Z -> string -> http_outcome)
    (feedparser_parse : string -> result feed_doc)
    (wall_clock : nat -> datetime)
  : Z -> list string -> list (list Article) -> Prop :=
  | sources_nil k :
      sources_fetched CONFIG http_get feedparser_parse wall_clock k [] []
  | sources_cons k feed_url feeds l per :
      fetched CONFIG http_get feedparser_parse wall_clock k feed_url l ->
      sources_fetched CONFIG http_get feedparser_parse wall_clock (k + 1) feeds per ->
      sources_fetched CONFIG http_get feedparser_parse wall_clock k
        (feed_url :: feeds) (l :: per).

(** The attempt lines of the tasks of a batch, logged as they start. *)
Definition attempts (batch : list string) : list event :=
  (fun feed_url => Log INFO (Attempting feed_url)) <$> batch.

(** A schedule is valid for a run when, in every batch of the run, each
    task resumes exactly once: the order given for the batch is a
    permutation of the positions of the batch. *)
Definition valid_schedule (schedule : Z -> list nat) (feeds : list string)
    (batch_size : Z) : Prop :=
  forall starts i,
    py_range (Z.of_nat (length feeds)) batch_size = Ok starts ->
    i ∈ starts ->
    schedule i ≡ₚ seq 0 (length (py_slice feeds i (i + batch_size))).

(** What follows the gather in one turn of the batch loop. *)
Definition batch_tail (feeds : list string) (batch_size i : Z) : list event :=
  SessionClose ::
  (if i + batch_size <? Z.of_nat (length feeds) then [Sleep] else []).

(** [too_short CONFIG e]: the length filter skips the entry [e]. *)
Definition too_short (CONFIG : config) (e : entry) : bool :=
  match extract_content e with
  | Ok c => PyStr.len c <? min_article_length CONFIG
  | Raise _ => false
  end.

(** Two states with the same store and the same clock; their traces may
    differ. *)
Definition same_store (s1 s2 : state) : Prop :=
  db s1 = db s2 /\ ticks s1 = ticks s2.

(** The sources named by the attempt lines of a stretch of effects, in
    the order of the lines. *)
Fixpoint attempted (evs : list event) : list string :=
  match evs with
  | [] => []
  | Log _ (Attempting feed_url) :: evs' => feed_url :: attempted evs'
  | _ :: evs' => attempted evs'
  end.

(** The sources named by the outcome lines of a stretch of effects (the
    line with the number of articles fetched, or one of the two error
    lines), in the order of the lines. *)
Fixpoint reported (evs : list event) : list string :=
  match evs with
  | [] => []
  | Log _ (Fetched _ feed_url) :: evs'
  | Log _ (HttpError feed_url _) :: evs'
  | Log _ (GeneralError feed_url _) :: evs' => feed_url :: reported evs'
  | _ :: evs' => reported evs'
  end.

(** The session and sleep effects of a run, the rest dropped. *)
Definition is_pacing_event (ev : event) : bool :=
  match ev with
  | SessionOpen | SessionClose | Sleep => true
  | _ => false
  end.

Definition pacing (evs : list event) : list event := filter is_pacing_event evs.

(** What the pacing of a run over [n] batches has to look like: a session
    per batch and a sleep between two sessions. *)
Fixpoint paced (n : nat) : list event :=
  match n with
  | O => []
  | S O => [SessionOpen; SessionClose]
  | S n' => [SessionOpen; SessionClose; Sleep] ++ paced n'
  end.

(** The number of sleeps in a stretch of effects. *)
Fixpoint sleeps (evs : list event) : nat :=
  match evs with
  | [] => 0
  | Sleep :: evs' => S (sleeps evs')
  | _ :: evs' => sleeps evs'
  end.

(** The batches of [fetch_feeds_batch]: the slices its loop takes. *)
Definition batches (feeds : list string) (batch_size : Z) : list (list string) :=
  match py_range (Z.of_nat (length feeds)) batch_size with
  | Ok starts => map (fun i => py_slice feeds i (i + batch_size)) starts
  | Raise _ => []
  end.

(** ** Sample feeds *)

Module Examples.

Definition hello : string :=
  "Hello world, this is a test article with enough length.".

Definition published_2024 : option (option (list Z)) :=
  Some (Some [2024; 2; 29; 10; 30; 0; 3; 60; 0]).

(** An entry with a summary only. *)
Definition summary_entry (t s : string) : entry :=
  {| e_content := None; e_summary := Some s; e_description := None;
     e_title := Some t; e_link := Some "http://example.org/item";
     e_published_parsed := published_2024 |}.

(** An entry with a content list, and a summary that loses against it. *)
Definition content_entry (t : string) (l : list string) : entry :=
  {| e_content := Some ((fun v => {| value := v |}) <$> l);
     e_summary := Some "A summary that is not looked at.";
     e_description := None;
     e_title := Some t; e_link := None;
     e_published_parsed := None |}.

Definition feed_a : feed_doc :=
  {| entries :=
       [ summary_entry "a1" ("<p>" ++ hello ++ "</p> ");
         summary_entry "a2" "too short";
         content_entry "a3" [hello];
         summary_entry "a4" "Another article, long enough to pass." ];
     feed_title := Some "Feed A" |}.

Definition feed_b : feed_doc :=
  {| entries :=
       [ summary_entry "b1" hello;
         summary_entry "b2" "A third article, also long enough." ];
     feed_title := None |}.

(** A document whose second entry has an empty content list. *)
Definition feed_c : feed_doc :=
  {| entries :=
       [ summary_entry "c1" "The first article of feed C is fine.";
         content_entry "c2" [];
         summary_entry "c3" "The third article of feed C is fine." ];
     feed_title := Some "Feed C" |}.

(** A document around the length threshold of [cfg]: 9, 20 and 20
    characters after stripping, the last two with the same text. *)
Definition feed_d : feed_doc :=
  {| entries :=
       [ summary_entry "d1" "short one";
         summary_entry "d2" "Exactly twenty chars";
         summary_entry "d3" " <b>Exactly twenty chars</b>" ];
     feed_title := Some "Feed D" |}.

Definition parse (text : string) : result feed_doc :=
  if String.eqb text "A" then Ok feed_a
  else if String.eqb text "B" then Ok feed_b
  else if String.eqb text "C" then Ok feed_c
  else if String.eqb text "D" then Ok feed_d
  else if String.eqb text "not a feed" then Raise (OtherError "SAXParseException")
  else Ok {| entries := []; feed_title := None |}.

Definition net (k : Z) (feed_url : string) : http_outcome :=
  if String.eqb feed_url "http://a" then Body "A"
  else if String.eqb feed_url "http://b" then Body "B"
  else if String.eqb feed_url "http://c" then Body "C"
  else if String.eqb feed_url "http://junk" then Body "not a feed"
  else if String.eqb feed_url "http://down" then ConnectionFailed
  else if String.eqb feed_url "http://slow" then TimedOut
  else ErrorStatus 404.

Definition clock (n : nat) : datetime :=
  {| year := 2026; month := 11; day := 4; hour := 12; minute := 0;
     second := Z.of_nat n |}.

Definition cfg : config :=
  {| max_articles_per_feed := 2; min_article_length := 20 |}.

Definition cfg_cap1 : config :=
  {| max_articles_per_feed := 1; min_article_length := 20 |}.

Definition feeds7 : list string :=
  [ "http://down"; "http://b"; "http://gone"; "http://a"; "http://slow";
    "http://c"; "http://junk" ].

(** In the first batch the fetch of [http://a] gets its response before
    the fetch of [http://b]; in the second batch the last task resumes
    first. *)
Definition sched (i : Z) : list nat :=
  if i =? 0 then [3; 0; 4; 1; 2]%nat else [1; 0]%nat.

Definition s0 : state := {| db := ∅; trace := []; ticks := 0 |}.

Definition run7 : result (list Article) * state :=
  fetch_feeds_batch cfg net parse clock sched feeds7 5 s0.

Definition articles_of (r : result (list Article) * state) : list Article :=
  match fst r with
  | Ok l => l
  | Raise _ => []
  end.

Definition run_d : result (list Article) * state :=
  fetch_single_feed cfg parse clock (Body "D") "http://d" s0.

(** The scenarios of the specification. *)
Fixpoint filler (n : nat) (c : ascii) : string :=
  match n with
  | O => EmptyString
  | S n' => String c (filler n' c)
  end.

Definition feed_lengths : feed_doc :=
  {| entries :=
       [ summary_entry "l1" (filler 50 "a");
         summary_entry "l2" (filler 300 "b");
         summary_entry "l3" (filler 300 "c") ];
     feed_title := None |}.

Definition feed_hello : feed_doc :=
  {| entries := [ summary_entry "h" hello ]; feed_title := None |}.

Definition feed_five : feed_doc :=
  {| entries :=
       [ summary_entry "q1" "The first of five qualifying entries.";
         summary_entry "q2" "The second of five qualifying entries.";
         summary_entry "q3" "The third of five qualifying entries.";
         summary_entry "q4" "The fourth of five qualifying entries.";
         summary_entry "q5" "The fifth of five qualifying entries." ];
     feed_title := None |}.

Definition parse_scenario (text : string) : result feed_doc :=
  if String.eqb text "lengths" then Ok feed_lengths
  else if String.eqb text "five" then Ok feed_five
  else Ok feed_hello.

Definition net_scenario (k : Z) (feed_url : string) : http_outcome :=
  Body feed_url.

Definition cfg_min100 : config :=
  {| max_articles_per_feed := 10; min_article_length := 100 |}.

End Examples.

(** Further sample data. *)
Module MoreExamples.

(** The document of feed D without its too-short first entry. *)
Definition feed_d_long : feed_doc :=
  {| entries :=
       [ Examples.summary_entry "d2" "Exactly twenty chars";
         Examples.summary_entry "d3" " <b>Exactly twenty chars</b>" ];
     feed_title := Some "Feed D" |}.

Definition parse_d (text : string) : result feed_doc :=
  if String.eqb text "D" then Ok Examples.feed_d else Ok feed_d_long.

(** An entry with none of the three fields. *)
Definition bare_entry : entry :=
  {| e_content := None; e_summary := None; e_description := None;
     e_title := None; e_link := None; e_published_parsed := None |}.

Definition feed_bare : feed_doc :=
  {| entries := [bare_entry]; feed_title := None |}.

Definition parse_bare (text : string) : result feed_doc := Ok feed_bare.

Definition cfg_min0 : config :=
  {| max_articles_per_feed := 3; min_article_length := 0 |}.

Definition cfg_cap3 : config :=
  {| max_articles_per_feed := 3; min_article_length := 20 |}.

(** A schedule under which the second task of a batch of two resumes
    first. *)
Definition sched_second_first (i : Z) : list nat := [1; 0]%nat.

End MoreExamples.

(** * Prompt templates of [src/agent/prompts/templates.py] *)

Module Templates.

(** ** [string.Template] *)

(** What [substitute] raises: [KeyError] for a placeholder that the
    mapping does not have, [ValueError] for a delimiter that starts no
    placeholder. *)
Inductive error : Type :=
  | KeyError (key : string)
  | ValueError.

Inductive outcome : Type :=
  | Text (s : string)
  | Raises (e : error).

Definition delimiter : ascii := "$"%char.

(** The identifier pattern of [string.Template], matched in ASCII and
    under [re.IGNORECASE]: a letter or an underscore first, then letters,
    digits and underscores. *)
Definition id_start (c : ascii) : bool :=
  let n := Z.of_nat (nat_of_ascii c) in
  (n =? 95) || ((97 <=? n) && (n <=? 122)) || ((65 <=? n) && (n <=? 90)).

Definition id_char (c : ascii) : bool :=
  let n := Z.of_nat (nat_of_ascii c) in
  id_start c || ((48 <=? n) && (n <=? 57)).

(** The keyword arguments of [substitute], each value after [str]. *)
Fixpoint lookup (mapping : list (string * string)) (key : string)
  : option string :=
  match mapping with
  | [] => None
  | (k, v) :: mapping' =>
      if String.eqb k key then Some v else lookup mapping' key
  end.

(** Where the scan of the template is: in plain text, just after a
    delimiter, inside the name of a placeholder, or inside a braced one. *)
Inductive mode : Type :=
  | Plain
  | Delim
  | Named (name : string)
  | Braced (name : string).

Definition prepend (v : string) (r : outcome) : outcome :=
  match r with
  | Text t => Text (v ++ t)
  | Raises e => Raises e
  end.

(** [pattern.sub(convert, template)]: one pass from left to right.  Two
    delimiters give one; a delimiter and an identifier, bare or in
    braces, give the value of the mapping at the identifier, which is not
    scanned again; any other delimiter is invalid.  The first placeholder
    that fails decides the exception. *)
Fixpoint scan (mapping : list (string * string)) (m : mode) (s : string)
  : outcome :=
  match s with
  | EmptyString =>
      match m with
      | Plain => Text ""
      | Delim => Raises ValueError
      | Named name =>
          match lookup mapping name with
          | Some v => Text v
          | None => Raises (KeyError name)
          end
      | Braced _ => Raises ValueError
      end
  | String c r =>
      match m with
      | Plain =>
          if Ascii.eqb c delimiter then scan mapping Delim r
          else prepend (String c "") (scan mapping Plain r)
      | Delim =>
          if Ascii.eqb c delimiter
          then prepend (String delimiter "") (scan mapping Plain r)
          else if id_start c then scan mapping (Named (String c "")) r
          else if Ascii.eqb c "{" then scan mapping (Braced "") r
          else Raises ValueError
      | Named name =>
          if id_char c then scan mapping (Named (name ++ String c "")) r
          else
            match lookup mapping name with
            | Some v =>
                prepend v
                  (if Ascii.eqb c delimiter then scan mapping Delim r
                   else prepend (String c "") (scan mapping Plain r))
            | None => Raises (KeyError name)
            end
      | Braced name =>
          if (match name with "" => id_start c | _ => id_char c end)
          then scan mapping (Braced (name ++ String c "")) r
          else if Ascii.eqb c "}" then
            match name with
            | "" => Raises ValueError
            | _ =>
                match lookup mapping name with
                | Some v => prepend v (scan mapping Plain r)
                | None => Raises (KeyError name)
                end
            end
          else Raises ValueError
      end
  end.

(** [Template(template).substitute] with the keyword arguments [mapping]. *)
Definition substitute (template : string) (mapping : list (string * string))
  : outcome :=
  scan mapping Plain template.

(** [str] of an [int]. *)
Definition str_of_int (z : Z) : string := NilZero.string_of_int (Z.to_int z).

(** [sep.join(l)] *)
Fixpoint join (sep : string) (l : list string) : string :=
  match l with
  | [] => ""
  | [x] => x
  | x :: l' => x ++ sep ++ join sep l'
  end.

(** ** The templates *)

Definition RESEARCHER_PROMPT_TEMPLATE : string :=
  "
Analyze the existing blog knowledge base and create a comprehensive research brief for a new blog post on this topic:

TOPIC: $topic

$context_prep

EXISTING CONTEXT:
$relevant_context

GENERATION SPECIFICATIONS:
- Style: $style
- Target Length: $word_count_range words
- Target Audience: $audience
- Key Requirements: $requirements

Create a research brief that includes:
1. Key themes and concepts from existing content
2. Relevant facts and findings to incorporate
3. Related topics covered in the knowledge base
4. Content gaps and opportunities
5. Recommended focus areas for the new post
6. Connection opportunities with existing posts

Structure your response with clear section headers.
$quality_gate
".

Definition OUTLINER_PROMPT_TEMPLATE : string :=
  "
Create a detailed, SEO-optimized outline for a blog post based on the research brief and specifications.

TOPIC: $topic

RESEARCH BRIEF:
$research_brief

GENERATION SPECIFICATIONS:
- Style: $style
- Target Length: $word_count_range words
- Categories: $categories
- Keywords: $keywords

Create an outline that includes:
1. Compelling H1 title with primary keyword
2. 3-7 H2 main sections with descriptive headings
3. Subsections under each H2 (use H3s where appropriate)
4. Key points to cover in each section
5. Word count targets per section
6. SEO optimization notes (keyword placement, internal linking)
7. Introduction and conclusion objectives

Format the outline in markdown with clear section hierarchies.
$context_prep
$quality_gate

Ensure the outline will produce content of $word_count_range words total.
".

Definition WRITER_PROMPT_TEMPLATE : string :=
  "
Write a complete blog post following the provided outline and incorporating insights from the research brief.

OUTLINE TO FOLLOW:
$outline

RESEARCH BRIEF & CONTEXT:
$research_context

WRITING SPECIFICATIONS:
- Style: $style
- Total Target Length: $word_count_range words
- Tone: $tone
- Keywords to incorporate naturally: $keywords
- Categories: $categories

Writing requirements:
- Start with an engaging introduction (150-250 words)
- Follow the outline structure exactly
- Incorporate insights from existing posts naturally
- End with a compelling conclusion with call-to-action
- Use clear, scannable formatting (headings, lists, bold emphasis)
- Maintain consistent technical accuracy
- Include practical examples and actionable advice
- Write in engaging, professional voice

Output only the complete blog post content in markdown format.
$context_prep
$quality_gate
".

Definition EDITOR_PROMPT_TEMPLATE : string :=
  "
Edit and polish the following blog post draft to maximize clarity, engagement, and professional quality.

ORIGINAL DRAFT:
$draft_content

EDITING REQUIREMENTS:
- Improve clarity and precision in technical explanations
- Enhance readability while maintaining technical accuracy
- Strengthen transitions between sections
- Verify consistent voice and tone throughout
- Polish language for grammatical precision and elegance
- Ensure proper markdown formatting
- Optimize scannability with headings, lists, and emphasis
- Remove redundancy and wordiness
- Strengthen weak arguments with clearer explanations

Do not change the core meaning or facts, but improve the presentation significantly.
Maintain the target length of $word_count_range words.

Output the fully edited version ready for publication.
$context_prep
$quality_gate
".

Definition SEO_OPTIMIZER_PROMPT_TEMPLATE : string :=
  "
Analyze and optimize the following blog post for search engine visibility and user engagement.

CONTENT TO OPTIMIZE:
$edited_content

OPTIMIZATION SPECIFICATIONS:
- Target Keywords: $keywords
- Content Categories: $categories
- Target Length: $word_count_range words

SEO ANALYSIS & OPTIMIZATION:
1. Title Optimization (30-60 characters): Suggest improved title with primary keyword
2. Meta Description (150-160 characters): Create compelling summary
3. Heading Structure: Review H1-H3 hierarchy and keyword distribution
4. Keyword Usage: Assess natural keyword density ($keyword_density_target)
5. Internal Linking: Suggest 3-5 links to related posts from knowledge base
6. Content Structure: Ensure proper depth and coverage
7. Technical SEO: Verify mobile-friendly formatting and readability

Provide specific recommendations and the optimized metadata.
$context_prep
$quality_gate
".

Definition VALIDATION_FEEDBACK_TEMPLATE : string :=
  "
Provide specific feedback on the following content validation issues:

VALIDATION RESULTS:
$validation_results

CONTENT DRAFT:
$draft_content

GUIDANCE NEEDED:
- Address critical errors that prevent publication
- Suggest fixes for warnings to improve quality
- Provide specific examples for improvement
- Prioritize changes by impact and urgency

Output actionable feedback with prioritized recommendations.
".

(** ** The rendering functions *)

(** The generation specification [spec], a dict read with [get]: a key
    that is absent is [None] here.  The values are taken to have the
    types the rendering functions use them at: texts, numbers of words,
    lists of texts, and a number for the keyword density. *)
Record Spec (number : Type) : Type := {
  style : option string;
  min_words : option Z;
  max_words : option Z;
  audience : option string;
  requirements : option string;
  tone : option string;
  categories : option (list string);
  keywords : option (list string);
  word_target : option Z;
  keyword_density : option number;
}.

Arguments style {number}.
Arguments min_words {number}.
Arguments max_words {number}.
Arguments audience {number}.
Arguments requirements {number}.
Arguments tone {number}.
Arguments categories {number}.
Arguments keywords {number}.
Arguments word_target {number}.
Arguments keyword_density {number}.

Section Render.

(** The two constants imported from [system_prompts]. *)
Variable AGENT_CONTEXT_PREP : string.
Variable QUALITY_GATE : string.

(** Floating-point numbers, and the text of a number times one hundred
    with one decimal and a percent sign; the default density of 0.02
    gives [2.0%]. *)
Variable number : Type.
Variable percent_1f : number -> string.

Definition word_count_range (spec : Spec number) : string :=
  str_of_int (default 800 (min_words spec)) ++ "-"
  ++ str_of_int (default 2000 (max_words spec)).

Definition render_researcher_prompt (topic relevant_context : string)
    (spec : Spec number) : outcome :=
  substitute RESEARCHER_PROMPT_TEMPLATE
    [ ("topic", topic);
      ("context_prep", AGENT_CONTEXT_PREP);
      ("relevant_context", relevant_context);
      ("style", default "technical" (style spec));
      ("word_count_range", word_count_range spec);
      ("audience", default "technical professionals" (audience spec));
      ("requirements",
       default "Comprehensive technical coverage" (requirements spec));
      ("quality_gate", QUALITY_GATE) ].

Definition render_outliner_prompt (topic research_brief : string)
    (spec : Spec number) : outcome :=
  substitute OUTLINER_PROMPT_TEMPLATE
    [ ("topic", topic);
      ("research_brief", research_brief);
      ("style", default "technical" (style spec));
      ("word_count_range", word_count_range spec);
      ("categories", join ", " (default [] (categories spec)));
      ("keywords", join ", " (default [] (keywords spec)));
      ("context_prep", AGENT_CONTEXT_PREP);
      ("quality_gate", QUALITY_GATE);
      ("total_word_target", str_of_int (default 1500 (word_target spec))) ].

Definition render_writer_prompt (outline research_context : string)
    (spec : Spec number) : outcome :=
  substitute WRITER_PROMPT_TEMPLATE
    [ ("outline", outline);
      ("research_context", research_context);
      ("style", default "technical" (style spec));
      ("word_count_range", word_count_range spec);
      ("tone", default "informative" (tone spec));
      ("keywords", join ", " (default [] (keywords spec)));
      ("categories", join ", " (default [] (categories spec)));
      ("context_prep", AGENT_CONTEXT_PREP);
      ("quality_gate", QUALITY_GATE) ].

Definition render_editor_prompt (draft_content : string)
    (spec : Spec number) : outcome :=
  substitute EDITOR_PROMPT_TEMPLATE
    [ ("draft_content", draft_content);
      ("word_count_range", word_count_range spec);
      ("context_prep", AGENT_CONTEXT_PREP);
      ("quality_gate", QUALITY_GATE) ].

Definition render_seo_optimizer_prompt (edited_content : string)
    (spec : Spec number) : outcome :=
  substitute SEO_OPTIMIZER_PROMPT_TEMPLATE
    [ ("edited_content", edited_content);
      ("keywords", join ", " (default [] (keywords spec)));
      ("categories", join ", " (default [] (categories spec)));
      ("word_count_range", word_count_range spec);
      ("keyword_density_target",
       match keyword_density spec with
       | Some x => percent_1f x
       | None => "2.0%"
       end);
      ("context_prep", AGENT_CONTEXT_PREP);
      ("quality_gate", QUALITY_GATE) ].

End Render.

(** The text [s] with the text [x] put in after its first [n]
    characters. *)
Fixpoint insert_at (n : nat) (x s : string) : string :=
  match n, s with
  | O, _ => x ++ s
  | S n', String c r => String c (insert_at n' x r)
  | S _, EmptyString => x
  end.

(** A specification with another [word_target]. *)
Definition with_word_target {number : Type} (w : option Z)
    (spec : Spec number) : Spec number :=
  {| style := style spec; min_words := min_words spec;
     max_words := max_words spec; audience := audience spec;
     requirements := requirements spec; tone := tone spec;
     categories := categories spec; keywords := keywords spec;
     word_target := w; keyword_density := keyword_density spec |}.

(** The specification without any key. *)
Definition empty_spec : Spec unit :=
  {| style := None; min_words := None; max_words := None; audience := None;
     requirements := None; tone := None; categories := None;
     keywords := None; word_target := None; keyword_density := None |}.

End Templates.

(** * Properties *)

#[local] Set Warnings "-clear-no-such-hyp".

(** ** Tags and whitespace *)

Lemma re_sub_tags_close (t : string) :
  (fix close (t : string) : option string :=
     match t with
     | EmptyString => None
     | String e t' =>
         if Ascii.eqb e PyStr.gt_sign then Some (PyStr.re_sub_tags t')
         else close t'
     end) t
  = PyStr.re_sub_tags <$> PyStr.after_close t.
Proof.
  induction t as [|e t IH]; [reflexivity|].
  simpl. destruct (Ascii.eqb e PyStr.gt_sign); [reflexivity|exact IH].
Qed.

(** The substitution, one step of the scan at a time. *)
Lemma re_sub_tags_cons (c : ascii) (r : string) :
  PyStr.re_sub_tags (String c r) =
  if PyStr.tag_at (String c r)
  then match PyStr.after_close r with
       | Some t => PyStr.re_sub_tags t
       | None => String c (PyStr.re_sub_tags r)
       end
  else String c (PyStr.re_sub_tags r).
Proof.
  destruct r as [|d r'].
  - simpl. by destruct (Ascii.eqb c PyStr.lt_sign).
  - change (PyStr.re_sub_tags (String c (String d r'))) with
      (if Ascii.eqb c PyStr.lt_sign then
         if Ascii.eqb d PyStr.gt_sign
         then String c (PyStr.re_sub_tags (String d r'))
         else match
             (fix close (t : string) : option string :=
                match t with
                | EmptyString => None
                | String e t' =>
                    if Ascii.eqb e PyStr.gt_sign
                    then Some (PyStr.re_sub_tags t')
                    else close t'
                end) r'
           with
           | Some out => out
           | None => String c (PyStr.re_sub_tags (String d r'))
           end
       else String c (PyStr.re_sub_tags (String d r'))).
    rewrite re_sub_tags_close. unfold PyStr.tag_at.
    destruct (Ascii.eqb c PyStr.lt_sign); [|reflexivity].
    simpl PyStr.after_close.
    destruct (Ascii.eqb d PyStr.gt_sign) eqn:Ed; [reflexivity|]. simpl.
    destruct (PyStr.after_close r') as [t|] eqn:Ea; simpl.
    + assert (PyStr.has_close r' = true) as ->; [|reflexivity].
      clear -Ea. revert t Ea. induction r' as [|e r' IH]; intros t Ea;
        [discriminate|].
      simpl in *. destruct (Ascii.eqb e PyStr.gt_sign); [reflexivity|].
      by eapply IH.
    + by destruct (PyStr.has_close r').
Qed.

Lemma after_close_length (s t : string) :
  PyStr.after_close s = Some t -> (String.length t < String.length s)%nat.
Proof.
  revert t. induction s as [|c r IH]; intros t; [discriminate|].
  simpl. destruct (Ascii.eqb c PyStr.gt_sign).
  - intros [= ->]. lia.
  - intros E. apply IH in E. lia.
Qed.

Lemma after_close_has_close (s : string) :
  PyStr.has_close s = true <-> exists t, PyStr.after_close s = Some t.
Proof.
  induction s as [|c r IH]; simpl.
  - split; [discriminate|intros [t [=]]].
  - destruct (Ascii.eqb c PyStr.gt_sign); simpl; [|exact IH].
    split; [by exists r|reflexivity].
Qed.

Lemma after_close_keeps_close (s t : string) :
  PyStr.after_close s = Some t ->
  PyStr.has_close t = true -> PyStr.has_close s = true.
Proof.
  revert t. induction s as [|c r IH]; intros t; [discriminate|].
  simpl. destruct (Ascii.eqb c PyStr.gt_sign); [reflexivity|].
  simpl. by apply IH.
Qed.

(** The substitution only takes characters away: a [">"] in the result
    was in the argument. *)
Lemma re_sub_tags_has_close (n : nat) (s : string) :
  (String.length s <= n)%nat ->
  PyStr.has_close (PyStr.re_sub_tags s) = true -> PyStr.has_close s = true.
Proof.
  revert s. induction n as [|n IH]; intros s Hn.
  - destruct s; [discriminate|simpl in Hn; lia].
  - destruct s as [|c r]; [discriminate|]. simpl in Hn.
    rewrite re_sub_tags_cons.
    assert (PyStr.has_close (String c (PyStr.re_sub_tags r)) = true ->
            PyStr.has_close (String c r) = true) as Hkeep.
    { simpl. destruct (Ascii.eqb c PyStr.gt_sign); [reflexivity|].
      simpl. apply IH. lia. }
    destruct (PyStr.tag_at (String c r)); [|exact Hkeep].
    destruct (PyStr.after_close r) as [t|] eqn:Ea; [|exact Hkeep].
    intros H. simpl. apply orb_true_iff. right.
    apply (after_close_keeps_close _ _ Ea). apply IH; [|exact H].
    apply after_close_length in Ea. lia.
Qed.

Lemma tag_at_not_lt (c : ascii) (x : string) :
  Ascii.eqb c PyStr.lt_sign = false -> PyStr.tag_at (String c x) = false.
Proof. intros E. destruct x; simpl; [reflexivity|]. by rewrite E. Qed.

Lemma tag_at_no_close (c : ascii) (x : string) :
  PyStr.has_close x = false -> PyStr.tag_at (String c x) = false.
Proof.
  destruct x as [|d y]; simpl; [reflexivity|]. intros E.
  apply orb_false_iff in E as [_ ->]. by rewrite andb_false_r.
Qed.

(** No tag is left: the pattern matches nowhere in the result. *)
Lemma re_sub_tags_no_tag_upto (n : nat) (s : string) :
  (String.length s <= n)%nat ->
  PyStr.has_tag (PyStr.re_sub_tags s) = false.
Proof.
  revert s. induction n as [|n IH]; intros s Hn.
  - destruct s; [reflexivity|simpl in Hn; lia].
  - destruct s as [|c r]; [reflexivity|]. simpl in Hn.
    rewrite re_sub_tags_cons.
    destruct (PyStr.tag_at (String c r)) eqn:Et.
    + destruct (PyStr.after_close r) as [t|] eqn:Ea.
      * apply IH. apply after_close_length in Ea. lia.
      * exfalso. destruct r as [|d r']; [discriminate|].
        simpl in Et. apply andb_true_iff in Et as [Et Hc].
        apply andb_true_iff in Et as [_ Ed]. apply negb_true_iff in Ed.
        simpl in Ea. rewrite Ed in Ea.
        apply after_close_has_close in Hc as [t Ht]. congruence.
    + change (PyStr.has_tag (String c (PyStr.re_sub_tags r)))
        with (PyStr.tag_at (String c (PyStr.re_sub_tags r))
              || PyStr.has_tag (PyStr.re_sub_tags r)).
      rewrite (IH r) by lia. rewrite orb_false_r.
      destruct r as [|d r']; [reflexivity|].
      simpl in Et.
      destruct (Ascii.eqb c PyStr.lt_sign) eqn:Ec;
        [|by apply tag_at_not_lt].
      destruct (Ascii.eqb d PyStr.gt_sign) eqn:Ed.
      * rewrite re_sub_tags_cons.
        assert (PyStr.tag_at (String d r') = false) as ->.
        { apply tag_at_not_lt. apply Ascii.eqb_eq in Ed. by subst d. }
        simpl. by rewrite Ec, Ed.
      * simpl in Et. apply tag_at_no_close.
        destruct (PyStr.has_close (PyStr.re_sub_tags (String d r'))) eqn:Eh;
          [|reflexivity].
        apply (re_sub_tags_has_close n) in Eh; [|simpl in *; lia].
        simpl in Eh. rewrite Ed, Et in Eh. discriminate.
Qed.

Lemma re_sub_tags_no_tag (s : string) :
  PyStr.has_tag (PyStr.re_sub_tags s) = false.
Proof. by apply (re_sub_tags_no_tag_upto (String.length s)). Qed.

(** Stripping cuts whitespace off both ends and nothing else. *)
Lemma lstrip_head (s : string) : PyStr.head_space (PyStr.lstrip s) = false.
Proof.
  induction s as [|c r IH]; [reflexivity|].
  simpl. destruct (PyStr.isspace c) eqn:E; [exact IH|]. simpl. exact E.
Qed.

Lemma rstrip_last (s : string) : PyStr.last_space (PyStr.rstrip s) = false.
Proof.
  induction s as [|c r IH]; [reflexivity|].
  simpl. destruct (PyStr.rstrip r) as [|d t] eqn:Er.
  - destruct (PyStr.isspace c) eqn:E; [reflexivity|]. simpl. exact E.
  - exact IH.
Qed.

Lemma rstrip_head (s : string) :
  PyStr.head_space s = false -> PyStr.head_space (PyStr.rstrip s) = false.
Proof.
  destruct s as [|c r]; [reflexivity|]. simpl. intros E.
  destruct (PyStr.rstrip r); [|exact E]. rewrite E. exact E.
Qed.

Lemma strip_edges (s : string) :
  PyStr.head_space (PyStr.strip s) = false
  /\ PyStr.last_space (PyStr.strip s) = false.
Proof.
  unfold PyStr.strip. split.
  - apply rstrip_head, lstrip_head.
  - apply rstrip_last.
Qed.

Lemma lstrip_has_tag (s : string) :
  PyStr.has_tag (PyStr.lstrip s) = true -> PyStr.has_tag s = true.
Proof.
  induction s as [|c r IH]; [discriminate|].
  change (PyStr.has_tag (String c r))
    with (PyStr.tag_at (String c r) || PyStr.has_tag r).
  simpl PyStr.lstrip. destruct (PyStr.isspace c).
  - intros H. rewrite (IH H). apply orb_true_r.
  - by intros H.
Qed.

Lemma rstrip_has_close (s : string) :
  PyStr.has_close (PyStr.rstrip s) = true -> PyStr.has_close s = true.
Proof.
  induction s as [|c r IH]; [discriminate|].
  simpl. destruct (PyStr.rstrip r) as [|d t].
  - destruct (PyStr.isspace c); [discriminate|]. simpl.
    rewrite orb_false_r. by intros ->.
  - change (PyStr.has_close (String c (String d t)))
      with (Ascii.eqb c PyStr.gt_sign || PyStr.has_close (String d t)).
    destruct (Ascii.eqb c PyStr.gt_sign); [reflexivity|]. exact IH.
Qed.

Lemma rstrip_tag_at (s : string) :
  PyStr.tag_at (PyStr.rstrip s) = true -> PyStr.tag_at s = true.
Proof.
  destruct s as [|c [|d r]]; [discriminate| |].
  - simpl. by destruct (PyStr.isspace c).
  - pose proof (rstrip_has_close r) as Hr.
    simpl. destruct (PyStr.rstrip r) as [|x y].
    + destruct (PyStr.isspace d); [|simpl; by rewrite andb_false_r].
      by destruct (PyStr.isspace c).
    + intros H. apply andb_true_iff in H as [H Hc].
      rewrite H. simpl. by apply Hr.
Qed.

Lemma rstrip_has_tag (s : string) :
  PyStr.has_tag (PyStr.rstrip s) = true -> PyStr.has_tag s = true.
Proof.
  induction s as [|c r IH]; [discriminate|].
  change (PyStr.has_tag (String c r))
    with (PyStr.tag_at (String c r) || PyStr.has_tag r).
  pose proof (rstrip_tag_at (String c r)) as Ht.
  simpl PyStr.rstrip in *. destruct (PyStr.rstrip r) as [|d t].
  - destruct (PyStr.isspace c); [discriminate|].
    simpl. discriminate.
  - change (PyStr.has_tag (String c (String d t)))
      with (PyStr.tag_at (String c (String d t))
            || PyStr.has_tag (String d t)).
    intros H. apply orb_true_iff in H as [H|H].
    + by rewrite Ht.
    + rewrite (IH H). apply orb_true_r.
Qed.

Lemma strip_no_tag (s : string) :
  PyStr.has_tag s = false -> PyStr.has_tag (PyStr.strip s) = false.
Proof.
  intros H. unfold PyStr.strip.
  destruct (PyStr.has_tag (PyStr.rstrip (PyStr.lstrip s))) eqn:E;
    [|reflexivity].
  apply rstrip_has_tag, lstrip_has_tag in E. congruence.
Qed.

(** ** The store protocol on traces *)

Lemma cached_app (evs1 evs2 : list event) :
  cached (evs1 ++ evs2) = cached evs1 ++ cached evs2.
Proof.
  induction evs1 as [|ev evs1 IH]; [reflexivity|].
  destruct ev; simpl; rewrite IH; reflexivity.
Qed.

Lemma cached_other (ev : event) (evs : list event) :
  is_store_event ev = false -> cached (ev :: evs) = cached evs.
Proof. destruct ev; simpl; intros H; first [discriminate | reflexivity]. Qed.

Lemma steps_to_refl (s : state) : steps_to s [] s.
Proof.
  repeat split; simpl; [by rewrite app_nil_r | set_solver | lia].
Qed.

Lemma steps_to_trans (s1 s2 s3 : state) (evs1 evs2 : list event) :
  steps_to s1 evs1 s2 -> steps_to s2 evs2 s3 -> steps_to s1 (evs1 ++ evs2) s3.
Proof.
  intros (Ht1 & Hd1 & Hk1) (Ht2 & Hd2 & Hk2). repeat split.
  - rewrite Ht2, Ht1. by rewrite app_assoc.
  - rewrite Hd2, Hd1, cached_app. set_solver.
  - lia.
Qed.

Lemma steps_to_db_mono (s s' : state) (evs : list event) :
  steps_to s evs s' -> db s ⊆ db s'.
Proof. intros (_ & Hd & _). rewrite Hd. set_solver. Qed.

Lemma gated_app (d : gset string) (evs1 evs2 : list event) :
  gated d evs1 ->
  gated (list_to_set (cached evs1) ∪ d) evs2 ->
  gated d (evs1 ++ evs2).
Proof.
  induction 1 as [d|d h evs Hh _ IH|d h evs Hh _ IH|d ev evs Hev _ IH];
    intros H2.
  - simpl in *. replace (∅ ∪ d) with d in H2 by set_solver. exact H2.
  - simpl in *. apply gated_accept; [exact Hh|]. apply IH.
    replace (list_to_set (cached evs) ∪ ({[h]} ∪ d))
      with ({[h]} ∪ list_to_set (cached evs) ∪ d) by set_solver.
    exact H2.
  - simpl in *. apply gated_reject; [exact Hh|]. by apply IH.
  - rewrite (cached_other _ _ Hev) in H2.
    simpl. apply gated_other; [exact Hev|]. by apply IH.
Qed.

(** Under the protocol no fingerprint is written twice, and none that the
    store held at the start. *)
Lemma gated_cached (d : gset string) (evs : list event) :
  gated d evs -> NoDup (cached evs) /\ forall h, h ∈ cached evs -> h ∉ d.
Proof.
  induction 1 as [d|d h evs Hh _ [IHn IHd]|d h evs Hh _ IH|d ev evs Hev _ IH].
  - split; [constructor|]. simpl. intros h Hin. by apply elem_of_nil in Hin.
  - simpl. split.
    + constructor; [|exact IHn]. intros Hin. apply IHd in Hin. set_solver.
    + intros h' Hin. apply elem_of_cons in Hin as [->|Hin]; [exact Hh|].
      apply IHd in Hin. set_solver.
  - exact IH.
  - by rewrite (cached_other _ _ Hev).
Qed.

(** At an acceptance the fingerprint is in the store neither from the
    start nor from an earlier write of the run, and it is not written
    again afterwards. *)
Lemma gated_accepted (d : gset string) (pre post : list event) (h : string) :
  gated d (pre ++ [IsDuplicate h false; CacheArticle h] ++ post) ->
  (h ∉ d) /\ (h ∉ cached pre) /\ (h ∉ cached post).
Proof.
  remember (pre ++ [IsDuplicate h false; CacheArticle h] ++ post) as evs eqn:E.
  intros G. revert pre E.
  induction G as [d|d h' evs Hh G IH|d h' evs Hh G IH|d ev evs Hev G IH];
    intros pre E.
  - destruct pre; discriminate.
  - destruct pre as [|x [|y pre]]; simplify_eq/=.
    + repeat split; [exact Hh|apply not_elem_of_nil|].
      destruct (gated_cached _ _ G) as [_ Hd]. intros Hin.
      apply Hd in Hin. set_solver.
    + destruct (IH pre eq_refl) as (H1 & H2 & H3).
      repeat split; [set_solver| |exact H3].
      intros Hin. apply elem_of_cons in Hin as [->|Hin]; set_solver.
  - destruct pre as [|x pre]; simplify_eq/=.
    destruct (IH pre eq_refl) as (H1 & H2 & H3).
    repeat split; assumption.
  - destruct pre as [|x pre]; simpl in E; simplify_eq.
    destruct (IH pre eq_refl) as (H1 & H2 & H3).
    repeat split; [exact H1| |exact H3].
    by rewrite (cached_other _ _ Hev).
Qed.

(** ** One entry *)

Section EntryFacts.

Variable CONFIG : config.
Variable wall_clock : nat -> datetime.

Lemma bind_eq {A B} (m : M A) (k : A -> M B) (s : state) :
  bind m k s =
  match m s with
  | (Ok a, s') => k a s'
  | (Raise e, s') => (Raise e, s')
  end.
Proof. reflexivity. Qed.

(** [parse_date] returns a value in every state and for every entry; it
    adds no effect and leaves the store alone. *)
Lemma parse_date_returns (e : entry) (s : state) :
  exists d s', parse_date wall_clock e s = (Ok d, s') /\ steps_to s [] s'.
Proof.
  unfold parse_date.
  destruct (parse_date_try e) as [[d|]|x].
  - exists d, s. split; [reflexivity|apply steps_to_refl].
  - eexists _, _. split; [reflexivity|].
    (split; [|split]); simpl; [by rewrite app_nil_r|set_solver|lia].
  - eexists _, _. split; [reflexivity|].
    (split; [|split]); simpl; [by rewrite app_nil_r|set_solver|lia].
Qed.

Lemma entry_step_run (feed : feed_doc) (feed_url : string) (e : entry) (s : state) :
  exists r evs s',
    entry_step CONFIG wall_clock feed feed_url e s = (r, s')
    /\ steps_to s evs s'
    /\ entry_run CONFIG feed feed_url e s r evs.
Proof.
  unfold entry_step. rewrite bind_eq. unfold lift.
  destruct (extract_content e) as [c|x] eqn:Ec.
  - destruct (PyStr.len c <? min_article_length CONFIG) eqn:Elen.
    + apply Z.ltb_lt in Elen.
      eexists _, _, _. split; [reflexivity|]. split.
      * (split; [|split]); simpl; [reflexivity|set_solver|lia].
      * by eapply run_short.
    + apply Z.ltb_ge in Elen.
      rewrite bind_eq. unfold db_is_duplicate, NewsDatabase.is_duplicate.
      cbv beta iota zeta.
      destruct (bool_decide (content_hash_of c ∈ db s)) eqn:Edup.
      * apply bool_decide_eq_true in Edup.
        eexists _, _, _. split; [reflexivity|]. split.
        -- (split; [|split]); simpl; [by rewrite <- app_assoc|set_solver|lia].
        -- by eapply run_duplicate.
      * apply bool_decide_eq_false in Edup.
        rewrite bind_eq.
        match goal with
        | |- context [parse_date _ _ ?s1] =>
            destruct (parse_date_returns e s1) as (d & s2 & Hp & Ht & Hd & Hk)
        end.
        rewrite Hp. simpl in Ht, Hd, Hk.
        eexists _, _, _. split; [reflexivity|]. split.
        -- (split; [|split]); simpl.
           ++ rewrite Ht, app_nil_r. by rewrite <- app_assoc.
           ++ rewrite Hd. simpl. unfold NewsDatabase.cache_article. set_solver.
           ++ lia.
        -- by eapply run_accept.
  - eexists _, _, _. split; [reflexivity|]. split.
    + apply steps_to_refl.
    + by apply run_raise.
Qed.

(** Whatever the body does to an entry keeps to the store protocol. *)
Lemma entry_run_gated (feed : feed_doc) (feed_url : string) (e : entry)
    (s : state) (r : result (option Article)) (evs : list event) :
  entry_run CONFIG feed feed_url e s r evs -> gated (db s) evs.
Proof.
  destruct 1.
  - constructor.
  - apply gated_other; [reflexivity|constructor].
  - apply gated_reject; [assumption|].
    apply gated_other; [reflexivity|constructor].
  - apply gated_accept; [assumption|constructor].
Qed.

(** The loop, one entry at a time. *)
Lemma entries_loop_cons (feed : feed_doc) (feed_url : string) (e : entry)
    (es : list entry) (articles : list Article) (n : Z) (s : state) :
  entries_loop CONFIG wall_clock feed feed_url (e :: es) articles n s =
  if n >=? max_articles_per_feed CONFIG then (Ok articles, s)
  else
    match entry_step CONFIG wall_clock feed feed_url e s with
    | (Ok None, s') =>
        entries_loop CONFIG wall_clock feed feed_url es articles n s'
    | (Ok (Some a), s') =>
        entries_loop CONFIG wall_clock feed feed_url es (articles ++ [a]) (n + 1) s'
    | (Raise x, s') => (Raise x, s')
    end.
Proof.
  simpl. destruct (n >=? max_articles_per_feed CONFIG); [reflexivity|].
  unfold entry_step. rewrite !bind_eq. unfold lift.
  destruct (extract_content e) as [c|x]; [|reflexivity].
  destruct (PyStr.len c <? min_article_length CONFIG); [reflexivity|].
  rewrite !bind_eq. unfold db_is_duplicate.
  destruct (NewsDatabase.is_duplicate (db s) (content_hash_of c)); [reflexivity|].
  rewrite !bind_eq.
  match goal with
  | |- context [parse_date _ _ ?s1] => destruct (parse_date wall_clock e s1) as [[d|x] s2]
  end; reflexivity.
Qed.

End EntryFacts.

(** ** The entry loop *)

Section LoopFacts.

Variable CONFIG : config.
Variable wall_clock : nat -> datetime.
Variable feed : feed_doc.
Variable feed_url : string.

Local Abbreviation loop := (entries_loop CONFIG wall_clock feed feed_url).
Local Abbreviation run := (loop_run CONFIG feed feed_url).

(** The loop returns or raises in every state, the way [loop_run] says. *)
Lemma entries_loop_run (es : list entry) (articles : list Article) (n : Z)
    (s : state) :
  exists r evs s', loop es articles n s = (r, s') /\ run es articles n s r evs s'.
Proof.
  revert articles n s. induction es as [|e es IH]; intros articles n s.
  - eexists _, _, _. split; [reflexivity|constructor].
  - rewrite entries_loop_cons.
    destruct (n >=? max_articles_per_feed CONFIG) eqn:Ecap.
    + apply Z.geb_le in Ecap.
      eexists _, _, _. split; [reflexivity|by constructor].
    + assert (n < max_articles_per_feed CONFIG) as Hn.
      { rewrite Z.geb_leb in Ecap. by apply Z.leb_gt in Ecap. }
      destruct (entry_step_run CONFIG wall_clock feed feed_url e s)
        as (r1 & evs1 & s1 & -> & Hst & Hrun).
      destruct r1 as [[a|]|x].
      * destruct (IH (articles ++ [a]) (n + 1) s1) as (r & evs & s2 & -> & Hr).
        eexists _, _, _. split; [reflexivity|]. by eapply loop_accept.
      * destruct (IH articles n s1) as (r & evs & s2 & -> & Hr).
        eexists _, _, _. split; [reflexivity|]. by eapply loop_skip.
      * eexists _, _, _. split; [reflexivity|]. by eapply loop_raise.
Qed.

Lemma loop_run_steps es articles n s r evs s' :
  run es articles n s r evs s' -> steps_to s evs s'.
Proof.
  induction 1; try apply steps_to_refl; try assumption;
    by eapply steps_to_trans.
Qed.

Lemma loop_run_gated es articles n s r evs s' :
  run es articles n s r evs s' -> gated (db s) evs.
Proof.
  induction 1 as [| |? ? ? ? ? ? ? ? ? Hrun ?
                  |? ? ? ? ? ? ? ? ? ? ? Hrun Hst ? IH
                  |? ? ? ? ? ? ? ? ? ? ? ? Hrun Hst ? IH];
    try constructor.
  - by eapply entry_run_gated.
  - apply gated_app; [by eapply entry_run_gated|].
    destruct Hst as (_ & Hd & _). by rewrite <- Hd.
  - apply gated_app; [by eapply entry_run_gated|].
    destruct Hst as (_ & Hd & _). by rewrite <- Hd.
Qed.

(** What a returning loop has added to [articles]: one article per
    write to the store, in the order of the writes, each long enough
    and each made from an entry of the document, in document order. *)
Lemma loop_run_returns es articles n s out evs s' :
  run es articles n s (Ok out) evs s' ->
  exists new kept,
    out = articles ++ new
    /\ fingerprint <$> new = cached evs
    /\ Forall (fun a => min_article_length CONFIG <= PyStr.len (content a)) new
    /\ sublist kept es
    /\ Forall2 (made_from feed feed_url) kept new.
Proof.
  remember (Ok out) as r eqn:Er. intros H. revert out Er.
  induction H as [articles n s|e es articles n s Hcap
                  |e es articles n s x evs s' Hn Hrun Hst
                  |e es articles n s evs s' r evs' s'' Hn Hrun Hst Hrest IH
                  |e es articles n s a evs s' r evs' s'' Hn Hrun Hst Hrest IH];
    intros out Er.
  - injection Er as <-. exists [], []. rewrite app_nil_r.
    repeat split; constructor.
  - injection Er as <-. exists [], []. rewrite app_nil_r.
    repeat split; try constructor. apply sublist_nil_l.
  - discriminate.
  - destruct (IH out Er) as (new & kept & -> & Hfp & Hlen & Hsub & Hmade).
    exists new, kept. repeat split; try assumption.
    + rewrite cached_app, Hfp. by inversion Hrun.
    + by apply sublist_cons.
  - destruct (IH out Er) as (new & kept & -> & Hfp & Hlen & Hsub & Hmade).
    exists (a :: new), (e :: kept). inversion Hrun; subst.
    repeat split.
    + by rewrite <- app_assoc.
    + rewrite cached_app, fmap_cons, Hfp. reflexivity.
    + by constructor.
    + by apply sublist_skip.
    + constructor; [|assumption]. by repeat split.
Qed.

(** The cap: a loop entered with [n] accepted so far adds at most
    [max_articles_per_feed - n] articles. *)
Lemma loop_run_cap es articles n s out evs s' :
  run es articles n s (Ok out) evs s' ->
  n <= max_articles_per_feed CONFIG ->
  Z.of_nat (length out) <= Z.of_nat (length articles) + (max_articles_per_feed CONFIG - n).
Proof.
  remember (Ok out) as r eqn:Er. intros H. revert out Er.
  induction H as [articles n s|e es articles n s Hcap
                  |e es articles n s x evs s' Hn Hrun Hst
                  |e es articles n s evs s' r evs' s'' Hn Hrun Hst Hrest IH
                  |e es articles n s a evs s' r evs' s'' Hn Hrun Hst Hrest IH];
    intros out Er Hle.
  - injection Er as <-. lia.
  - injection Er as <-. lia.
  - discriminate.
  - by apply IH.
  - specialize (IH out Er). rewrite length_app in IH. simpl in IH. lia.
Qed.

End LoopFacts.

(** ** Articles backed by writes to the store *)

Lemma backed_nil (CONFIG : config) (evs : list event) : backed CONFIG evs [].
Proof.
  split; [constructor|]. intros a Ha. by apply elem_of_nil in Ha.
Qed.

Lemma backed_more (CONFIG : config) (pre evs post : list event)
    (out : list Article) :
  backed CONFIG evs out -> backed CONFIG (pre ++ evs ++ post) out.
Proof.
  intros [Hn Hin]. split; [exact Hn|]. intros a Ha.
  destruct (Hin a Ha) as [Hlen Hc]. split; [exact Hlen|].
  rewrite !cached_app. set_solver.
Qed.

Lemma backed_sublist (CONFIG : config) (evs : list event)
    (out out' : list Article) :
  sublist out' out -> backed CONFIG evs out -> backed CONFIG evs out'.
Proof.
  intros Hsub [Hn Hin]. split.
  - eapply sublist_NoDup; [exact Hn|by apply fmap_sublist].
  - intros a Ha. apply Hin. by eapply elem_of_sublist.
Qed.

Lemma backed_perm (CONFIG : config) (evs : list event)
    (out out' : list Article) :
  out ≡ₚ out' -> backed CONFIG evs out -> backed CONFIG evs out'.
Proof.
  intros Hp [Hn Hin]. split.
  - eapply (NoDup_Permutation_proper _ _ (fmap_Permutation fingerprint _ _ Hp)).
    exact Hn.
  - intros a Ha. apply Hin. by rewrite Hp.
Qed.

(** Articles backed by two stretches of one protocol-abiding trace do not
    share a fingerprint. *)
Lemma backed_app (CONFIG : config) (d : gset string) (evs1 evs2 : list event)
    (out1 out2 : list Article) :
  gated d (evs1 ++ evs2) ->
  backed CONFIG evs1 out1 -> backed CONFIG evs2 out2 ->
  backed CONFIG (evs1 ++ evs2) (out1 ++ out2).
Proof.
  intros G [Hn1 Hin1] [Hn2 Hin2].
  destruct (gated_cached _ _ G) as [Hnd _]. rewrite cached_app in Hnd.
  apply NoDup_app in Hnd as (_ & Hdisj & _).
  split.
  - rewrite fmap_app. apply NoDup_app. repeat split; [exact Hn1| |exact Hn2].
    intros h H1 H2.
    apply list_elem_of_fmap in H1 as (a1 & -> & Ha1).
    apply list_elem_of_fmap in H2 as (a2 & E & Ha2).
    apply (Hdisj (fingerprint a1)).
    + by apply Hin1.
    + rewrite E. by apply Hin2.
  - intros a Ha. rewrite cached_app. apply elem_of_app in Ha as [Ha|Ha].
    + destruct (Hin1 a Ha). split; [assumption|set_solver].
    + destruct (Hin2 a Ha). split; [assumption|set_solver].
Qed.

(** Under the protocol every write comes directly after the check of the
    same fingerprint answered false. *)
Lemma gated_cached_accepted (d : gset string) (evs : list event) (h : string) :
  gated d evs -> h ∈ cached evs -> accepted_in evs h.
Proof.
  induction 1 as [d|d h' evs Hh _ IH|d h' evs Hh _ IH|d ev evs Hev _ IH].
  - simpl. intros Hin. by apply elem_of_nil in Hin.
  - simpl. intros Hin. apply elem_of_cons in Hin as [->|Hin].
    + by exists [], evs.
    + destruct (IH Hin) as (pre & post & ->).
      by exists (IsDuplicate h' false :: CacheArticle h' :: pre), post.
  - simpl. intros Hin. destruct (IH Hin) as (pre & post & ->).
    by exists (IsDuplicate h' true :: pre), post.
  - rewrite (cached_other _ _ Hev). intros Hin.
    destruct (IH Hin) as (pre & post & ->).
    by exists (ev :: pre), post.
Qed.

(** ** One source *)

Section SourceFacts.

Variable CONFIG : config.
Variable feedparser_parse : string -> result feed_doc.
Variable wall_clock : nat -> datetime.

Local Abbreviation resume := (fetch_resume CONFIG feedparser_parse wall_clock).

(** [fetch_resume] by the cases of its [try] block. *)
Lemma fetch_resume_eq (response : http_outcome) (feed_url : string) (s : state) :
  resume response feed_url s =
  match response_text response with
  | Raise e => (Ok [], with_events s [error_line feed_url e])
  | Ok text =>
      match feedparser_parse text with
      | Raise e => (Ok [], with_events s [error_line feed_url e])
      | Ok feed =>
          match entries_loop CONFIG wall_clock feed feed_url (entries feed) [] 0 s with
          | (Ok articles, s1) =>
              (Ok articles,
               with_events s1 [Log INFO (Fetched (length articles) feed_url)])
          | (Raise e, s1) => (Ok [], with_events s1 [error_line feed_url e])
          end
      end
  end.
Proof.
  unfold fetch_resume, try_except, fetch_body. rewrite bind_eq. unfold lift.
  destruct (response_text response) as [text|e].
  - rewrite bind_eq.
    destruct (feedparser_parse text) as [feed|e].
    + rewrite bind_eq.
      destruct (entries_loop _ _ _ _ _ _ _ s) as [[articles|e] s1].
      * reflexivity.
      * unfold fetch_handler, error_line. by destruct (is_ClientError e).
    + unfold fetch_handler, error_line. by destruct (is_ClientError e).
  - unfold fetch_handler, error_line. by destruct (is_ClientError e).
Qed.

Lemma steps_to_with_events (s : state) (evs : list event) :
  cached evs = [] -> steps_to s evs (with_events s evs).
Proof.
  intros E. split; [|split]; simpl; [reflexivity|rewrite E; set_solver|lia].
Qed.

(** What a loop started on no articles returns is backed by its writes. *)
Lemma loop_run_backed (feed : feed_doc) (feed_url : string) (es : list entry)
    (n : Z) (s : state) (out : list Article) (evs : list event) (s' : state) :
  loop_run CONFIG feed feed_url es [] n s (Ok out) evs s' ->
  backed CONFIG evs out.
Proof.
  intros Hrun.
  pose proof (loop_run_gated _ _ _ _ _ _ _ _ _ _ Hrun) as Hg.
  destruct (loop_run_returns _ _ _ _ _ _ _ _ _ _ Hrun)
    as (new & kept & -> & Hfp & Hlen & _).
  rewrite app_nil_l. split.
  - rewrite Hfp. by destruct (gated_cached _ _ Hg).
  - intros a Ha. split.
    + rewrite Forall_forall in Hlen. by apply Hlen.
    + rewrite <- Hfp. by apply list_elem_of_fmap_2.
Qed.

(** [fetch_resume] returns in every state; what it returns is backed by
    its own writes, and its effects keep to the store protocol. *)
Lemma fetch_resume_returns (response : http_outcome) (feed_url : string)
    (s : state) :
  exists out evs s',
    resume response feed_url s = (Ok out, s')
    /\ steps_to s evs s'
    /\ gated (db s) evs
    /\ backed CONFIG evs out.
Proof.
  rewrite fetch_resume_eq.
  destruct (response_text response) as [text|e].
  - destruct (feedparser_parse text) as [feed|e].
    + destruct (entries_loop_run CONFIG wall_clock feed feed_url
                  (entries feed) [] 0 s) as (r & evs & s1 & -> & Hrun).
      pose proof (loop_run_steps _ _ _ _ _ _ _ _ _ _ Hrun) as Hst.
      pose proof (loop_run_gated _ _ _ _ _ _ _ _ _ _ Hrun) as Hg.
      assert (forall ev, is_store_event ev = false ->
                steps_to s (evs ++ [ev]) (with_events s1 [ev])
                /\ gated (db s) (evs ++ [ev])) as Hend.
      { intros ev Hev. split.
        - eapply steps_to_trans; [exact Hst|].
          apply steps_to_with_events. by rewrite (cached_other _ _ Hev).
        - apply gated_app; [exact Hg|].
          apply gated_other; [exact Hev|constructor]. }
      destruct r as [out|e].
      * destruct (Hend (Log INFO (Fetched (length out) feed_url)) eq_refl)
          as [Hs1 Hg1].
        eexists _, _, _. split; [reflexivity|].
        split; [exact Hs1|]. split; [exact Hg1|].
        apply (backed_more CONFIG [] evs).
        by eapply loop_run_backed.
      * destruct (Hend (error_line feed_url e) eq_refl) as [Hs1 Hg1].
        eexists _, _, _. split; [reflexivity|].
        split; [exact Hs1|]. split; [exact Hg1|]. apply backed_nil.
    + eexists _, _, _. split; [reflexivity|]. split; [|split].
      * by apply steps_to_with_events.
      * apply gated_other; [reflexivity|constructor].
      * apply backed_nil.
  - eexists _, _, _. split; [reflexivity|]. split; [|split].
    + by apply steps_to_with_events.
    + apply gated_other; [reflexivity|constructor].
    + apply backed_nil.
Qed.

End SourceFacts.

(** ** The results of a gather *)

Lemma extend_results_gathered (articles : list Article)
    (results : list (option (result (list Article)))) :
  extend_results articles results = articles ++ gathered results.
Proof.
  unfold gathered. revert articles.
  induction results as [|r results IH]; intros articles; simpl.
  - by rewrite app_nil_r.
  - destruct r as [[l|e]|].
    + rewrite IH, (IH l). by rewrite app_assoc.
    + apply IH.
    + apply IH.
Qed.

Lemma gathered_concat (results : list (option (result (list Article)))) :
  gathered results = concat (slot_articles <$> results).
Proof.
  induction results as [|r results IH]; [reflexivity|].
  rewrite fmap_cons. simpl. rewrite <- IH.
  unfold gathered at 1. simpl.
  destruct r as [[l|e]|]; simpl; try reflexivity.
  by rewrite extend_results_gathered.
Qed.

Lemma gathered_app (r1 r2 : list (option (result (list Article)))) :
  gathered (r1 ++ r2) = gathered r1 ++ gathered r2.
Proof. by rewrite !gathered_concat, fmap_app, concat_app. Qed.

(** Filling a slot puts the new articles at the place of the slot; what
    the other slots hold stays, in order. *)
Lemma gathered_insert (results : list (option (result (list Article))))
    (j : nat) (l : list Article) :
  (j < length results)%nat ->
  exists g1 g2,
    gathered (<[j := Some (Ok l)]> results) = g1 ++ l ++ g2
    /\ sublist (g1 ++ g2) (gathered results).
Proof.
  intros Hj.
  exists (gathered (take j results)), (gathered (drop (S j) results)).
  split.
  - rewrite insert_take_drop by exact Hj.
    rewrite gathered_app. f_equal.
    rewrite !gathered_concat, fmap_cons. reflexivity.
  - destruct (lookup_lt_is_Some_2 results j Hj) as [r Hr].
    rewrite <- (take_drop_middle results j r Hr) at 3.
    rewrite gathered_app. apply sublist_app; [reflexivity|].
    rewrite (gathered_concat (r :: _)), fmap_cons. simpl.
    rewrite <- gathered_concat. by apply sublist_inserts_l.
Qed.

Lemma runs_on_step (s0 s s' : state) (evs0 evs : list event) :
  runs_on s0 evs0 s -> steps_to s evs s' -> gated (db s) evs ->
  runs_on s0 (evs0 ++ evs) s'.
Proof.
  intros [Hst Hg] Hst' Hg'. split.
  - by eapply steps_to_trans.
  - apply gated_app; [exact Hg|].
    destruct Hst as (_ & Hd & _). by rewrite <- Hd.
Qed.

Lemma runs_on_refl (s : state) : runs_on s [] s.
Proof. split; [apply steps_to_refl|constructor]. Qed.

Section GatherFacts.

Variable CONFIG : config.
Variable http_get : Z -> string -> http_outcome.
Variable feedparser_parse : string -> result feed_doc.
Variable wall_clock : nat -> datetime.
Variable schedule : Z -> list nat.

Local Abbreviation resume := (fetch_resume CONFIG feedparser_parse wall_clock).
Local Abbreviation tasks :=
  (resume_tasks CONFIG http_get feedparser_parse wall_clock).

Lemma start_tasks_eq (batch : list string) (s : state) :
  start_tasks batch s = (Ok tt, with_events s (attempts batch)).
Proof.
  revert s. induction batch as [|u batch IH]; intros s.
  - simpl. unfold ret, with_events. rewrite app_nil_r. by destruct s.
  - simpl. rewrite bind_eq. simpl. rewrite IH. unfold with_events. simpl.
    by rewrite <- app_assoc.
Qed.

Lemma attempts_quiet (d : gset string) (batch : list string) :
  cached (attempts batch) = []
  /\ gated d (attempts batch)
  /\ pacing (attempts batch) = [].
Proof.
  induction batch as [|u batch (IH1 & IH2 & IH3)]; simpl.
  - repeat split; constructor.
  - split; [exact IH1|]. split; [by apply gated_other|exact IH3].
Qed.

Lemma resume_tasks_cons (i : Z) (batch : list string) (j : nat)
    (order : list nat) (results : list (option (result (list Article))))
    (s : state) :
  tasks i batch (j :: order) results s =
  match batch !! j with
  | Some feed_url =>
      let '(r, s') := resume (http_get (i + Z.of_nat j) feed_url) feed_url s in
      tasks i batch order (<[j := Some r]> results) s'
  | None => tasks i batch order results s
  end.
Proof. simpl. by destruct (batch !! j). Qed.

(** The resumed tasks return, keep to the protocol, and leave results
    that are backed by the writes so far. *)
Lemma resume_tasks_backed (i : Z) (batch : list string) (order : list nat)
    (results : list (option (result (list Article))))
    (s0 s : state) (evs0 : list event) :
  runs_on s0 evs0 s ->
  backed CONFIG evs0 (gathered results) ->
  exists results' evs s',
    tasks i batch order results s = (Ok results', s')
    /\ steps_to s evs s'
    /\ runs_on s0 (evs0 ++ evs) s'
    /\ backed CONFIG (evs0 ++ evs) (gathered results').
Proof.
  revert results s evs0.
  induction order as [|j order IH]; intros results s evs0 Hon Hb.
  - exists results, [], s. rewrite app_nil_r.
    split; [reflexivity|]. split; [apply steps_to_refl|]. by split.
  - rewrite resume_tasks_cons.
    destruct (batch !! j) as [feed_url|]; [|by apply IH].
    destruct (fetch_resume_returns CONFIG feedparser_parse wall_clock
                (http_get (i + Z.of_nat j) feed_url) feed_url s)
      as (out & evs1 & s1 & -> & Hst1 & Hg1 & Hb1).
    pose proof (runs_on_step _ _ _ _ _ Hon Hst1 Hg1) as Hon1.
    assert (backed CONFIG (evs0 ++ evs1)
              (gathered (<[j := Some (Ok out)]> results))) as Hb'.
    { destruct (decide (j < length results)%nat) as [Hj|Hj].
      - destruct (gathered_insert results j out Hj) as (g1 & g2 & -> & Hsub).
        apply (backed_perm CONFIG _ ((g1 ++ g2) ++ out)).
        + rewrite <- (assoc_L (++)). apply Permutation_app_head.
          apply Permutation_app_comm.
        + apply (backed_app CONFIG (db s0)); [by destruct Hon1| |exact Hb1].
          by eapply backed_sublist.
      - rewrite list_insert_ge by lia.
        exact (backed_more CONFIG [] evs0 evs1 _ Hb). }
    destruct (IH _ _ _ Hon1 Hb') as (results' & evs2 & s2 & -> & Hst2 & Hon2 & Hb2).
    exists results', (evs1 ++ evs2), s2. rewrite app_assoc.
    split; [reflexivity|]. split; [by eapply steps_to_trans|]. by split.
Qed.

(** None of this opens a session, closes one or sleeps. *)
Lemma pacing_app (evs1 evs2 : list event) :
  pacing (evs1 ++ evs2) = pacing evs1 ++ pacing evs2.
Proof. apply filter_app. Qed.

Lemma entry_run_pacing feed feed_url e s r evs :
  entry_run CONFIG feed feed_url e s r evs -> pacing evs = [].
Proof. by destruct 1. Qed.

Lemma loop_run_pacing feed feed_url es articles n s r evs s' :
  loop_run CONFIG feed feed_url es articles n s r evs s' -> pacing evs = [].
Proof.
  induction 1 as [| |? ? ? ? ? ? ? ? ? Hrun ?
                  |? ? ? ? ? ? ? ? ? ? ? Hrun Hst ? IH
                  |? ? ? ? ? ? ? ? ? ? ? ? Hrun Hst ? IH];
    try reflexivity.
  - by eapply entry_run_pacing.
  - rewrite pacing_app, IH. by erewrite entry_run_pacing.
  - rewrite pacing_app, IH. by erewrite entry_run_pacing.
Qed.

Lemma fetch_resume_pacing (response : http_outcome) (feed_url : string)
    (s : state) (r : result (list Article)) (s' : state) :
  resume response feed_url s = (r, s') ->
  pacing (trace s') = pacing (trace s).
Proof.
  rewrite fetch_resume_eq.
  destruct (response_text response) as [text|e].
  - destruct (feedparser_parse text) as [feed|e].
    + destruct (entries_loop_run CONFIG wall_clock feed feed_url
                  (entries feed) [] 0 s) as (r1 & evs & s1 & -> & Hrun).
      pose proof (loop_run_steps _ _ _ _ _ _ _ _ _ _ Hrun) as (Ht & _).
      pose proof (loop_run_pacing _ _ _ _ _ _ _ _ _ Hrun) as Hq.
      destruct r1; intros [= <- <-]; simpl;
        by rewrite Ht, !pacing_app, Hq, !app_nil_r.
    + intros [= <- <-]. simpl. by rewrite pacing_app, app_nil_r.
  - intros [= <- <-]. simpl. by rewrite pacing_app, app_nil_r.
Qed.

Lemma resume_tasks_pacing (i : Z) (batch : list string) (order : list nat)
    (results : list (option (result (list Article))))
    (s s' : state) r :
  tasks i batch order results s = (r, s') ->
  pacing (trace s') = pacing (trace s).
Proof.
  revert results s. induction order as [|j order IH]; intros results s.
  - by intros [= <- <-].
  - rewrite resume_tasks_cons.
    destruct (batch !! j) as [feed_url|]; [|by apply IH].
    destruct (resume _ feed_url s) as [r1 s1] eqn:E1.
    intros H. apply IH in H. rewrite H.
    by eapply fetch_resume_pacing.
Qed.

(** Where every task of the batch gets its turn, every slot ends up with
    the list its own fetch returned, whatever the others did. *)
Lemma resume_tasks_slots (i : Z) (batch : list string) (order : list nat)
    (results : list (option (result (list Article)))) (s : state) :
  exists results' s',
    tasks i batch order results s = (Ok results', s')
    /\ length results' = length results
    /\ (forall j, j ∉ order -> results' !! j = results !! j)
    /\ (forall j feed_url,
           j ∈ order -> (j < length results)%nat ->
           batch !! j = Some feed_url ->
           exists l, results' !! j = Some (Some (Ok l))
                     /\ fetched CONFIG http_get feedparser_parse wall_clock
                                (i + Z.of_nat j) feed_url l).
Proof.
  revert results s. induction order as [|j0 order IH]; intros results s.
  - exists results, s. repeat split; try done.
    intros j u Hj. by apply elem_of_nil in Hj.
  - rewrite resume_tasks_cons.
    destruct (batch !! j0) as [u0|] eqn:Eb.
    + destruct (fetch_resume_returns CONFIG feedparser_parse wall_clock
                  (http_get (i + Z.of_nat j0) u0) u0 s)
        as (out & evs1 & s1 & E1 & _).
      rewrite E1.
      destruct (IH (<[j0 := Some (Ok out)]> results) s1)
        as (results' & s' & -> & Hlen & Hout & Hin).
      rewrite length_insert in Hlen, Hin.
      exists results', s'. split; [reflexivity|]. split; [exact Hlen|]. split.
      * intros j Hj. apply not_elem_of_cons in Hj as [Hne Hj].
        rewrite (Hout j Hj). by apply list_lookup_insert_ne.
      * intros j u Hj Hlt Hu.
        destruct (decide (j ∈ order)) as [Ho|Ho]; [by eapply Hin|].
        apply elem_of_cons in Hj as [->|Hj]; [|done].
        rewrite (Hout j0 Ho), list_lookup_insert_eq by exact Hlt.
        exists out. split; [reflexivity|].
        rewrite Eb in Hu. injection Hu as <-. by exists s, s1.
    + destruct (IH results s) as (results' & s' & -> & Hlen & Hout & Hin).
      exists results', s'. split; [reflexivity|]. split; [exact Hlen|]. split.
      * intros j Hj. apply not_elem_of_cons in Hj as [Hne Hj]. by apply Hout.
      * intros j u Hj Hlt Hu.
        apply elem_of_cons in Hj as [->|Hj]; [congruence|by eapply Hin].
Qed.

Lemma gathered_replicate (n : nat) : gathered (replicate n None) = [].
Proof. induction n as [|n IH]; [reflexivity|exact IH]. Qed.

Local Abbreviation gather_ :=
  (gather CONFIG http_get feedparser_parse wall_clock schedule).

Lemma gather_eq (i : Z) (batch : list string) (s : state) :
  gather_ i batch s
  = tasks i batch (schedule i) (replicate (length batch) None)
          (with_events s (attempts batch)).
Proof. unfold gather. by rewrite bind_eq, start_tasks_eq. Qed.

(** A gather returns its results in every state; the articles in them
    are backed by the writes of the gather, whatever the schedule. *)
Lemma gather_returns (i : Z) (batch : list string) (s : state) :
  exists results evs s',
    gather_ i batch s = (Ok results, s')
    /\ steps_to s evs s'
    /\ gated (db s) evs
    /\ backed CONFIG evs (gathered results)
    /\ pacing (trace s') = pacing (trace s)
    /\ length results = length batch.
Proof.
  rewrite gather_eq.
  destruct (attempts_quiet (db s) batch) as (Hc & Hg & Hq).
  set (sa := with_events s (attempts batch)).
  assert (steps_to s (attempts batch) sa) as Hsa
    by by apply steps_to_with_events.
  destruct (resume_tasks_backed i batch (schedule i)
              (replicate (length batch) None) sa sa [] (runs_on_refl sa))
    as (results & evs & s' & E & Hst & [_ Hg'] & Hb).
  { rewrite gathered_replicate. apply backed_nil. }
  rewrite E. exists results, (attempts batch ++ evs), s'.
  split; [reflexivity|]. split; [by eapply steps_to_trans|]. split.
  - apply gated_app; [exact Hg|].
    destruct Hsa as (_ & Hd & _). by rewrite <- Hd.
  - pose proof (backed_more CONFIG (attempts batch) evs [] _ Hb) as Hb2.
    rewrite app_nil_r in Hb2. split; [exact Hb2|].
    split.
    + rewrite (resume_tasks_pacing _ _ _ _ _ _ _ E). subst sa. simpl.
      by rewrite pacing_app, Hq, app_nil_r.
    + destruct (resume_tasks_slots i batch (schedule i)
                  (replicate (length batch) None) sa)
        as (results2 & s2 & E2 & Hlen & _).
      rewrite E in E2. injection E2 as <- <-.
      by rewrite Hlen, length_replicate.
Qed.

Lemma sources_fetched_lookup (k : Z) (urls : list string)
    (per : list (list Article)) :
  length per = length urls ->
  (forall j u, urls !! j = Some u ->
     exists l, per !! j = Some l
               /\ fetched CONFIG http_get feedparser_parse wall_clock
                          (k + Z.of_nat j) u l) ->
  sources_fetched CONFIG http_get feedparser_parse wall_clock k urls per.
Proof.
  revert k per. induction urls as [|u urls IH]; intros k per Hlen H.
  - destruct per; [constructor|discriminate].
  - destruct per as [|l per]; [discriminate|].
    constructor.
    + destruct (H 0%nat u eq_refl) as (l' & [= <-] & Hf).
      by rewrite Z.add_0_r in Hf.
    + apply IH; [by injection Hlen|].
      intros j u' Hu'. destruct (H (S j) u' Hu') as (l' & Hl' & Hf).
      exists l'. split; [exact Hl'|].
      by replace (k + 1 + Z.of_nat j) with (k + Z.of_nat (S j)) by lia.
Qed.

(** Under a schedule that gives every task of the batch its turn, the
    results of a gather are, slot by slot, what the fetches returned. *)
Lemma gather_sources (i : Z) (batch : list string) (s : state)
    (results : list (option (result (list Article)))) (s' : state) :
  schedule i ≡ₚ seq 0 (length batch) ->
  gather_ i batch s = (Ok results, s') ->
  sources_fetched CONFIG http_get feedparser_parse wall_clock i batch
                  (slot_articles <$> results).
Proof.
  intros Hsched. rewrite gather_eq.
  destruct (resume_tasks_slots i batch (schedule i)
              (replicate (length batch) None)
              (with_events s (attempts batch)))
    as (results2 & s2 & -> & Hlen & _ & Hin).
  intros [= <- <-]. rewrite length_replicate in Hlen, Hin.
  apply sources_fetched_lookup; [by rewrite length_fmap|].
  intros j u Hu.
  pose proof (lookup_lt_Some _ _ _ Hu) as Hj.
  destruct (Hin j u) as (l & Hl & Hf); [|exact Hj|exact Hu|].
  - rewrite Hsched. apply elem_of_seq. lia.
  - exists l. split; [|exact Hf]. by rewrite list_lookup_fmap, Hl.
Qed.

End GatherFacts.

(** ** The batches *)

Lemma py_slice_chunk {A} (l : list A) (k b : nat) :
  py_slice l (Z.of_nat k * Z.of_nat b) (Z.of_nat k * Z.of_nat b + Z.of_nat b)
  = take b (drop (k * b) l).
Proof.
  unfold py_slice.
  replace (Z.of_nat k * Z.of_nat b + Z.of_nat b - Z.of_nat k * Z.of_nat b)
    with (Z.of_nat b) by lia.
  by rewrite <- Nat2Z.inj_mul, !Nat2Z.id.
Qed.

(** [range(0, n, b)] for a positive step: the multiples of [b] below [n]. *)
Lemma py_range_chunks (n b : nat) :
  (0 < b)%nat ->
  exists m,
    py_range (Z.of_nat n) (Z.of_nat b)
    = Ok ((fun k => Z.of_nat k * Z.of_nat b) <$> seq 0 m)
    /\ (n <= m * b)%nat
    /\ (m <> 0%nat -> ((m - 1) * b < n)%nat).
Proof.
  intros Hb. unfold py_range.
  destruct (Z.of_nat b =? 0) eqn:E0; [apply Z.eqb_eq in E0; lia|].
  destruct (Z.of_nat b <? 0) eqn:E1; [apply Z.ltb_lt in E1; lia|].
  set (q := (Z.of_nat n + Z.of_nat b - 1) / Z.of_nat b).
  assert (0 <= q) as Hq0 by (apply Z.div_pos; lia).
  assert (Z.of_nat b * q <= Z.of_nat n + Z.of_nat b - 1) as Hlo
    by (apply Z.mul_div_le; lia).
  assert (Z.of_nat n + Z.of_nat b - 1 < Z.of_nat b * Z.succ q) as Hhi
    by (apply Z.mul_succ_div_gt; lia).
  exists (Z.to_nat q). split; [reflexivity|]. split.
  - apply Nat2Z.inj_le. rewrite Nat2Z.inj_mul, Z2Nat.id by exact Hq0. lia.
  - intros Hm. apply Nat2Z.inj_lt.
    rewrite Nat2Z.inj_mul, Nat2Z.inj_sub, Z2Nat.id by lia. lia.
Qed.

Lemma quiet_events (d : gset string) (evs : list event) :
  Forall (fun ev => is_store_event ev = false) evs ->
  gated d evs /\ cached evs = [].
Proof.
  induction 1 as [|ev evs Hev _ [IH1 IH2]].
  - split; [constructor|reflexivity].
  - split; [by apply gated_other|]. by rewrite (cached_other _ _ Hev).
Qed.

Section BatchFacts.

Variable CONFIG : config.
Variable http_get : Z -> string -> http_outcome.
Variable feedparser_parse : string -> result feed_doc.
Variable wall_clock : nat -> datetime.
Variable schedule : Z -> list nat.

Local Abbreviation gather_ :=
  (gather CONFIG http_get feedparser_parse wall_clock schedule).
Local Abbreviation batches_ :=
  (batches_loop CONFIG http_get feedparser_parse wall_clock schedule).

Lemma batches_loop_cons (feeds : list string) (batch_size i : Z)
    (starts : list Z) (articles : list Article) (s : state) :
  batches_ feeds batch_size (i :: starts) articles s =
  match gather_ i (py_slice feeds i (i + batch_size))
                (with_events s [SessionOpen]) with
  | (Ok results, s1) =>
      batches_ feeds batch_size starts (extend_results articles results)
               (with_events s1 (batch_tail feeds batch_size i))
  | (Raise e, s1) => (Raise e, s1)
  end.
Proof.
  simpl. rewrite bind_eq. unfold emit at 1. cbv beta iota.
  fold (with_events s [SessionOpen]). rewrite bind_eq.
  destruct (gather_ _ _ _) as [[results|e] s1]; [|reflexivity].
  rewrite !bind_eq. unfold batch_tail, emit, ret, with_events. simpl.
  destruct (i + batch_size <? Z.of_nat (length feeds)); rewrite bind_eq; simpl.
  - by rewrite <- app_assoc.
  - reflexivity.
Qed.

Lemma batch_tail_quiet (feeds : list string) (batch_size i : Z) :
  Forall (fun ev => is_store_event ev = false) (batch_tail feeds batch_size i).
Proof.
  unfold batch_tail. destruct (_ <? _); repeat constructor.
Qed.

(** The batch loop returns in every state, keeps to the store protocol,
    and what it returns is backed by the writes of the run, whatever the
    starts and the schedule. *)
Lemma batches_loop_backed (feeds : list string) (batch_size : Z)
    (starts : list Z) (articles : list Article)
    (s0 s : state) (evs0 : list event) :
  runs_on s0 evs0 s ->
  backed CONFIG evs0 articles ->
  exists out evs s',
    batches_ feeds batch_size starts articles s = (Ok out, s')
    /\ runs_on s0 (evs0 ++ evs) s'
    /\ backed CONFIG (evs0 ++ evs) out.
Proof.
  revert articles s evs0.
  induction starts as [|i starts IH]; intros articles s evs0 Hon Hb.
  - exists articles, [], s. rewrite app_nil_r.
    split; [reflexivity|]. split; assumption.
  - rewrite batches_loop_cons.
    set (so := with_events s [SessionOpen]).
    destruct (gather_returns CONFIG http_get feedparser_parse wall_clock
                schedule i (py_slice feeds i (i + batch_size)) so)
      as (results & evs1 & s1 & -> & Hst1 & Hg1 & Hb1 & _).
    set (tail := batch_tail feeds batch_size i).
    destruct (quiet_events (db s1) tail (batch_tail_quiet _ _ _)) as [Hgt Hct].
    assert (runs_on s0 (evs0 ++ [SessionOpen] ++ evs1 ++ tail)
              (with_events s1 tail)) as Hon'.
    { rewrite !app_assoc.
      eapply runs_on_step; [|by apply steps_to_with_events|exact Hgt].
      eapply runs_on_step; [|exact Hst1|exact Hg1].
      eapply runs_on_step; [exact Hon|by apply steps_to_with_events|].
      apply gated_other; [reflexivity|constructor]. }
    assert (backed CONFIG (evs0 ++ [SessionOpen] ++ evs1 ++ tail)
              (extend_results articles results)) as Hb'.
    { rewrite extend_results_gathered.
      apply (backed_app CONFIG (db s0)); [by destruct Hon'|exact Hb|].
      by apply (backed_more CONFIG [SessionOpen] evs1 tail). }
    destruct (IH _ _ _ Hon' Hb') as (out & evs2 & s2 & -> & Hon2 & Hb2).
    exists out, (([SessionOpen] ++ evs1 ++ tail) ++ evs2), s2.
    rewrite (app_assoc evs0).
    split; [reflexivity|]. split; assumption.
Qed.

(** The starts of the batches from the [a]-th on, [m] of them. *)
Local Abbreviation starts_from b a m :=
  ((fun k => Z.of_nat k * Z.of_nat b) <$> seq a m).

(** Pacing: a session per batch, and a sleep after every batch but the
    last one. *)
Lemma batches_loop_paced (feeds : list string) (b : nat) (m a : nat)
    (articles : list Article) (s : state) r (s' : state) :
  (length feeds <= (a + m) * b)%nat ->
  (m <> 0%nat -> ((a + m - 1) * b < length feeds)%nat) ->
  batches_ feeds (Z.of_nat b) (starts_from b a m) articles s = (r, s') ->
  pacing (trace s') = pacing (trace s) ++ paced m.
Proof.
  revert a articles s. induction m as [|m IH]; intros a articles s Hhi Hlo.
  - intros [= <- <-]. by rewrite app_nil_r.
  - simpl seq. rewrite fmap_cons, batches_loop_cons.
    destruct (gather_returns CONFIG http_get feedparser_parse wall_clock
                schedule (Z.of_nat a * Z.of_nat b)
                (py_slice feeds (Z.of_nat a * Z.of_nat b)
                   (Z.of_nat a * Z.of_nat b + Z.of_nat b))
                (with_events s [SessionOpen]))
      as (results & evs1 & s1 & -> & _ & _ & _ & Hp1 & _).
    intros H. apply IH in H; [|lia|intros Hm; specialize (Hlo ltac:(lia));
      replace (S a + m - 1)%nat with (a + S m - 1)%nat by lia; exact Hlo].
    rewrite H. simpl trace. rewrite pacing_app, Hp1. simpl trace.
    rewrite pacing_app, <- !app_assoc. f_equal.
    unfold batch_tail.
    replace (Z.of_nat a * Z.of_nat b + Z.of_nat b)
    with (Z.of_nat ((a + 1) * b)) by lia.
    destruct m as [|m].
    + destruct (Z.ltb_spec (Z.of_nat ((a + 1) * b)) (Z.of_nat (length feeds)));
        [|reflexivity].
      exfalso. lia.
    + specialize (Hlo ltac:(lia)).
      destruct (Z.ltb_spec (Z.of_nat ((a + 1) * b)) (Z.of_nat (length feeds)));
        [reflexivity|].
      exfalso. assert ((a + 1) * b <= (a + S (S m) - 1) * b)%nat by nia. lia.
Qed.

Lemma sources_fetched_app (k k2 : Z) (u1 u2 : list string)
    (p1 p2 : list (list Article)) :
  sources_fetched CONFIG http_get feedparser_parse wall_clock k u1 p1 ->
  sources_fetched CONFIG http_get feedparser_parse wall_clock k2 u2 p2 ->
  u2 = [] \/ k2 = k + Z.of_nat (length u1) ->
  sources_fetched CONFIG http_get feedparser_parse wall_clock k (u1 ++ u2) (p1 ++ p2).
Proof.
  intros H1 H2 Hk. induction H1 as [k|k u u1 l p1 Hf H1 IH].
  - destruct Hk as [-> | ->].
    + inversion H2. constructor.
    + simpl in *. by rewrite Z.add_0_r in H2.
  - simpl. constructor; [exact Hf|]. apply IH.
    destruct Hk as [-> | ->]; [by left|right]. simpl length. lia.
Qed.

(** Under a valid schedule the batch loop appends, source by source in
    the order of the feed list, what the fetch of each source returned. *)
Lemma batches_loop_sources (feeds : list string) (b : nat) (m a : nat)
    (articles : list Article) (s : state) :
  (length feeds <= (a + m) * b)%nat ->
  (forall i, i ∈ starts_from b a m ->
     schedule i ≡ₚ seq 0 (length (py_slice feeds i (i + Z.of_nat b)))) ->
  exists per s',
    batches_ feeds (Z.of_nat b) (starts_from b a m) articles s
    = (Ok (articles ++ concat per), s')
    /\ sources_fetched CONFIG http_get feedparser_parse wall_clock
         (Z.of_nat a * Z.of_nat b) (drop (a * b) feeds) per.
Proof.
  revert a articles s. induction m as [|m IH]; intros a articles s Hhi Hsched.
  - exists [], s. simpl. rewrite app_nil_r. split; [reflexivity|].
    rewrite drop_ge by lia. constructor.
  - simpl seq. rewrite fmap_cons, batches_loop_cons.
    set (i := Z.of_nat a * Z.of_nat b).
    destruct (gather_returns CONFIG http_get feedparser_parse wall_clock
                schedule i (py_slice feeds i (i + Z.of_nat b))
                (with_events s [SessionOpen]))
      as (results & evs1 & s1 & Eg & _).
    rewrite Eg.
    apply gather_sources in Eg;
      [|apply Hsched; simpl seq; rewrite fmap_cons; apply elem_of_cons; by left].
    destruct (IH (S a) (extend_results articles results)
                (with_events s1 (batch_tail feeds (Z.of_nat b) i)))
      as (per & s' & -> & Hper); [lia| |].
    { intros i' Hi'. apply Hsched. simpl seq. rewrite fmap_cons.
      apply elem_of_cons. by right. }
    exists ((slot_articles <$> results) ++ per), s'. split.
    + by rewrite extend_results_gathered, gathered_concat, concat_app, app_assoc.
    + subst i. rewrite py_slice_chunk in Eg.
      rewrite <- (take_drop b (drop (a * b) feeds)).
      eapply sources_fetched_app; [exact Eg| |].
      * rewrite drop_drop. by replace (a * b + b)%nat with (S a * b)%nat by lia.
      * destruct (decide (b <= length (drop (a * b) feeds))%nat) as [Hb|Hb].
        -- right. rewrite length_take, Nat.min_l by exact Hb. lia.
        -- left. apply drop_ge. lia.
Qed.

End BatchFacts.

(** ** The cap *)

Section CapFacts.

Variable wall_clock : nat -> datetime.
Variable feed : feed_doc.
Variable feed_url : string.

(** The loop body reads the length threshold only. *)
Lemma entry_step_min (c1 c2 : config) (e : entry) :
  min_article_length c1 = min_article_length c2 ->
  entry_step c1 wall_clock feed feed_url e
  = entry_step c2 wall_clock feed feed_url e.
Proof. unfold entry_step. by intros ->. Qed.

(** What the loop returns starts with the articles it was entered with. *)
Lemma entries_loop_extends (CONFIG : config) (es : list entry)
    (articles : list Article) (n : Z) (s : state) (out : list Article)
    (s' : state) :
  entries_loop CONFIG wall_clock feed feed_url es articles n s = (Ok out, s') ->
  exists new, out = articles ++ new.
Proof.
  intros E.
  destruct (entries_loop_run CONFIG wall_clock feed feed_url es articles n s)
    as (r & evs & s1 & E1 & Hrun).
  rewrite E in E1. injection E1 as <- <-.
  destruct (loop_run_returns _ _ _ _ _ _ _ _ _ _ Hrun) as (new & _ & -> & _).
  by exists new.
Qed.

(** The loop over a document in two parts.  If the first part ends with
    the cap reached, or raises, the second part is not looked at;
    otherwise the loop goes on with the second part from where the first
    part ended. *)
Lemma entries_loop_app (CONFIG : config) (es1 es2 : list entry)
    (articles : list Article) (s : state) :
  entries_loop CONFIG wall_clock feed feed_url (es1 ++ es2) articles
               (Z.of_nat (length articles)) s
  = match entries_loop CONFIG wall_clock feed feed_url es1 articles
                       (Z.of_nat (length articles)) s with
    | (Ok out1, s1) =>
        if Z.of_nat (length out1) >=? max_articles_per_feed CONFIG
        then (Ok out1, s1)
        else entries_loop CONFIG wall_clock feed feed_url es2 out1
                          (Z.of_nat (length out1)) s1
    | (Raise x, s1) => (Raise x, s1)
    end.
Proof.
  revert articles s. induction es1 as [|e es1 IH]; intros articles s.
  - simpl app.
    destruct (Z.of_nat (length articles) >=? max_articles_per_feed CONFIG) eqn:E.
    + simpl. rewrite E. destruct es2 as [|e2 es2]; [reflexivity|].
      by rewrite entries_loop_cons, E.
    + simpl. by rewrite E.
  - simpl app. rewrite !entries_loop_cons.
    destruct (Z.of_nat (length articles) >=? max_articles_per_feed CONFIG) eqn:E.
    + by rewrite E.
    + destruct (entry_step CONFIG wall_clock feed feed_url e s) as [[[a|]|x] s1].
      * replace (Z.of_nat (length articles) + 1)
          with (Z.of_nat (length (articles ++ [a])))
          by (rewrite length_app; simpl; lia).
        apply IH.
      * apply IH.
      * reflexivity.
Qed.

(** A smaller cap keeps a prefix of what a larger cap lets through. *)
Lemma entries_loop_cap_mono (c1 c2 : config) (es : list entry)
    (articles : list Article) (s : state) (out2 : list Article) (s2 : state) :
  min_article_length c1 = min_article_length c2 ->
  max_articles_per_feed c1 <= max_articles_per_feed c2 ->
  Z.of_nat (length articles) <= max_articles_per_feed c1 ->
  entries_loop c2 wall_clock feed feed_url es articles
               (Z.of_nat (length articles)) s = (Ok out2, s2) ->
  exists s1,
    entries_loop c1 wall_clock feed feed_url es articles
                 (Z.of_nat (length articles)) s
    = (Ok (take (Z.to_nat (max_articles_per_feed c1)) out2), s1).
Proof.
  intros Hmin Hcap. revert articles s.
  induction es as [|e es IH]; intros articles s Hn.
  - simpl. intros [= <- <-]. exists s. by rewrite take_ge by lia.
  - rewrite !entries_loop_cons.
    destruct (Z.of_nat (length articles) >=? max_articles_per_feed c2) eqn:E2.
    + apply Z.geb_le in E2. intros [= <- <-].
      destruct (Z.of_nat (length articles) >=? max_articles_per_feed c1) eqn:E1;
        [|rewrite Z.geb_leb in E1; apply Z.leb_gt in E1; lia].
      exists s. by rewrite take_ge by lia.
    + destruct (Z.of_nat (length articles) >=? max_articles_per_feed c1) eqn:E1.
      * apply Z.geb_le in E1. rewrite <- (entry_step_min c1 c2 e Hmin).
        intros H. exists s.
        assert (exists new, out2 = articles ++ new) as [new ->].
        { destruct (entry_step c1 wall_clock feed feed_url e s) as [[[a|]|x] s1];
            [| |discriminate].
          - apply entries_loop_extends in H as [new ->].
            exists ([a] ++ new). by rewrite app_assoc.
          - by apply entries_loop_extends in H. }
        replace (Z.to_nat (max_articles_per_feed c1)) with (length articles) by lia.
        by rewrite take_app_length.
      * rewrite Z.geb_leb in E1. apply Z.leb_gt in E1.
        rewrite <- (entry_step_min c1 c2 e Hmin).
        destruct (entry_step c1 wall_clock feed feed_url e s) as [[[a|]|x] s1].
        -- replace (Z.of_nat (length articles) + 1)
             with (Z.of_nat (length (articles ++ [a])))
             by (rewrite length_app; simpl; lia).
           apply IH. rewrite length_app. simpl. lia.
        -- by apply IH.
        -- discriminate.
Qed.

(** The two lemmas for a loop entered the way [fetch_single_feed] enters
    it: no article yet, and a count of zero. *)
Lemma entries_loop_app_start (CONFIG : config) (es1 es2 : list entry) (s : state) :
  entries_loop CONFIG wall_clock feed feed_url (es1 ++ es2) [] 0 s
  = match entries_loop CONFIG wall_clock feed feed_url es1 [] 0 s with
    | (Ok out1, s1) =>
        if Z.of_nat (length out1) >=? max_articles_per_feed CONFIG
        then (Ok out1, s1)
        else entries_loop CONFIG wall_clock feed feed_url es2 out1
                          (Z.of_nat (length out1)) s1
    | (Raise x, s1) => (Raise x, s1)
    end.
Proof. exact (entries_loop_app CONFIG es1 es2 [] s). Qed.

Lemma entries_loop_cap_mono_start (c1 c2 : config) (es : list entry)
    (s : state) (out2 : list Article) (s2 : state) :
  min_article_length c1 = min_article_length c2 ->
  max_articles_per_feed c1 <= max_articles_per_feed c2 ->
  0 <= max_articles_per_feed c1 ->
  entries_loop c2 wall_clock feed feed_url es [] 0 s = (Ok out2, s2) ->
  exists s1,
    entries_loop c1 wall_clock feed feed_url es [] 0 s
    = (Ok (take (Z.to_nat (max_articles_per_feed c1)) out2), s1).
Proof. exact (entries_loop_cap_mono c1 c2 es [] s out2 s2). Qed.

End CapFacts.

(** ** The whole run *)

Section RunFacts.

Variable CONFIG : config.
Variable http_get : Z -> string -> http_outcome.
Variable feedparser_parse : string -> result feed_doc.
Variable wall_clock : nat -> datetime.
Variable schedule : Z -> list nat.

Local Abbreviation run_ :=
  (fetch_feeds_batch CONFIG http_get feedparser_parse wall_clock schedule).

(** Whatever [fetch_feeds_batch] returns is backed by the writes of the
    run, and the run keeps to the store protocol: for every batch size and
    every schedule. *)
Lemma fetch_feeds_batch_backed (feeds : list string) (batch_size : Z)
    (s : state) (out : list Article) (s' : state) :
  run_ feeds batch_size s = (Ok out, s') ->
  exists evs, runs_on s evs s' /\ backed CONFIG evs out.
Proof.
  unfold fetch_feeds_batch. rewrite bind_eq. unfold lift.
  destruct (py_range _ _) as [starts|x]; [|discriminate].
  destruct (batches_loop_backed CONFIG http_get feedparser_parse wall_clock
              schedule feeds batch_size starts [] s s [] (runs_on_refl s)
              (backed_nil CONFIG []))
    as (out1 & evs & s1 & -> & Hon & Hb).
  intros [= <- <-]. by exists evs.
Qed.

(** With a positive batch size the run is the batch loop over the
    multiples of the batch size. *)
Lemma fetch_feeds_batch_chunks (feeds : list string) (batch_size : Z) (s : state) :
  0 < batch_size ->
  exists b m,
    batch_size = Z.of_nat b
    /\ py_range (Z.of_nat (length feeds)) batch_size
       = Ok ((fun k => Z.of_nat k * Z.of_nat b) <$> seq 0 m)
    /\ run_ feeds batch_size s
       = batches_loop CONFIG http_get feedparser_parse wall_clock schedule
           feeds (Z.of_nat b)
           ((fun k => Z.of_nat k * Z.of_nat b) <$> seq 0 m) [] s
    /\ (length feeds <= m * b)%nat
    /\ (m <> 0%nat -> ((m - 1) * b < length feeds)%nat).
Proof.
  intros Hbs. exists (Z.to_nat batch_size).
  destruct (py_range_chunks (length feeds) (Z.to_nat batch_size) ltac:(lia))
    as (m & Hr & Hhi & Hlo).
  exists m. rewrite Z2Nat.id in * by lia.
  split; [reflexivity|]. split; [exact Hr|]. split; [|by split].
  unfold fetch_feeds_batch. rewrite bind_eq. unfold lift. by rewrite Hr.
Qed.

End RunFacts.

(** ** Entries that are skipped or accepted *)

Lemma entry_step_duplicate (CONFIG : config) (wall_clock : nat -> datetime)
    (feed : feed_doc) (feed_url : string) (e : entry) (s : state) (c : string) :
  extract_content e = Ok c ->
  min_article_length CONFIG <= PyStr.len c ->
  content_hash_of c ∈ db s ->
  entry_step CONFIG wall_clock feed feed_url e s
  = (Ok None,
     with_events s [IsDuplicate (content_hash_of c) true;
                    Log DEBUG (SkippingDuplicate (log_title e))]).
Proof.
  intros Ec Hlen Hin. unfold entry_step. rewrite bind_eq. unfold lift.
  rewrite Ec. apply Z.ltb_ge in Hlen. rewrite Hlen.
  rewrite bind_eq. unfold db_is_duplicate, NewsDatabase.is_duplicate.
  cbv beta iota zeta. rewrite bool_decide_eq_true_2 by exact Hin.
  rewrite bind_eq. unfold with_events. simpl. by rewrite <- app_assoc.
Qed.

Lemma entry_step_accept (CONFIG : config) (wall_clock : nat -> datetime)
    (feed : feed_doc) (feed_url : string) (e : entry) (s : state) (c : string) :
  extract_content e = Ok c ->
  min_article_length CONFIG <= PyStr.len c ->
  content_hash_of c ∉ db s ->
  exists a s',
    entry_step CONFIG wall_clock feed feed_url e s = (Ok (Some a), s')
    /\ made_from feed feed_url e a
    /\ content a = c
    /\ steps_to s [IsDuplicate (content_hash_of c) false;
                   CacheArticle (content_hash_of c)] s'.
Proof.
  intros Ec Hlen Hin.
  destruct (entry_step_run CONFIG wall_clock feed feed_url e s)
    as (r & evs & s' & E & Hst & Hrun).
  destruct Hrun as [x Ex|c' Ec' Hshort|c' Ec' Hlong Hdup|c' d Ec' Hlong Hfresh];
    rewrite Ec in *; simplify_eq; try lia; try done.
  eexists _, s'. split; [exact E|]. split; [|by split].
  by repeat split.
Qed.

Lemma entry_step_raise (CONFIG : config) (wall_clock : nat -> datetime)
    (feed : feed_doc) (feed_url : string) (e : entry) (s : state) (x : exn) :
  extract_content e = Raise x ->
  entry_step CONFIG wall_clock feed feed_url e s = (Raise x, s).
Proof.
  intros Ex. unfold entry_step. rewrite bind_eq. unfold lift. by rewrite Ex.
Qed.

(** * The properties of the specification *)

(** C1.  Every article in the sequence returned by [fetch_feeds_batch] has
    content of at least [min_article_length] characters, and its
    fingerprint had not been recorded by the store at the moment the
    article was accepted.  The moment of acceptance is the place in the
    effects of the run where the check of the fingerprint is answered
    false and the write follows; the store at that moment holds what it
    held at the start of the run and what the run has written before that
    place, and the fingerprint is not in it.  This holds for every batch
    size and every schedule. *)
Theorem C1_returned_articles_long_and_unseen
    (CONFIG : config) (http_get : Z -> string -> http_outcome)
    (feedparser_parse : string -> result feed_doc)
    (wall_clock : nat -> datetime) (schedule : Z -> list nat)
    (feeds : list string) (batch_size : Z)
    (s : state) (out : list Article) (s' : state) :
  fetch_feeds_batch CONFIG http_get feedparser_parse wall_clock schedule
                    feeds batch_size s = (Ok out, s') ->
  exists evs,
    steps_to s evs s'
    /\ forall a, a ∈ out ->
         min_article_length CONFIG <= PyStr.len (content a)
         /\ exists pre post,
              evs = pre ++ [IsDuplicate (fingerprint a) false;
                            CacheArticle (fingerprint a)] ++ post
              /\ NewsDatabase.is_duplicate
                   (list_to_set (cached pre) ∪ db s) (fingerprint a) = false.
Proof.
  intros E.
  destruct (fetch_feeds_batch_backed _ _ _ _ _ _ _ _ _ _ E)
    as (evs & [Hst Hg] & [_ Hb]).
  exists evs. split; [exact Hst|]. intros a Ha.
  destruct (Hb a Ha) as [Hlen Hc]. split; [exact Hlen|].
  destruct (gated_cached_accepted _ _ _ Hg Hc) as (pre & post & ->).
  exists pre, post. split; [reflexivity|].
  destruct (gated_accepted _ _ _ _ Hg) as (H1 & H2 & _).
  unfold NewsDatabase.is_duplicate. apply bool_decide_eq_false.
  rewrite elem_of_union, elem_of_list_to_set. tauto.
Qed.

Lemma C1_witness :
  exists evs,
    steps_to Examples.s0 evs (snd Examples.run7)
    /\ forall a, a ∈ Examples.articles_of Examples.run7 ->
         min_article_length Examples.cfg <= PyStr.len (content a)
         /\ exists pre post,
              evs = pre ++ [IsDuplicate (fingerprint a) false;
                            CacheArticle (fingerprint a)] ++ post
              /\ NewsDatabase.is_duplicate
                   (list_to_set (cached pre) ∪ db Examples.s0) (fingerprint a)
                 = false.
Proof.
  apply (C1_returned_articles_long_and_unseen
           Examples.cfg Examples.net Examples.parse Examples.clock
           Examples.sched Examples.feeds7 5).
  vm_compute. reflexivity.
Defined.

(** C2.  Of the entries with identical extracted content processed in a
    run, at most the first is accepted: no two articles of the returned
    sequence have the same content.  The run keeps to the ordering
    contract of the store ([gated]: a write comes directly after the
    check of the same fingerprint answered false), no fingerprint is
    written twice, and the fingerprint of every returned article is in
    the store when the run ends.  From then on, in any state whose store
    still holds it (a later source, a later cycle), the loop skips an
    entry with the same content as a duplicate. *)
Theorem C2_identical_content_accepted_once
    (CONFIG : config) (http_get : Z -> string -> http_outcome)
    (feedparser_parse : string -> result feed_doc)
    (wall_clock : nat -> datetime) (schedule : Z -> list nat)
    (feeds : list string) (batch_size : Z)
    (s : state) (out : list Article) (s' : state) :
  fetch_feeds_batch CONFIG http_get feedparser_parse wall_clock schedule
                    feeds batch_size s = (Ok out, s') ->
  NoDup (content <$> out)
  /\ (exists evs,
        steps_to s evs s'
        /\ gated (db s) evs
        /\ NoDup (cached evs)
        /\ forall a, a ∈ out ->
             accepted_in evs (fingerprint a) /\ fingerprint a ∈ db s')
  /\ (forall a feed feed_url e es articles n s2,
        a ∈ out ->
        db s' ⊆ db s2 ->
        extract_content e = Ok (content a) ->
        n < max_articles_per_feed CONFIG ->
        entries_loop CONFIG wall_clock feed feed_url (e :: es) articles n s2
        = entries_loop CONFIG wall_clock feed feed_url es articles n
            (with_events s2
               [IsDuplicate (fingerprint a) true;
                Log DEBUG (SkippingDuplicate (log_title e))])).
Proof.
  intros E.
  destruct (fetch_feeds_batch_backed _ _ _ _ _ _ _ _ _ _ E)
    as (evs & [Hst Hg] & [Hnd Hb]).
  assert (forall a, a ∈ out -> fingerprint a ∈ db s') as Hdb.
  { intros a Ha. destruct (Hb a Ha) as [_ Hc].
    destruct Hst as (_ & -> & _). apply elem_of_union. left.
    by apply elem_of_list_to_set. }
  split; [|split].
  - apply (NoDup_fmap_1 content_hash_of).
    by rewrite <- list_fmap_compose.
  - exists evs. split; [exact Hst|]. split; [exact Hg|].
    split; [by destruct (gated_cached _ _ Hg)|].
    intros a Ha. split; [|by apply Hdb].
    destruct (Hb a Ha) as [_ Hc]. by eapply gated_cached_accepted.
  - intros a feed feed_url e es articles n s2 Ha Hsub Ee Hn.
    rewrite entries_loop_cons.
    destruct (n >=? max_articles_per_feed CONFIG) eqn:Ecap;
      [apply Z.geb_le in Ecap; lia|].
    rewrite (entry_step_duplicate _ _ _ _ _ _ _ Ee); [reflexivity| |].
    + by destruct (Hb a Ha).
    + apply Hsub. by apply Hdb.
Qed.

(** The theorem at work on the sample run: seven sources in two batches,
    the fetch of [http://a] resuming before the fetch of [http://b].  The
    text of [Examples.hello] is in both documents and is returned once;
    after the run, an entry with that text is skipped as a duplicate. *)
Lemma C2_witness :
  NoDup (content <$> Examples.articles_of Examples.run7)
  /\ (exists evs,
        steps_to Examples.s0 evs (snd Examples.run7)
        /\ gated (db Examples.s0) evs
        /\ NoDup (cached evs)
        /\ forall a, a ∈ Examples.articles_of Examples.run7 ->
             accepted_in evs (fingerprint a)
             /\ fingerprint a ∈ db (snd Examples.run7))
  /\ entries_loop Examples.cfg Examples.clock Examples.feed_hello
       "http://again" [Examples.summary_entry "h" Examples.hello] [] 0
       (snd Examples.run7)
     = (Ok [],
        with_events (snd Examples.run7)
          [IsDuplicate "9c1ffce7d5a48a4f9d6830470a4295dc" true;
           Log DEBUG (SkippingDuplicate "h")]).
Proof.
  destruct (C2_identical_content_accepted_once
              Examples.cfg Examples.net Examples.parse Examples.clock
              Examples.sched Examples.feeds7 5 Examples.s0
              (Examples.articles_of Examples.run7) (snd Examples.run7))
    as (H1 & H2 & H3).
  { vm_compute. reflexivity. }
  split; [exact H1|]. split; [exact H2|].
  apply (H3 {| title := "a1"; content := Examples.hello;
               url := "http://example.org/item";
               published := {| year := 2024; month := 2; day := 29;
                               hour := 10; minute := 30; second := 0 |};
               source := "Feed A" |}
            Examples.feed_hello "http://again"
            (Examples.summary_entry "h" Examples.hello) [] [] 0
            (snd Examples.run7)).
  - vm_compute. apply elem_of_cons. right. apply elem_of_cons. by left.
  - reflexivity.
  - reflexivity.
  - reflexivity.
Defined.

(** The state in which the [try] block of [fetch_single_feed] starts. *)
Lemma fetch_single_feed_eq (CONFIG : config)
    (feedparser_parse : string -> result feed_doc)
    (wall_clock : nat -> datetime)
    (response : http_outcome) (feed_url : string) (s : state) :
  fetch_single_feed CONFIG feedparser_parse wall_clock response feed_url s
  = fetch_resume CONFIG feedparser_parse wall_clock response feed_url
      (with_events s [Log INFO (Attempting feed_url)]).
Proof. reflexivity. Qed.

(** With the document there, [fetch_single_feed] is the entry loop. *)
Lemma fetch_single_feed_body (CONFIG : config)
    (feedparser_parse : string -> result feed_doc)
    (wall_clock : nat -> datetime)
    (text feed_url : string) (feed : feed_doc) (s : state) :
  feedparser_parse text = Ok feed ->
  fetch_single_feed CONFIG feedparser_parse wall_clock (Body text) feed_url s
  = match entries_loop CONFIG wall_clock feed feed_url (entries feed) [] 0
            (with_events s [Log INFO (Attempting feed_url)]) with
    | (Ok articles, s1) =>
        (Ok articles,
         with_events s1 [Log INFO (Fetched (length articles) feed_url)])
    | (Raise e, s1) => (Ok [], with_events s1 [error_line feed_url e])
    end.
Proof.
  intros Ep. rewrite fetch_single_feed_eq, fetch_resume_eq. simpl.
  by rewrite Ep.
Qed.

(** C3.  For every feed document and every [max_articles_per_feed >= 0],
    [fetch_single_feed] returns at most [max_articles_per_feed] articles.
    Entries after the place where the cap is reached are never evaluated:
    if the loop over a first part of the document ends with
    [max_articles_per_feed] articles, the result and the final state of
    the fetch are those of that first part alone, whatever follows it
    (not extracted, so no exception; not checked, so no effect on the
    trace or the store).  And the accepted articles are the first
    qualifying ones: they are the first [max_articles_per_feed] of the
    articles that the same loop accepts under any larger cap. *)
Theorem C3_cap_on_accepted_articles
    (CONFIG : config) (feedparser_parse : string -> result feed_doc)
    (wall_clock : nat -> datetime)
    (text feed_url : string) (feed : feed_doc) (s : state) :
  0 <= max_articles_per_feed CONFIG ->
  feedparser_parse text = Ok feed ->
  exists out s',
    fetch_single_feed CONFIG feedparser_parse wall_clock (Body text) feed_url s
    = (Ok out, s')
    /\ Z.of_nat (length out) <= max_articles_per_feed CONFIG
    /\ (forall es1 es2 out1 s1,
          entries feed = es1 ++ es2 ->
          entries_loop CONFIG wall_clock feed feed_url es1 [] 0
            (with_events s [Log INFO (Attempting feed_url)]) = (Ok out1, s1) ->
          Z.of_nat (length out1) = max_articles_per_feed CONFIG ->
          out = out1
          /\ s' = with_events s1 [Log INFO (Fetched (length out1) feed_url)])
    /\ (forall cap out2 s2,
          max_articles_per_feed CONFIG <= cap ->
          entries_loop {| max_articles_per_feed := cap;
                          min_article_length := min_article_length CONFIG |}
            wall_clock feed feed_url (entries feed) [] 0
            (with_events s [Log INFO (Attempting feed_url)]) = (Ok out2, s2) ->
          out = take (Z.to_nat (max_articles_per_feed CONFIG)) out2).
Proof.
  intros Hmax Ep.
  rewrite (fetch_single_feed_body _ _ _ _ _ _ _ Ep).
  set (sa := with_events s [Log INFO (Attempting feed_url)]).
  destruct (entries_loop_run CONFIG wall_clock feed feed_url (entries feed)
              [] 0 sa) as (r & evs & s1 & E & Hrun).
  rewrite E. destruct r as [out|x].
  - exists out, (with_events s1 [Log INFO (Fetched (length out) feed_url)]).
    split; [reflexivity|]. split; [|split].
    + pose proof (loop_run_cap _ _ _ _ _ _ _ _ _ _ Hrun Hmax). simpl in *. lia.
    + intros es1 es2 out1 s1' Hes E1 Hcap.
      pose proof (entries_loop_app_start wall_clock feed feed_url CONFIG es1 es2 sa)
        as Happ.
      rewrite <- Hes, E, E1 in Happ.
      destruct (Z.of_nat (length out1) >=? max_articles_per_feed CONFIG) eqn:Eg;
        [|rewrite Z.geb_leb in Eg; apply Z.leb_gt in Eg; lia].
      by injection Happ as -> ->.
    + intros cap out2 s2 Hcap E2.
      destruct (entries_loop_cap_mono_start wall_clock feed feed_url CONFIG
                  {| max_articles_per_feed := cap;
                     min_article_length := min_article_length CONFIG |}
                  (entries feed) sa out2 s2 eq_refl Hcap Hmax E2)
        as (s1' & E1).
      rewrite E in E1.
      by injection E1.
  - exists [], (with_events s1 [error_line feed_url x]).
    split; [reflexivity|]. split; [simpl; lia|]. split.
    + intros es1 es2 out1 s1' Hes E1 Hcap.
      pose proof (entries_loop_app_start wall_clock feed feed_url CONFIG es1 es2 sa)
        as Happ.
      rewrite <- Hes, E, E1 in Happ.
      destruct (Z.of_nat (length out1) >=? max_articles_per_feed CONFIG) eqn:Eg;
        [discriminate|].
      rewrite Z.geb_leb in Eg. apply Z.leb_gt in Eg. lia.
    + intros cap out2 s2 Hcap E2.
      destruct (entries_loop_cap_mono_start wall_clock feed feed_url CONFIG
                  {| max_articles_per_feed := cap;
                     min_article_length := min_article_length CONFIG |}
                  (entries feed) sa out2 s2 eq_refl Hcap Hmax E2)
        as (s1' & E1).
      rewrite E in E1. discriminate.
Qed.

(** The theorem at work.  Under a cap of one, the document of feed C is
    cut after its first entry: the second entry, which would raise, is
    never evaluated.  Under a cap of two, the document of five qualifying
    entries gives the first two of the five that a cap of five lets
    through. *)
Lemma C3_witness :
  (exists out s',
     fetch_single_feed Examples.cfg_cap1 Examples.parse Examples.clock
       (Body "C") "http://c" Examples.s0 = (Ok out, s')
     /\ Z.of_nat (length out) <= 1
     /\ title <$> out = ["c1"]
     /\ trace s' = [Log INFO (Attempting "http://c");
                    IsDuplicate "2e6da17d19b4bbe0df7c05ea52fc7440" false;
                    CacheArticle "2e6da17d19b4bbe0df7c05ea52fc7440";
                    Log INFO (Fetched 1 "http://c")])
  /\ (exists out s',
        fetch_single_feed Examples.cfg Examples.parse_scenario Examples.clock
          (Body "five") "http://q" Examples.s0 = (Ok out, s')
        /\ title <$> out = ["q1"; "q2"]).
Proof.
  split.
  - destruct (C3_cap_on_accepted_articles
                Examples.cfg_cap1 Examples.parse Examples.clock
                "C" "http://c" Examples.feed_c Examples.s0)
      as (out & s' & E & Hlen & Hcut & _).
    + simpl. lia.
    + reflexivity.
    + exists out, s'. split; [exact E|]. split; [exact Hlen|].
      destruct (Hcut
                  [Examples.summary_entry "c1"
                     "The first article of feed C is fine."]
                  [Examples.content_entry "c2" [];
                   Examples.summary_entry "c3"
                     "The third article of feed C is fine."]
                  (Examples.articles_of
                     (entries_loop Examples.cfg_cap1 Examples.clock
                        Examples.feed_c "http://c"
                        [Examples.summary_entry "c1"
                           "The first article of feed C is fine."] [] 0
                        (with_events Examples.s0
                           [Log INFO (Attempting "http://c")])))
                  (snd
                     (entries_loop Examples.cfg_cap1 Examples.clock
                        Examples.feed_c "http://c"
                        [Examples.summary_entry "c1"
                           "The first article of feed C is fine."] [] 0
                        (with_events Examples.s0
                           [Log INFO (Attempting "http://c")]))))
        as [-> ->].
      * reflexivity.
      * vm_compute. reflexivity.
      * vm_compute. reflexivity.
      * split; vm_compute; reflexivity.
  - destruct (C3_cap_on_accepted_articles
                Examples.cfg Examples.parse_scenario Examples.clock
                "five" "http://q" Examples.feed_five Examples.s0)
      as (out & s' & E & _ & _ & Hpre).
    + simpl. lia.
    + reflexivity.
    + exists out, s'. split; [exact E|].
      rewrite (Hpre 5
                 (Examples.articles_of
                    (entries_loop
                       {| max_articles_per_feed := 5;
                          min_article_length := 20 |}
                       Examples.clock Examples.feed_five "http://q"
                       (entries Examples.feed_five) [] 0
                       (with_events Examples.s0
                          [Log INFO (Attempting "http://q")])))
                 (snd
                    (entries_loop
                       {| max_articles_per_feed := 5;
                          min_article_length := 20 |}
                       Examples.clock Examples.feed_five "http://q"
                       (entries Examples.feed_five) [] 0
                       (with_events Examples.s0
                          [Log INFO (Attempting "http://q")])))).
      * vm_compute. reflexivity.
      * simpl. lia.
      * vm_compute. reflexivity.
Defined.

(** C6.  An entry whose tag-stripped content is shorter than
    [min_article_length] never appears in what [fetch_single_feed]
    returns: no returned article has its content.  An entry whose content
    has exactly [min_article_length] characters passes the length filter:
    when the loop comes to it with the cap not reached and its
    fingerprint not in the store, the entry is accepted there (the
    article made from it is appended and its fingerprint is written), and
    the article is in the returned sequence unless the source as a whole
    fails on a later entry and returns nothing. *)
Theorem C6_length_filter_boundary
    (CONFIG : config) (feedparser_parse : string -> result feed_doc)
    (wall_clock : nat -> datetime)
    (response : http_outcome) (feed_url : string)
    (s : state) (out : list Article) (s' : state) :
  fetch_single_feed CONFIG feedparser_parse wall_clock response feed_url s
  = (Ok out, s') ->
  (forall e c,
     extract_content e = Ok c ->
     PyStr.len c < min_article_length CONFIG ->
     forall a, a ∈ out -> content a <> c)
  /\ (forall text feed es1 e es2 c out1 s1,
        response = Body text ->
        feedparser_parse text = Ok feed ->
        entries feed = es1 ++ e :: es2 ->
        extract_content e = Ok c ->
        PyStr.len c = min_article_length CONFIG ->
        entries_loop CONFIG wall_clock feed feed_url es1 [] 0
          (with_events s [Log INFO (Attempting feed_url)]) = (Ok out1, s1) ->
        Z.of_nat (length out1) < max_articles_per_feed CONFIG ->
        content_hash_of c ∉ db s1 ->
        exists a s2,
          made_from feed feed_url e a
          /\ content a = c
          /\ entries_loop CONFIG wall_clock feed feed_url (es1 ++ [e]) [] 0
               (with_events s [Log INFO (Attempting feed_url)])
             = (Ok (out1 ++ [a]), s2)
          /\ steps_to s1 [IsDuplicate (content_hash_of c) false;
                          CacheArticle (content_hash_of c)] s2
          /\ (a ∈ out
              \/ exists x s3,
                   out = []
                   /\ entries_loop CONFIG wall_clock feed feed_url
                        (entries feed) [] 0
                        (with_events s [Log INFO (Attempting feed_url)])
                      = (Raise x, s3)
                   /\ s' = with_events s3 [error_line feed_url x])).
Proof.
  intros E. split.
  - intros e c Ec Hshort a Ha Hca.
    rewrite fetch_single_feed_eq in E.
    destruct (fetch_resume_returns CONFIG feedparser_parse wall_clock
                response feed_url
                (with_events s [Log INFO (Attempting feed_url)]))
      as (out' & evs & s1 & E' & _ & _ & [_ Hb]).
    rewrite E in E'. injection E' as <- <-.
    destruct (Hb a Ha) as [Hlen _]. rewrite Hca in Hlen. lia.
  - intros text feed es1 e es2 c out1 s1 -> Ep Hes Ec Hlen E1 Hcap Hfresh.
    set (sa := with_events s [Log INFO (Attempting feed_url)]) in *.
    destruct (entry_step_accept CONFIG wall_clock feed feed_url e s1 c Ec
                ltac:(lia) Hfresh) as (a & s2 & Estep & Hmade & Hc & Hst).
    assert ((Z.of_nat (length out1) >=? max_articles_per_feed CONFIG) = false)
      as Eg by (rewrite Z.geb_leb; apply Z.leb_gt; lia).
    exists a, s2. split; [exact Hmade|]. split; [exact Hc|].
    split; [|split; [exact Hst|]].
    + rewrite entries_loop_app_start, E1, Eg, entries_loop_cons, Eg, Estep.
      reflexivity.
    + rewrite (fetch_single_feed_body _ _ _ _ _ _ _ Ep) in E. fold sa in E.
      pose proof (entries_loop_app_start wall_clock feed feed_url CONFIG
                    es1 (e :: es2) sa) as Happ.
      rewrite <- Hes, E1, Eg, entries_loop_cons, Eg, Estep in Happ.
      destruct (entries_loop CONFIG wall_clock feed feed_url es2 (out1 ++ [a])
                  (Z.of_nat (length out1) + 1) s2) as [[out3|x] s3] eqn:E3.
      * left. rewrite Happ in E. injection E as <- <-.
        apply entries_loop_extends in E3 as [new ->].
        rewrite !elem_of_app. left. right. by apply list_elem_of_singleton.
      * right. rewrite Happ in E. injection E as <- <-.
        by exists x, s3.
Qed.

(** The theorem at work on the document of feed D under a threshold of
    twenty: the entry of nine characters is in no returned article, and
    the entry of exactly twenty characters is accepted and returned. *)
Lemma C6_witness :
  (forall a, a ∈ Examples.articles_of Examples.run_d ->
             content a <> "short one")
  /\ (exists a s2,
        made_from Examples.feed_d "http://d"
          (Examples.summary_entry "d2" "Exactly twenty chars") a
        /\ content a = "Exactly twenty chars"
        /\ entries_loop Examples.cfg Examples.clock Examples.feed_d "http://d"
             ([Examples.summary_entry "d1" "short one"]
              ++ [Examples.summary_entry "d2" "Exactly twenty chars"]) [] 0
             (with_events Examples.s0 [Log INFO (Attempting "http://d")])
           = (Ok ([] ++ [a]), s2)
        /\ a ∈ Examples.articles_of Examples.run_d).
Proof.
  destruct (C6_length_filter_boundary
              Examples.cfg Examples.parse Examples.clock (Body "D") "http://d"
              Examples.s0 (Examples.articles_of Examples.run_d)
              (snd Examples.run_d)) as [Hshort Hbound].
  { vm_compute. reflexivity. }
  split.
  - apply (Hshort (Examples.summary_entry "d1" "short one") "short one").
    + reflexivity.
    + vm_compute. reflexivity.
  - destruct (Hbound "D" Examples.feed_d
                [Examples.summary_entry "d1" "short one"]
                (Examples.summary_entry "d2" "Exactly twenty chars")
                [Examples.summary_entry "d3" " <b>Exactly twenty chars</b>"]
                "Exactly twenty chars" []
                (with_events Examples.s0
                   [Log INFO (Attempting "http://d");
                    Log DEBUG (SkippingShort "d1")]))
      as (a & s2 & Hmade & Hc & Hloop & _ & Hout).
    + reflexivity.
    + reflexivity.
    + reflexivity.
    + reflexivity.
    + reflexivity.
    + vm_compute. reflexivity.
    + vm_compute. reflexivity.
    + simpl. apply not_elem_of_empty.
    + exists a, s2. split; [exact Hmade|]. split; [exact Hc|].
      split; [exact Hloop|].
      destruct Hout as [Hin|(x & s3 & _ & Hraise & _)]; [exact Hin|].
      vm_compute in Hraise. discriminate.
Defined.

(** ** The partition into batches *)

Lemma batches_chunks (feeds : list string) (b : nat) :
  (0 < b)%nat ->
  exists m,
    batches feeds (Z.of_nat b)
    = (fun k => take b (drop (k * b) feeds)) <$> seq 0 m
    /\ (length feeds <= m * b)%nat
    /\ (m <> 0%nat -> ((m - 1) * b < length feeds)%nat).
Proof.
  intros Hb. destruct (py_range_chunks (length feeds) b Hb) as (m & Hr & Hhi & Hlo).
  exists m. split; [|by split].
  unfold batches. rewrite Hr, <- list_fmap_compose.
  apply list_fmap_ext. intros _ k _. simpl. apply py_slice_chunk.
Qed.

Lemma concat_chunks {A} (l : list A) (b m a : nat) :
  concat ((fun k => take b (drop (k * b) l)) <$> seq a m)
  = take (m * b) (drop (a * b) l).
Proof.
  revert a. induction m as [|m IH]; intros a; [reflexivity|].
  simpl seq. rewrite fmap_cons. simpl concat. rewrite IH.
  replace (S a * b)%nat with (a * b + b)%nat by lia.
  rewrite <- drop_drop, take_take_drop. f_equal.
Qed.

Lemma sleeps_app (evs1 evs2 : list event) :
  sleeps (evs1 ++ evs2) = (sleeps evs1 + sleeps evs2)%nat.
Proof.
  induction evs1 as [|ev evs1 IH]; [reflexivity|].
  destruct ev; simpl; rewrite IH; reflexivity.
Qed.

Lemma sleeps_pacing (evs : list event) : sleeps (pacing evs) = sleeps evs.
Proof.
  unfold pacing. induction evs as [|ev evs IH]; [reflexivity|].
  rewrite filter_cons. destruct ev; simpl; by rewrite IH.
Qed.

Lemma sleeps_paced (m : nat) : sleeps (paced m) = (m - 1)%nat.
Proof.
  induction m as [|[|m] IH]; [reflexivity|reflexivity|].
  change (paced (S (S m))) with ([SessionOpen; SessionClose; Sleep] ++ paced (S m)).
  rewrite sleeps_app, IH. simpl. lia.
Qed.

(** With a positive batch size the batches are contiguous slices of the
    source list in the original order: their concatenation is the list,
    each has at least one and at most [batch_size] sources, and each but
    the last has exactly [batch_size]. *)
Lemma batches_partition (feeds : list string) (batch_size : Z) :
  0 < batch_size ->
  concat (batches feeds batch_size) = feeds
  /\ Forall (fun batch => (0 < length batch)%nat
                          /\ Z.of_nat (length batch) <= batch_size)
            (batches feeds batch_size)
  /\ (forall k batch,
        batches feeds batch_size !! k = Some batch ->
        (S k < length (batches feeds batch_size))%nat ->
        Z.of_nat (length batch) = batch_size).
Proof.
  intros Hbs. rewrite <- (Z2Nat.id batch_size) by lia.
  set (b := Z.to_nat batch_size). assert (0 < b)%nat as Hb by lia.
  destruct (batches_chunks feeds b Hb) as (m & Eb & Hhi & Hlo).
  assert (length (batches feeds (Z.of_nat b)) = m) as Elen
    by by rewrite Eb, length_fmap, length_seq.
  split; [|split].
  - rewrite Eb, concat_chunks. simpl. rewrite drop_0. apply take_ge. lia.
  - rewrite Eb. apply Forall_fmap, Forall_forall. intros k Hk.
    apply elem_of_seq in Hk. simpl.
    rewrite length_take, length_drop.
    assert (k * b <= (m - 1) * b)%nat by (apply Nat.mul_le_mono_r; lia).
    specialize (Hlo ltac:(lia)). lia.
  - intros k batch Hk Hlast. rewrite Elen in Hlast. rewrite Eb in Hk.
    rewrite list_lookup_fmap in Hk.
    destruct (seq 0 m !! k) as [k'|] eqn:Ek; [|discriminate].
    apply lookup_seq in Ek as [-> _]. simpl in Hk. injection Hk as <-.
    rewrite length_take, length_drop.
    assert ((k + 1) * b <= (m - 1) * b)%nat by (apply Nat.mul_le_mono_r; lia).
    specialize (Hlo ltac:(lia)). lia.
Qed.

(** What one fetch returned is nothing, or articles made from entries of
    its document, in document order. *)
Lemma fetched_document_order (CONFIG : config)
    (http_get : Z -> string -> http_outcome)
    (feedparser_parse : string -> result feed_doc)
    (wall_clock : nat -> datetime)
    (k : Z) (feed_url : string) (l : list Article) :
  fetched CONFIG http_get feedparser_parse wall_clock k feed_url l ->
  l = []
  \/ exists text feed kept,
       http_get k feed_url = Body text
       /\ feedparser_parse text = Ok feed
       /\ sublist kept (entries feed)
       /\ Forall2 (made_from feed feed_url) kept l.
Proof.
  intros (s1 & s2 & E). rewrite fetch_resume_eq in E.
  destruct (http_get k feed_url) as [| | | |text] eqn:Eh; simpl in E;
    try (left; congruence).
  destruct (feedparser_parse text) as [feed|x] eqn:Ep; [|left; congruence].
  destruct (entries_loop_run CONFIG wall_clock feed feed_url (entries feed)
              [] 0 s1) as (r & evs & s3 & E3 & Hrun).
  rewrite E3 in E. destruct r as [out|x]; [|left; congruence].
  injection E as -> <-.
  destruct (loop_run_returns _ _ _ _ _ _ _ _ _ _ Hrun)
    as (new & kept & -> & _ & _ & Hsub & Hmade).
  right. by exists text, feed, kept.
Qed.

(** C7.  With a positive batch size and under every valid schedule,
    [fetch_feeds_batch] returns the concatenation, in the order of the
    feed list (batch after batch, and inside a batch source after
    source), of what the fetch of each source returned, whatever the order
    in which the fetches of a batch ran.  What a fetch returned is made
    from entries of its document in document order, the skipped entries
    left out. *)
Theorem C7_output_in_source_then_document_order
    (CONFIG : config) (http_get : Z -> string -> http_outcome)
    (feedparser_parse : string -> result feed_doc)
    (wall_clock : nat -> datetime) (schedule : Z -> list nat)
    (feeds : list string) (batch_size : Z) (s : state) :
  0 < batch_size ->
  valid_schedule schedule feeds batch_size ->
  exists out s' per,
    fetch_feeds_batch CONFIG http_get feedparser_parse wall_clock schedule
                      feeds batch_size s = (Ok out, s')
    /\ out = concat per
    /\ sources_fetched CONFIG http_get feedparser_parse wall_clock 0 feeds per
    /\ concat (batches feeds batch_size) = feeds
    /\ forall k feed_url l,
         fetched CONFIG http_get feedparser_parse wall_clock k feed_url l ->
         l = []
         \/ exists text feed kept,
              http_get k feed_url = Body text
              /\ feedparser_parse text = Ok feed
              /\ sublist kept (entries feed)
              /\ Forall2 (made_from feed feed_url) kept l.
Proof.
  intros Hbs Hsched.
  destruct (batches_partition feeds batch_size Hbs) as (Hpart & _).
  destruct (fetch_feeds_batch_chunks CONFIG http_get feedparser_parse
              wall_clock schedule feeds batch_size s Hbs)
    as (b & m & -> & Hr & -> & Hhi & _).
  destruct (batches_loop_sources CONFIG http_get feedparser_parse wall_clock
              schedule feeds b m 0 [] s) as (per & s' & E & Hper).
  - simpl. lia.
  - intros i Hi. by eapply Hsched.
  - exists (concat per), s', per. split; [exact E|]. split; [reflexivity|].
    split; [exact Hper|]. split; [exact Hpart|].
    apply fetched_document_order.
Qed.

Lemma C7_witness :
  exists out s' per,
    fetch_feeds_batch Examples.cfg Examples.net Examples.parse Examples.clock
                      Examples.sched Examples.feeds7 5 Examples.s0 = (Ok out, s')
    /\ out = concat per
    /\ sources_fetched Examples.cfg Examples.net Examples.parse Examples.clock
                       0 Examples.feeds7 per
    /\ concat (batches Examples.feeds7 5) = Examples.feeds7
    /\ forall k feed_url l,
         fetched Examples.cfg Examples.net Examples.parse Examples.clock
                 k feed_url l ->
         l = []
         \/ exists text feed kept,
              Examples.net k feed_url = Body text
              /\ Examples.parse text = Ok feed
              /\ sublist kept (entries feed)
              /\ Forall2 (made_from feed feed_url) kept l.
Proof.
  apply (C7_output_in_source_then_document_order
           Examples.cfg Examples.net Examples.parse Examples.clock
           Examples.sched Examples.feeds7 5 Examples.s0).
  - lia.
  - intros starts i Hr Hi. vm_compute in Hr. injection Hr as <-.
    apply elem_of_cons in Hi as [->|Hi].
    + vm_compute. apply (Permutation_trans (l' := [0; 3; 4; 1; 2]%nat)).
      * apply perm_swap.
      * apply perm_skip.
        apply (Permutation_trans (l' := [1; 3; 4; 2]%nat)).
        -- apply (Permutation_trans (l' := [3; 1; 4; 2]%nat)).
           ++ apply perm_skip. apply perm_swap.
           ++ apply perm_swap.
        -- apply perm_skip.
           apply (Permutation_trans (l' := [3; 2; 4]%nat)).
           ++ apply perm_skip. apply perm_swap.
           ++ apply (Permutation_trans (l' := [2; 3; 4]%nat)).
              ** apply perm_swap.
              ** apply Permutation_refl.
    + apply elem_of_cons in Hi as [->|Hi].
      * vm_compute. apply perm_swap.
      * by apply elem_of_nil in Hi.
Defined.

(** C8.  With a positive batch size the batches of [fetch_feeds_batch]
    are a partition of the source list into contiguous slices in the
    original order: their concatenation is the list, each has at least
    one and at most [batch_size] sources, and each but the last has
    exactly [batch_size].  The run opens one session per batch and sleeps
    exactly between two sessions, never after the last one ([paced]); the
    number of sleeps is the number of batches less one.  For seven sources
    and a batch size of five there are two batches, of five and of two,
    and one sleep between their sessions. *)
Theorem C8_contiguous_batches_paced_between
    (CONFIG : config) (http_get : Z -> string -> http_outcome)
    (feedparser_parse : string -> result feed_doc)
    (wall_clock : nat -> datetime) (schedule : Z -> list nat)
    (feeds : list string) (batch_size : Z) (s : state) :
  0 < batch_size ->
  concat (batches feeds batch_size) = feeds
  /\ Forall (fun batch => (0 < length batch)%nat
                          /\ Z.of_nat (length batch) <= batch_size)
            (batches feeds batch_size)
  /\ (forall k batch,
        batches feeds batch_size !! k = Some batch ->
        (S k < length (batches feeds batch_size))%nat ->
        Z.of_nat (length batch) = batch_size)
  /\ exists out evs s',
       fetch_feeds_batch CONFIG http_get feedparser_parse wall_clock schedule
                         feeds batch_size s = (Ok out, s')
       /\ trace s' = trace s ++ evs
       /\ pacing evs = paced (length (batches feeds batch_size))
       /\ sleeps evs = (length (batches feeds batch_size) - 1)%nat
       /\ (length feeds = 7%nat -> batch_size = 5 ->
           batches feeds batch_size = [take 5 feeds; drop 5 feeds]
           /\ pacing evs = [SessionOpen; SessionClose; Sleep;
                            SessionOpen; SessionClose]).
Proof.
  intros Hbs.
  destruct (fetch_feeds_batch_chunks CONFIG http_get feedparser_parse
              wall_clock schedule feeds batch_size s Hbs)
    as (b & m & -> & Hr & Erun & Hhi & Hlo).
  assert (0 < b)%nat as Hb by lia.
  assert (batches feeds (Z.of_nat b)
          = (fun k => take b (drop (k * b) feeds)) <$> seq 0 m) as Eb.
  { unfold batches. rewrite Hr, <- list_fmap_compose.
    apply list_fmap_ext. intros _ k _. simpl. apply py_slice_chunk. }
  assert (length (batches feeds (Z.of_nat b)) = m) as Elen
    by by rewrite Eb, length_fmap, length_seq.
  destruct (batches_partition feeds (Z.of_nat b) Hbs) as (P1 & P2 & P3).
  split; [exact P1|]. split; [exact P2|]. split; [exact P3|].
  rewrite Erun.
  destruct (batches_loop_backed CONFIG http_get feedparser_parse wall_clock
              schedule feeds (Z.of_nat b)
              ((fun k => Z.of_nat k * Z.of_nat b) <$> seq 0 m) [] s s []
              (runs_on_refl s) (backed_nil CONFIG []))
    as (out & evs & s' & E & [(Ht & _) _] & _).
  simpl in Ht.
  pose proof (batches_loop_paced CONFIG http_get feedparser_parse wall_clock
                schedule feeds b m 0 [] s (Ok out) s' ltac:(simpl; lia)
                ltac:(simpl; intros; specialize (Hlo ltac:(lia));
                      by replace (m - 0)%nat with m by lia) E) as Hp.
  rewrite Ht, pacing_app in Hp. apply app_inv_head in Hp.
  exists out, evs, s'. split; [exact E|]. split; [exact Ht|].
  rewrite Elen. split; [exact Hp|]. split.
  - by rewrite <- sleeps_pacing, Hp, sleeps_paced.
  - intros H7 H5. assert (b = 5%nat) as -> by lia.
    assert (m = 2%nat) as -> by lia.
    split; [|exact Hp].
    rewrite Eb. simpl. rewrite drop_0. f_equal. f_equal.
    apply take_ge. rewrite length_drop. lia.
Qed.

Lemma C8_witness :
  concat (batches Examples.feeds7 5) = Examples.feeds7
  /\ Forall (fun batch => (0 < length batch)%nat
                          /\ Z.of_nat (length batch) <= 5)
            (batches Examples.feeds7 5)
  /\ (forall k batch,
        batches Examples.feeds7 5 !! k = Some batch ->
        (S k < length (batches Examples.feeds7 5))%nat ->
        Z.of_nat (length batch) = 5)
  /\ exists out evs s',
       fetch_feeds_batch Examples.cfg Examples.net Examples.parse
         Examples.clock Examples.sched Examples.feeds7 5 Examples.s0
       = (Ok out, s')
       /\ trace s' = trace Examples.s0 ++ evs
       /\ pacing evs = paced (length (batches Examples.feeds7 5))
       /\ sleeps evs = (length (batches Examples.feeds7 5) - 1)%nat
       /\ (length Examples.feeds7 = 7%nat -> 5 = 5 ->
           batches Examples.feeds7 5
           = [take 5 Examples.feeds7; drop 5 Examples.feeds7]
           /\ pacing evs = [SessionOpen; SessionClose; Sleep;
                            SessionOpen; SessionClose]).
Proof.
  apply (C8_contiguous_batches_paced_between
           Examples.cfg Examples.net Examples.parse Examples.clock
           Examples.sched Examples.feeds7 5 Examples.s0).
  lia.
Defined.

(** C9.  [parse_date] returns a value for every entry and in every state;
    it never raises and leaves the store and the trace alone.  When the
    entry has a published-time tuple that is not empty and whose first six
    fields make a date ([datetime_new] accepts them), the value is that
    date and the clock is not read.  In every other case (no such
    attribute, [None], an empty tuple, fewer than three fields, a field
    out of range) the value is the reading of the wall clock at that
    moment. *)
Theorem C9_parse_date_never_raises
    (wall_clock : nat -> datetime) (e : entry) (s : state) :
  exists d s',
    parse_date wall_clock e s = (Ok d, s')
    /\ db s' = db s
    /\ trace s' = trace s
    /\ match e_published_parsed e with
       | Some (Some (t0 :: t)) =>
           match datetime_new (firstn 6 (t0 :: t)) with
           | Ok d0 => d = d0 /\ s' = s
           | Raise _ => d = wall_clock (ticks s)
           end
       | _ => d = wall_clock (ticks s)
       end.
Proof.
  unfold parse_date, parse_date_try.
  destruct (e_published_parsed e) as [[[|t0 t]|]|];
    try (eexists _, _; repeat split; reflexivity).
  destruct (datetime_new (firstn 6 (t0 :: t))) as [d0|x];
    eexists _, _; repeat split; reflexivity.
Qed.



(** ** Content extraction, field by field *)

(** The first of [content], [summary], [description] that the entry has
    decides: the value of the first element of a non-empty content list,
    or the summary, or the description, each with the tags and the
    surrounding whitespace removed; the empty text when the entry has
    none of the three; and a [TypeError] when the content list is there
    and empty, as the list itself is then handed to [re.sub]. *)
Lemma extract_content_first_present (e : entry) :
  extract_content e =
  match e_content e with
  | Some (x :: _) => Ok (PyStr.strip (PyStr.re_sub_tags (value x)))
  | Some [] => Raise TypeError
  | None =>
      match e_summary e with
      | Some t => Ok (PyStr.strip (PyStr.re_sub_tags t))
      | None =>
          match e_description e with
          | Some t => Ok (PyStr.strip (PyStr.re_sub_tags t))
          | None => Ok ""
          end
      end
  end.
Proof.
  unfold extract_content. simpl. unfold getattr. simpl.
  destruct (e_content e) as [[|x l]|]; simpl; try reflexivity.
  destruct (e_summary e) as [t|]; simpl; [reflexivity|].
  destruct (e_description e) as [t|]; reflexivity.
Qed.

(** What [extract_content] returns holds no tag and neither starts nor
    ends with whitespace. *)
Lemma extract_content_clean (e : entry) (c : string) :
  extract_content e = Ok c ->
  PyStr.has_tag c = false
  /\ PyStr.head_space c = false
  /\ PyStr.last_space c = false.
Proof.
  rewrite extract_content_first_present.
  assert (forall t, PyStr.has_tag (PyStr.strip (PyStr.re_sub_tags t)) = false
                    /\ PyStr.head_space (PyStr.strip (PyStr.re_sub_tags t)) = false
                    /\ PyStr.last_space (PyStr.strip (PyStr.re_sub_tags t)) = false)
    as Hclean.
  { intros t. split; [apply strip_no_tag, re_sub_tags_no_tag|apply strip_edges]. }
  destruct (e_content e) as [[|x l]|].
  - discriminate.
  - intros [= <-]. apply Hclean.
  - destruct (e_summary e) as [t|]; [intros [= <-]; apply Hclean|].
    destruct (e_description e) as [t|]; [intros [= <-]; apply Hclean|].
    intros [= <-]. by repeat split.
Qed.

Lemma extract_content_empty_list (e : entry) :
  e_content e = Some [] -> extract_content e = Raise TypeError.
Proof. intros E. by rewrite extract_content_first_present, E. Qed.

(** C5.  On an entry whose content list is present and empty,
    [extract_content] does not return the cleaned text of a field, and not
    the empty text either: it raises a [TypeError], although the entry
    has a summary. *)
Theorem C5_empty_content_list_raises :
  extract_content
    {| e_content := Some [];
       e_summary := Some "A summary that is not looked at.";
       e_description := None;
       e_title := Some "c2";
       e_link := None;
       e_published_parsed := None |}
  = Raise TypeError.
Proof. reflexivity. Qed.

(** C10, as stated, fails: a source whose document holds an entry with an
    empty content list still contributes an article when the cap is
    reached before the loop comes to that entry. *)
Lemma C10_counterexample :
  ~ (forall (CONFIG : config) (feedparser_parse : string -> result feed_doc)
            (wall_clock : nat -> datetime) (text feed_url : string)
            (feed : feed_doc) (e : entry) (s : state),
       feedparser_parse text = Ok feed ->
       e ∈ entries feed ->
       e_content e = Some [] ->
       exists s',
         fetch_single_feed CONFIG feedparser_parse wall_clock (Body text)
                           feed_url s = (Ok [], s')).
Proof.
  intros H.
  destruct (H Examples.cfg_cap1 Examples.parse Examples.clock "C" "http://c"
              Examples.feed_c (Examples.content_entry "c2" []) Examples.s0
              eq_refl) as [s' E].
  - apply elem_of_cons. right. apply elem_of_cons. by left.
  - reflexivity.
  - vm_compute in E. discriminate.
Qed.

(** C10, amended.  On an entry whose content list is present and empty,
    [extract_content] raises a [TypeError].  When the loop comes to such
    an entry (the entries before it were processed without an exception
    and fewer than [max_articles_per_feed] of them were accepted), the
    general handler turns the [TypeError] into the empty result for the
    whole source, whatever was accepted before and whatever follows in
    the document, and logs it as a general error. *)
Theorem C10_empty_content_list_empties_source
    (CONFIG : config) (feedparser_parse : string -> result feed_doc)
    (wall_clock : nat -> datetime)
    (text feed_url : string) (feed : feed_doc)
    (es1 : list entry) (e : entry) (es2 : list entry)
    (s : state) (out1 : list Article) (s1 : state) :
  feedparser_parse text = Ok feed ->
  entries feed = es1 ++ e :: es2 ->
  e_content e = Some [] ->
  entries_loop CONFIG wall_clock feed feed_url es1 [] 0
    (with_events s [Log INFO (Attempting feed_url)]) = (Ok out1, s1) ->
  Z.of_nat (length out1) < max_articles_per_feed CONFIG ->
  extract_content e = Raise TypeError
  /\ fetch_single_feed CONFIG feedparser_parse wall_clock (Body text) feed_url s
     = (Ok [], with_events s1 [Log ERROR (GeneralError feed_url TypeError)]).
Proof.
  intros Ep Hes Ec E1 Hcap.
  pose proof (extract_content_empty_list e Ec) as Ex.
  split; [exact Ex|].
  rewrite (fetch_single_feed_body _ _ _ _ _ _ _ Ep), Hes.
  rewrite entries_loop_app_start, E1.
  assert ((Z.of_nat (length out1) >=? max_articles_per_feed CONFIG) = false)
    as Eg by (rewrite Z.geb_leb; apply Z.leb_gt; lia).
  rewrite Eg, entries_loop_cons, Eg.
  by rewrite (entry_step_raise _ _ _ _ _ _ _ Ex).
Qed.

Lemma C10_witness :
  extract_content (Examples.content_entry "c2" []) = Raise TypeError
  /\ fetch_single_feed Examples.cfg Examples.parse Examples.clock
       (Body "C") "http://c" Examples.s0
     = (Ok [],
        with_events
          (snd (entries_loop Examples.cfg Examples.clock Examples.feed_c
                  "http://c"
                  [Examples.summary_entry "c1"
                     "The first article of feed C is fine."] [] 0
                  (with_events Examples.s0 [Log INFO (Attempting "http://c")])))
          [Log ERROR (GeneralError "http://c" TypeError)]).
Proof.
  apply (C10_empty_content_list_empties_source
           Examples.cfg Examples.parse Examples.clock "C" "http://c"
           Examples.feed_c
           [Examples.summary_entry "c1" "The first article of feed C is fine."]
           (Examples.content_entry "c2" [])
           [Examples.summary_entry "c3" "The third article of feed C is fine."]
           Examples.s0
           (Examples.articles_of
              (entries_loop Examples.cfg Examples.clock Examples.feed_c
                 "http://c"
                 [Examples.summary_entry "c1"
                    "The first article of feed C is fine."] [] 0
                 (with_events Examples.s0 [Log INFO (Attempting "http://c")])))).
  - reflexivity.
  - reflexivity.
  - reflexivity.
  - vm_compute. reflexivity.
  - vm_compute. reflexivity.
Defined.

(** * The scenarios of the specification, run on the model *)

(** Three entries of 50, 300 and 300 characters under a threshold of 100:
    two articles, the first entry skipped. *)
Example scenario_lengths :
  (title <$> Examples.articles_of
     (fetch_single_feed Examples.cfg_min100 Examples.parse_scenario
        Examples.clock (Body "lengths") "http://l" Examples.s0))
  = ["l2"; "l3"].
Proof. vm_compute. reflexivity. Qed.

(** Two sources with one entry each, of identical content: one article in
    all, whichever of the two fetches runs first. *)
Example scenario_identical_content :
  length (Examples.articles_of
            (fetch_feeds_batch Examples.cfg Examples.net_scenario
               Examples.parse_scenario Examples.clock (fun _ => [0; 1]%nat)
               ["hello 1"; "hello 2"] 5 Examples.s0)) = 1%nat
  /\ length (Examples.articles_of
               (fetch_feeds_batch Examples.cfg Examples.net_scenario
                  Examples.parse_scenario Examples.clock (fun _ => [1; 0]%nat)
                  ["hello 1"; "hello 2"] 5 Examples.s0)) = 1%nat.
Proof. split; vm_compute; reflexivity. Qed.

(** A cap of two and five qualifying entries: the first two, in document
    order. *)
Example scenario_cap :
  (title <$> Examples.articles_of
     (fetch_single_feed Examples.cfg Examples.parse_scenario
        Examples.clock (Body "five") "http://q" Examples.s0))
  = ["q1"; "q2"].
Proof. vm_compute. reflexivity. Qed.

(** Tags go, text stays; a lone ["<"] and an empty pair are no tags. *)
Example scenario_tags :
  PyStr.strip (PyStr.re_sub_tags "  <p>Hello <b>world</b></p> a <> b < c ")
  = "Hello world a <> b < c".
Proof. reflexivity. Qed.

(** * Further properties of the code *)

(** ** Cleaning of content *)

(** Text without a tag is left as it is. *)
Lemma re_sub_tags_fixed (s : string) :
  PyStr.has_tag s = false -> PyStr.re_sub_tags s = s.
Proof.
  induction s as [|c r IH]; [reflexivity|].
  change (PyStr.has_tag (String c r))
    with (PyStr.tag_at (String c r) || PyStr.has_tag r).
  intros H. apply orb_false_iff in H as [Ht Hr].
  by rewrite re_sub_tags_cons, Ht, (IH Hr).
Qed.

Lemma lstrip_fixed (s : string) :
  PyStr.head_space s = false -> PyStr.lstrip s = s.
Proof. destruct s as [|c r]; [reflexivity|]. simpl. by intros ->. Qed.

Lemma rstrip_fixed (s : string) :
  PyStr.last_space s = false -> PyStr.rstrip s = s.
Proof.
  induction s as [|c r IH]; [reflexivity|].
  destruct r as [|d t].
  - simpl. by intros ->.
  - change (PyStr.last_space (String c (String d t)))
      with (PyStr.last_space (String d t)).
    intros H. change (PyStr.rstrip (String c (String d t)))
      with (match PyStr.rstrip (String d t) with
            | EmptyString =>
                if PyStr.isspace c then EmptyString else String c EmptyString
            | r' => String c r'
            end).
    by rewrite (IH H).
Qed.

Lemma strip_fixed (s : string) :
  PyStr.head_space s = false -> PyStr.last_space s = false ->
  PyStr.strip s = s.
Proof.
  intros Hh Hl. unfold PyStr.strip. by rewrite (lstrip_fixed s Hh), rstrip_fixed.
Qed.

(** The substitution and the stripping only take characters away. *)
Lemma re_sub_tags_length_upto (n : nat) (s : string) :
  (String.length s <= n)%nat ->
  (String.length (PyStr.re_sub_tags s) <= String.length s)%nat.
Proof.
  revert s. induction n as [|n IH]; intros s Hn.
  - destruct s; [simpl; lia|simpl in Hn; lia].
  - destruct s as [|c r]; [simpl; lia|]. simpl in Hn.
    rewrite re_sub_tags_cons.
    assert (String.length (String c (PyStr.re_sub_tags r))
            <= String.length (String c r))%nat as Hkeep.
    { simpl. specialize (IH r ltac:(lia)). lia. }
    destruct (PyStr.tag_at (String c r)); [|exact Hkeep].
    destruct (PyStr.after_close r) as [t|] eqn:Ea; [|exact Hkeep].
    apply after_close_length in Ea.
    specialize (IH t ltac:(lia)). simpl. lia.
Qed.

Lemma lstrip_length (s : string) :
  (String.length (PyStr.lstrip s) <= String.length s)%nat.
Proof.
  induction s as [|c r IH]; [reflexivity|].
  simpl. destruct (PyStr.isspace c); simpl; lia.
Qed.

Lemma rstrip_length (s : string) :
  (String.length (PyStr.rstrip s) <= String.length s)%nat.
Proof.
  induction s as [|c r IH]; [reflexivity|].
  simpl. destruct (PyStr.rstrip r) as [|d t].
  - destruct (PyStr.isspace c); simpl; lia.
  - simpl in *. lia.
Qed.

Lemma clean_length (t : string) :
  PyStr.len (PyStr.strip (PyStr.re_sub_tags t)) <= PyStr.len t.
Proof.
  unfold PyStr.len, PyStr.strip.
  pose proof (rstrip_length (PyStr.lstrip (PyStr.re_sub_tags t))).
  pose proof (lstrip_length (PyStr.re_sub_tags t)).
  pose proof (re_sub_tags_length_upto _ t (Nat.le_refl _)).
  lia.
Qed.

(** X1.  Whatever [extract_content] returns holds no match of the tag
    pattern and neither starts nor ends with a whitespace character,
    whichever of the three fields it was taken from. *)
Theorem X1_extracted_content_is_clean (e : entry) (c : string) :
  extract_content e = Ok c ->
  PyStr.has_tag c = false
  /\ PyStr.head_space c = false
  /\ PyStr.last_space c = false.
Proof.
  rewrite extract_content_first_present.
  assert (forall t, PyStr.has_tag (PyStr.strip (PyStr.re_sub_tags t)) = false
                    /\ PyStr.head_space (PyStr.strip (PyStr.re_sub_tags t)) = false
                    /\ PyStr.last_space (PyStr.strip (PyStr.re_sub_tags t)) = false)
    as Hclean.
  { intros t. split; [apply strip_no_tag, re_sub_tags_no_tag|apply strip_edges]. }
  destruct (e_content e) as [[|x l]|].
  - discriminate.
  - intros [= <-]. apply Hclean.
  - destruct (e_summary e) as [t|]; [intros [= <-]; apply Hclean|].
    destruct (e_description e) as [t|]; [intros [= <-]; apply Hclean|].
    intros [= <-]. by repeat split.
Qed.

Lemma X1_witness :
  PyStr.has_tag Examples.hello = false
  /\ PyStr.head_space Examples.hello = false
  /\ PyStr.last_space Examples.hello = false.
Proof.
  apply (X1_extracted_content_is_clean
           (Examples.summary_entry "a1" ("<p>" ++ Examples.hello ++ "</p> "))).
  reflexivity.
Defined.

(** X2.  Extraction is idempotent: an entry that carries, as its summary
    or as the value of its first content element, a text that
    [extract_content] has returned gives that same text again, and so the
    same fingerprint. *)
Theorem X2_extraction_idempotent (e e' : entry) (c : string) :
  extract_content e = Ok c ->
  (e_content e' = None /\ e_summary e' = Some c)
  \/ (exists l, e_content e' = Some ({| value := c |} :: l)) ->
  extract_content e' = Ok c
  /\ content_hash_of (PyStr.strip (PyStr.re_sub_tags c)) = content_hash_of c.
Proof.
  intros E He'.
  assert (PyStr.strip (PyStr.re_sub_tags c) = c) as Hfix.
  { rewrite extract_content_first_present in E.
    assert (forall t, PyStr.strip (PyStr.re_sub_tags
                        (PyStr.strip (PyStr.re_sub_tags t)))
                      = PyStr.strip (PyStr.re_sub_tags t)) as Hidem.
    { intros t. destruct (strip_edges (PyStr.re_sub_tags t)) as [Hh Hl].
      rewrite re_sub_tags_fixed by apply strip_no_tag, re_sub_tags_no_tag.
      by apply strip_fixed. }
    destruct (e_content e) as [[|x l]|]; [discriminate| |].
    - injection E as <-. apply Hidem.
    - destruct (e_summary e) as [t|]; [injection E as <-; apply Hidem|].
      destruct (e_description e) as [t|]; [injection E as <-; apply Hidem|].
      by injection E as <-. }
  split; [|by rewrite Hfix].
  rewrite extract_content_first_present.
  destruct He' as [[-> ->]|[l ->]]; simpl; by rewrite Hfix.
Qed.

Lemma X2_witness :
  extract_content (Examples.content_entry "again" [Examples.hello])
  = Ok Examples.hello
  /\ content_hash_of (PyStr.strip (PyStr.re_sub_tags Examples.hello))
     = content_hash_of Examples.hello.
Proof.
  apply (X2_extraction_idempotent
           (Examples.summary_entry "a1" ("<p>" ++ Examples.hello ++ "</p> "))).
  - reflexivity.
  - right. by exists [].
Defined.

(** X3.  Extraction never lengthens: the text returned is at most as long
    as the raw text of the field it was taken from, and it is the empty
    text when the entry has none of the three fields.  A field that is
    shorter than [min_article_length] as it stands can therefore never
    pass the length filter. *)
Theorem X3_extraction_never_lengthens (e : entry) (c : string) :
  extract_content e = Ok c ->
  match e_content e, e_summary e, e_description e with
  | Some (x :: _), _, _ => PyStr.len c <= PyStr.len (value x)
  | Some [], _, _ => False
  | None, Some t, _ => PyStr.len c <= PyStr.len t
  | None, None, Some t => PyStr.len c <= PyStr.len t
  | None, None, None => c = ""
  end.
Proof.
  rewrite extract_content_first_present.
  destruct (e_content e) as [[|x l]|]; [discriminate| |].
  - intros [= <-]. apply clean_length.
  - destruct (e_summary e) as [t|]; [intros [= <-]; apply clean_length|].
    destruct (e_description e) as [t|]; [intros [= <-]; apply clean_length|].
    by intros [= <-].
Qed.

Lemma X3_witness :
  PyStr.len Examples.hello <= PyStr.len ("<p>" ++ Examples.hello ++ "</p> ").
Proof.
  apply (X3_extraction_never_lengthens
           (Examples.summary_entry "a1" ("<p>" ++ Examples.hello ++ "</p> "))).
  reflexivity.
Defined.

(** ** A source that fails half way *)

(** No article that a fetch returns has a fingerprint that the store held
    when the fetch started. *)
Lemma fetch_single_feed_fresh (CONFIG : config)
    (feedparser_parse : string -> result feed_doc)
    (wall_clock : nat -> datetime)
    (response : http_outcome) (feed_url : string)
    (s : state) (out : list Article) (s' : state) :
  fetch_single_feed CONFIG feedparser_parse wall_clock response feed_url s
  = (Ok out, s') ->
  forall a, a ∈ out -> fingerprint a ∉ db s.
Proof.
  rewrite fetch_single_feed_eq. intros E a Ha.
  destruct (fetch_resume_returns CONFIG feedparser_parse wall_clock
              response feed_url
              (with_events s [Log INFO (Attempting feed_url)]))
    as (out' & evs & s1 & E' & _ & Hg & [_ Hb]).
  rewrite E in E'. injection E' as <- <-.
  destruct (Hb a Ha) as [_ Hc].
  destruct (gated_cached _ _ Hg) as [_ Hfresh].
  exact (Hfresh _ Hc).
Qed.

(** What a loop that returns has accepted is in the store. *)
Lemma entries_loop_recorded (CONFIG : config) (wall_clock : nat -> datetime)
    (feed : feed_doc) (feed_url : string) (es : list entry) (s : state)
    (out : list Article) (s' : state) :
  entries_loop CONFIG wall_clock feed feed_url es [] 0 s = (Ok out, s') ->
  forall a, a ∈ out -> fingerprint a ∈ db s'.
Proof.
  intros E a Ha.
  destruct (entries_loop_run CONFIG wall_clock feed feed_url es [] 0 s)
    as (r & evs & s1 & E1 & Hrun).
  rewrite E in E1. injection E1 as <- <-.
  destruct (loop_run_steps _ _ _ _ _ _ _ _ _ _ Hrun) as (_ & -> & _).
  destruct (loop_run_returns _ _ _ _ _ _ _ _ _ _ Hrun)
    as (new & _ & -> & Hfp & _).
  rewrite app_nil_l in Ha. apply elem_of_union. left.
  apply elem_of_list_to_set. rewrite <- Hfp. by apply list_elem_of_fmap_2.
Qed.

(** A loop never takes a fingerprint out of the store. *)
Lemma entries_loop_db_mono (CONFIG : config) (wall_clock : nat -> datetime)
    (feed : feed_doc) (feed_url : string) (es : list entry)
    (articles : list Article) (n : Z) (s : state)
    (r : result (list Article)) (s' : state) :
  entries_loop CONFIG wall_clock feed feed_url es articles n s = (r, s') ->
  db s ⊆ db s'.
Proof.
  intros E.
  destruct (entries_loop_run CONFIG wall_clock feed feed_url es articles n s)
    as (r1 & evs & s1 & E1 & Hrun).
  rewrite E in E1. injection E1 as <- <-.
  eapply steps_to_db_mono. by eapply loop_run_steps.
Qed.

(** X4.  When processing raises on some entry of a document, the fetch
    returns nothing, but the fingerprints of the articles accepted from
    the entries before it stay in the store.  These articles are lost:
    they are not returned by this fetch, and no later fetch that starts
    from a store still holding the fingerprints returns an article with
    the content of one of them. *)
Theorem X4_failed_source_loses_accepted_articles
    (CONFIG : config) (feedparser_parse : string -> result feed_doc)
    (wall_clock : nat -> datetime)
    (text feed_url : string) (feed : feed_doc)
    (es1 es2 : list entry) (s : state)
    (out1 : list Article) (s1 : state) (x : exn) (s2 : state) :
  feedparser_parse text = Ok feed ->
  entries feed = es1 ++ es2 ->
  entries_loop CONFIG wall_clock feed feed_url es1 [] 0
    (with_events s [Log INFO (Attempting feed_url)]) = (Ok out1, s1) ->
  entries_loop CONFIG wall_clock feed feed_url (entries feed) [] 0
    (with_events s [Log INFO (Attempting feed_url)]) = (Raise x, s2) ->
  fetch_single_feed CONFIG feedparser_parse wall_clock (Body text) feed_url s
  = (Ok [], with_events s2 [error_line feed_url x])
  /\ forall a, a ∈ out1 ->
       fingerprint a ∈ db (with_events s2 [error_line feed_url x])
       /\ forall response' feed_url' s3 out3 s3' a3,
            db (with_events s2 [error_line feed_url x]) ⊆ db s3 ->
            fetch_single_feed CONFIG feedparser_parse wall_clock
              response' feed_url' s3 = (Ok out3, s3') ->
            a3 ∈ out3 ->
            content a3 <> content a.
Proof.
  intros Ep Hes E1 E2. split.
  - by rewrite (fetch_single_feed_body _ _ _ _ _ _ _ Ep), E2.
  - intros a Ha.
    assert (fingerprint a ∈ db s2) as Hin.
    { pose proof (entries_loop_recorded _ _ _ _ _ _ _ _ E1 a Ha) as H1.
      rewrite Hes, entries_loop_app_start, E1 in E2.
      destruct (Z.of_nat (length out1) >=? max_articles_per_feed CONFIG);
        [discriminate|].
      apply entries_loop_db_mono in E2. by apply E2. }
    split; [exact Hin|].
    intros response' feed_url' s3 out3 s3' a3 Hsub E3 Ha3 Hc.
    apply (fetch_single_feed_fresh _ _ _ _ _ _ _ _ E3 a3 Ha3).
    apply Hsub. simpl. unfold fingerprint in *. by rewrite Hc.
Qed.

(** The theorem at work on the document of feed C: its first article is
    accepted, the second entry raises, and a second fetch of the same
    source gets nothing either. *)
Lemma X4_witness :
  fetch_single_feed Examples.cfg Examples.parse Examples.clock
    (Body "C") "http://c" Examples.s0
  = (Ok [],
     with_events
       (snd (entries_loop Examples.cfg Examples.clock Examples.feed_c
               "http://c" (entries Examples.feed_c) [] 0
               (with_events Examples.s0 [Log INFO (Attempting "http://c")])))
       [error_line "http://c" TypeError])
  /\ "2e6da17d19b4bbe0df7c05ea52fc7440"
     ∈ db (snd (fetch_single_feed Examples.cfg Examples.parse Examples.clock
                  (Body "C") "http://c" Examples.s0)).
Proof.
  destruct (X4_failed_source_loses_accepted_articles
              Examples.cfg Examples.parse Examples.clock "C" "http://c"
              Examples.feed_c
              [Examples.summary_entry "c1" "The first article of feed C is fine."]
              [Examples.content_entry "c2" [];
               Examples.summary_entry "c3" "The third article of feed C is fine."]
              Examples.s0
              (Examples.articles_of
                 (entries_loop Examples.cfg Examples.clock Examples.feed_c
                    "http://c"
                    [Examples.summary_entry "c1"
                       "The first article of feed C is fine."] [] 0
                    (with_events Examples.s0
                       [Log INFO (Attempting "http://c")])))
              (snd
                 (entries_loop Examples.cfg Examples.clock Examples.feed_c
                    "http://c"
                    [Examples.summary_entry "c1"
                       "The first article of feed C is fine."] [] 0
                    (with_events Examples.s0
                       [Log INFO (Attempting "http://c")])))
              TypeError
              (snd (entries_loop Examples.cfg Examples.clock Examples.feed_c
                      "http://c" (entries Examples.feed_c) [] 0
                      (with_events Examples.s0
                         [Log INFO (Attempting "http://c")]))))
    as [Hret Hlost].
  - reflexivity.
  - reflexivity.
  - vm_compute. reflexivity.
  - vm_compute. reflexivity.
  - split; [exact Hret|].
    rewrite Hret.
    apply (Hlost {| title := "c1";
                    content := "The first article of feed C is fine.";
                    url := "http://example.org/item";
                    published := {| year := 2024; month := 2; day := 29;
                                    hour := 10; minute := 30; second := 0 |};
                    source := "Feed C" |}).
    vm_compute. apply elem_of_cons. by left.
Defined.

(** ** Bounds of the configuration *)

(** X5.  With a cap of zero or below, no entry is evaluated: the fetch of
    any document returns no article, asks the store nothing and writes
    nothing, and logs a success with a count of zero, even for a document
    whose entries would raise. *)
Theorem X5_nonpositive_cap_evaluates_nothing
    (CONFIG : config) (feedparser_parse : string -> result feed_doc)
    (wall_clock : nat -> datetime)
    (text feed_url : string) (feed : feed_doc) (s : state) :
  max_articles_per_feed CONFIG <= 0 ->
  feedparser_parse text = Ok feed ->
  fetch_single_feed CONFIG feedparser_parse wall_clock (Body text) feed_url s
  = (Ok [], with_events s [Log INFO (Attempting feed_url);
                           Log INFO (Fetched 0 feed_url)]).
Proof.
  intros Hcap Ep. rewrite (fetch_single_feed_body _ _ _ _ _ _ _ Ep).
  assert (entries_loop CONFIG wall_clock feed feed_url (entries feed) [] 0
            (with_events s [Log INFO (Attempting feed_url)])
          = (Ok [], with_events s [Log INFO (Attempting feed_url)])) as ->.
  { destruct (entries feed) as [|e es]; [reflexivity|].
    rewrite entries_loop_cons.
    destruct (0 >=? max_articles_per_feed CONFIG) eqn:E; [reflexivity|].
    rewrite Z.geb_leb in E. apply Z.leb_gt in E. lia. }
  unfold with_events. simpl. by rewrite <- app_assoc.
Qed.

Lemma X5_witness :
  fetch_single_feed
    {| max_articles_per_feed := 0; min_article_length := 20 |}
    Examples.parse Examples.clock (Body "C") "http://c" Examples.s0
  = (Ok [], with_events Examples.s0 [Log INFO (Attempting "http://c");
                                     Log INFO (Fetched 0 "http://c")]).
Proof.
  apply (X5_nonpositive_cap_evaluates_nothing
           {| max_articles_per_feed := 0; min_article_length := 20 |}
           Examples.parse Examples.clock "C" "http://c" Examples.feed_c
           Examples.s0).
  - simpl. lia.
  - reflexivity.
Defined.

(** X6.  A batch size of zero makes [fetch_feeds_batch] raise a
    [ValueError] (the step of the range), and a negative batch size makes
    it return the empty list: in both cases before anything has happened,
    so that no source is fetched, no session opened and the store is left
    alone.  An empty feed list gives the empty list in the same way for
    every batch size but zero. *)
Theorem X6_degenerate_batch_size
    (CONFIG : config) (http_get : Z -> string -> http_outcome)
    (feedparser_parse : string -> result feed_doc)
    (wall_clock : nat -> datetime) (schedule : Z -> list nat)
    (feeds : list string) (batch_size : Z) (s : state) :
  batch_size <= 0 \/ feeds = [] ->
  fetch_feeds_batch CONFIG http_get feedparser_parse wall_clock schedule
                    feeds batch_size s
  = (if batch_size =? 0 then Raise ValueError else Ok [], s).
Proof.
  intros H. unfold fetch_feeds_batch. rewrite bind_eq. unfold lift, py_range.
  destruct (batch_size =? 0) eqn:E0; [reflexivity|].
  apply Z.eqb_neq in E0.
  destruct (batch_size <? 0) eqn:E1; [reflexivity|].
  apply Z.ltb_ge in E1.
  destruct H as [H| ->]; [lia|].
  rewrite Z.div_small by (simpl; lia). reflexivity.
Qed.

Lemma X6_witness :
  fetch_feeds_batch Examples.cfg Examples.net Examples.parse Examples.clock
                    Examples.sched Examples.feeds7 (-5) Examples.s0
  = (Ok [], Examples.s0).
Proof.
  apply (X6_degenerate_batch_size
           Examples.cfg Examples.net Examples.parse Examples.clock
           Examples.sched Examples.feeds7 (-5) Examples.s0).
  left. lia.
Defined.

(** ** The size of the result *)

Lemma fetch_resume_bound (CONFIG : config)
    (feedparser_parse : string -> result feed_doc)
    (wall_clock : nat -> datetime)
    (response : http_outcome) (feed_url : string)
    (s : state) (r : result (list Article)) (s' : state) :
  0 <= max_articles_per_feed CONFIG ->
  fetch_resume CONFIG feedparser_parse wall_clock response feed_url s = (r, s') ->
  Z.of_nat (length (slot_articles (Some r))) <= max_articles_per_feed CONFIG.
Proof.
  intros Hmax. rewrite fetch_resume_eq.
  destruct (response_text response) as [text|x];
    [|intros [= <- <-]; simpl; lia].
  destruct (feedparser_parse text) as [feed|x];
    [|intros [= <- <-]; simpl; lia].
  destruct (entries_loop_run CONFIG wall_clock feed feed_url (entries feed)
              [] 0 s) as (r1 & evs & s1 & -> & Hrun).
  destruct r1 as [out|x]; intros [= <- <-]; simpl; [|lia].
  pose proof (loop_run_cap _ _ _ _ _ _ _ _ _ _ Hrun Hmax). simpl in *. lia.
Qed.

Lemma resume_tasks_bound (CONFIG : config)
    (http_get : Z -> string -> http_outcome)
    (feedparser_parse : string -> result feed_doc)
    (wall_clock : nat -> datetime)
    (i : Z) (batch : list string) (order : list nat)
    (results : list (option (result (list Article)))) (s : state)
    (r : result (list (option (result (list Article))))) (s' : state) :
  0 <= max_articles_per_feed CONFIG ->
  Forall (fun x => Z.of_nat (length (slot_articles x))
                   <= max_articles_per_feed CONFIG) results ->
  resume_tasks CONFIG http_get feedparser_parse wall_clock i batch order
               results s = (r, s') ->
  exists results',
    r = Ok results'
    /\ length results' = length results
    /\ Forall (fun x => Z.of_nat (length (slot_articles x))
                        <= max_articles_per_feed CONFIG) results'.
Proof.
  intros Hmax. revert results s.
  induction order as [|j order IH]; intros results s Hall.
  - intros [= <- <-]. by exists results.
  - rewrite resume_tasks_cons.
    destruct (batch !! j) as [u|]; [|by apply IH].
    destruct (fetch_resume CONFIG feedparser_parse wall_clock
                (http_get (i + Z.of_nat j) u) u s) as [r1 s1] eqn:E1.
    intros E. apply IH in E.
    + destruct E as (results' & -> & Hlen & Hall').
      exists results'. rewrite length_insert in Hlen. by repeat split.
    + apply Forall_insert; [exact Hall|].
      by eapply fetch_resume_bound.
Qed.

Lemma gathered_bound (cap : Z)
    (results : list (option (result (list Article)))) :
  0 <= cap ->
  Forall (fun x => Z.of_nat (length (slot_articles x)) <= cap) results ->
  Z.of_nat (length (gathered results)) <= cap * Z.of_nat (length results).
Proof.
  intros Hcap. rewrite gathered_concat.
  induction 1 as [|x results Hx _ IH]; [simpl; lia|].
  rewrite fmap_cons. simpl concat. rewrite length_app. simpl length. lia.
Qed.

Lemma batches_loop_bound (CONFIG : config)
    (http_get : Z -> string -> http_outcome)
    (feedparser_parse : string -> result feed_doc)
    (wall_clock : nat -> datetime) (schedule : Z -> list nat)
    (feeds : list string) (b : nat) (m a : nat)
    (articles : list Article) (s : state)
    (out : list Article) (s' : state) :
  0 <= max_articles_per_feed CONFIG ->
  batches_loop CONFIG http_get feedparser_parse wall_clock schedule feeds
    (Z.of_nat b) ((fun k => Z.of_nat k * Z.of_nat b) <$> seq a m)
    articles s = (Ok out, s') ->
  Z.of_nat (length out)
  <= Z.of_nat (length articles)
     + max_articles_per_feed CONFIG * Z.of_nat (length (drop (a * b) feeds)).
Proof.
  intros Hmax. revert a articles s.
  induction m as [|m IH]; intros a articles s.
  - intros [= <- <-]. lia.
  - simpl seq. rewrite fmap_cons, batches_loop_cons, py_slice_chunk.
    rewrite gather_eq.
    destruct (resume_tasks CONFIG http_get feedparser_parse wall_clock
                (Z.of_nat a * Z.of_nat b) (take b (drop (a * b) feeds))
                (schedule (Z.of_nat a * Z.of_nat b))
                (replicate (length (take b (drop (a * b) feeds))) None)
                (with_events (with_events s [SessionOpen])
                   (attempts (take b (drop (a * b) feeds)))))
      as [r1 s1] eqn:E1.
    apply (resume_tasks_bound _ _ _ _ _ _ _ _ _ _ _ Hmax) in E1
      as (results & -> & Hlen & Hall).
    + intros E. apply IH in E.
      rewrite extend_results_gathered, length_app in E.
      pose proof (gathered_bound _ _ Hmax Hall) as Hg.
      rewrite Hlen, length_replicate in Hg.
      replace (S a * b)%nat with (a * b + b)%nat in E by lia.
      rewrite <- drop_drop in E.
      pose proof (take_drop b (drop (a * b) feeds)) as Htd.
      apply (f_equal length) in Htd. rewrite length_app in Htd.
      nia.
    + apply Forall_replicate. simpl. lia.
Qed.

(** X7.  With a cap of zero or more, a run returns at most
    [max_articles_per_feed] articles for each source of the feed list,
    for every batch size and every schedule. *)
Theorem X7_result_bounded_by_sources_times_cap
    (CONFIG : config) (http_get : Z -> string -> http_outcome)
    (feedparser_parse : string -> result feed_doc)
    (wall_clock : nat -> datetime) (schedule : Z -> list nat)
    (feeds : list string) (batch_size : Z)
    (s : state) (out : list Article) (s' : state) :
  0 <= max_articles_per_feed CONFIG ->
  fetch_feeds_batch CONFIG http_get feedparser_parse wall_clock schedule
                    feeds batch_size s = (Ok out, s') ->
  Z.of_nat (length out)
  <= max_articles_per_feed CONFIG * Z.of_nat (length feeds).
Proof.
  intros Hmax E.
  destruct (Z.le_gt_cases batch_size 0) as [Hbs|Hbs].
  - unfold fetch_feeds_batch in E. rewrite bind_eq in E.
    unfold lift, py_range in E.
    destruct (batch_size =? 0) eqn:E0; [discriminate|].
    apply Z.eqb_neq in E0.
    destruct (batch_size <? 0) eqn:E1; [|apply Z.ltb_ge in E1; lia].
    injection E as <- <-. simpl. nia.
  - destruct (fetch_feeds_batch_chunks CONFIG http_get feedparser_parse
                wall_clock schedule feeds batch_size s ltac:(lia))
      as (b & m & -> & _ & Erun & _).
    rewrite Erun in E.
    apply (batches_loop_bound _ _ _ _ _ _ _ _ _ _ _ _ _ Hmax) in E.
    simpl in E. rewrite drop_0 in E. lia.
Qed.

Lemma X7_witness :
  Z.of_nat (length (Examples.articles_of Examples.run7))
  <= max_articles_per_feed Examples.cfg * Z.of_nat (length Examples.feeds7).
Proof.
  apply (X7_result_bounded_by_sources_times_cap
           Examples.cfg Examples.net Examples.parse Examples.clock
           Examples.sched Examples.feeds7 5 Examples.s0
           (Examples.articles_of Examples.run7) (snd Examples.run7)).
  - simpl. lia.
  - vm_compute. reflexivity.
Defined.

(** ** Entries that the length filter skips *)

Lemma same_store_refl (s : state) : same_store s s.
Proof. by split. Qed.

(** The loop body reads the store and the clock of a state, not its
    trace, and of the document only the title. *)
Lemma entry_step_same_store (CONFIG : config) (wall_clock : nat -> datetime)
    (feed feed' : feed_doc) (feed_url : string) (e : entry)
    (s1 s2 : state) :
  feed_title feed' = feed_title feed ->
  same_store s1 s2 ->
  exists r s1' s2',
    entry_step CONFIG wall_clock feed feed_url e s1 = (r, s1')
    /\ entry_step CONFIG wall_clock feed' feed_url e s2 = (r, s2')
    /\ same_store s1' s2'.
Proof.
  intros Ht [Hd Hk]. unfold entry_step. rewrite !bind_eq. unfold lift.
  destruct (extract_content e) as [c|x];
    [|eexists _, _, _; repeat split; assumption].
  destruct (PyStr.len c <? min_article_length CONFIG).
  - eexists _, _, _. repeat split; assumption.
  - rewrite !bind_eq. unfold db_is_duplicate. cbv beta iota zeta. rewrite Hd.
    destruct (NewsDatabase.is_duplicate (db s2) (content_hash_of c)).
    + eexists _, _, _. repeat split; assumption.
    + rewrite !bind_eq. unfold parse_date.
      destruct (parse_date_try e) as [[d|]|y]; simpl; rewrite ?Hk, Ht;
        eexists _, _, _; repeat split; simpl; congruence.
Qed.

Lemma entry_step_too_short (CONFIG : config) (wall_clock : nat -> datetime)
    (feed : feed_doc) (feed_url : string) (e : entry) (s : state) :
  too_short CONFIG e = true ->
  entry_step CONFIG wall_clock feed feed_url e s
  = (Ok None, with_events s [Log DEBUG (SkippingShort (log_title e))]).
Proof.
  unfold too_short, entry_step. rewrite bind_eq. unfold lift.
  destruct (extract_content e) as [c|x]; [|discriminate].
  by intros ->.
Qed.

Lemma entries_loop_capped (CONFIG : config) (wall_clock : nat -> datetime)
    (feed : feed_doc) (feed_url : string) (es : list entry)
    (articles : list Article) (n : Z) (s : state) :
  max_articles_per_feed CONFIG <= n ->
  entries_loop CONFIG wall_clock feed feed_url es articles n s
  = (Ok articles, s).
Proof.
  intros Hn. destruct es as [|e es]; [reflexivity|].
  rewrite entries_loop_cons.
  destruct (n >=? max_articles_per_feed CONFIG) eqn:E; [reflexivity|].
  rewrite Z.geb_leb in E. apply Z.leb_gt in E. lia.
Qed.

Lemma entries_loop_without_short (CONFIG : config)
    (wall_clock : nat -> datetime) (feed feed' : feed_doc)
    (feed_url : string) (es : list entry) (articles : list Article) (n : Z)
    (s1 s2 : state) :
  feed_title feed' = feed_title feed ->
  same_store s1 s2 ->
  exists r s1' s2',
    entries_loop CONFIG wall_clock feed feed_url es articles n s1 = (r, s1')
    /\ entries_loop CONFIG wall_clock feed' feed_url
         (List.filter (fun e => negb (too_short CONFIG e)) es) articles n s2
       = (r, s2')
    /\ same_store s1' s2'.
Proof.
  intros Ht. revert articles n s1 s2.
  induction es as [|e es IH]; intros articles n s1 s2 Hs.
  - by exists (Ok articles), s1, s2.
  - destruct (Z.le_gt_cases (max_articles_per_feed CONFIG) n) as [Hn|Hn].
    + rewrite !entries_loop_capped by exact Hn.
      by exists (Ok articles), s1, s2.
    + rewrite entries_loop_cons.
      assert ((n >=? max_articles_per_feed CONFIG) = false) as Eg
        by (rewrite Z.geb_leb; apply Z.leb_gt; lia).
      rewrite Eg. simpl List.filter.
      destruct (too_short CONFIG e) eqn:Eshort; simpl negb; cbv iota.
      * rewrite (entry_step_too_short _ _ _ _ _ _ Eshort).
        apply IH. destruct Hs. by split.
      * rewrite entries_loop_cons, Eg.
        destruct (entry_step_same_store CONFIG wall_clock feed feed'
                    feed_url e s1 s2 Ht Hs) as (r & s1' & s2' & -> & -> & Hs').
        destruct r as [[a|]|x].
        -- by apply IH.
        -- by apply IH.
        -- by exists (Raise x), s1', s2'.
Qed.

(** X8.  Entries that the length filter skips leave no mark but their
    log line: a document and the same document without its too-short
    entries give the same result (the same articles, or the same failure)
    and the same store.  In particular a skipped entry does not count
    against the cap. *)
Theorem X8_short_entries_leave_no_mark
    (CONFIG : config) (feedparser_parse : string -> result feed_doc)
    (wall_clock : nat -> datetime)
    (text text' feed_url : string) (feed feed' : feed_doc) (s : state) :
  feedparser_parse text = Ok feed ->
  feedparser_parse text' = Ok feed' ->
  feed_title feed' = feed_title feed ->
  entries feed'
  = List.filter (fun e => negb (too_short CONFIG e)) (entries feed) ->
  fst (fetch_single_feed CONFIG feedparser_parse wall_clock (Body text')
         feed_url s)
  = fst (fetch_single_feed CONFIG feedparser_parse wall_clock (Body text)
           feed_url s)
  /\ same_store
       (snd (fetch_single_feed CONFIG feedparser_parse wall_clock (Body text')
               feed_url s))
       (snd (fetch_single_feed CONFIG feedparser_parse wall_clock (Body text)
               feed_url s)).
Proof.
  intros Ep Ep' Ht Hes.
  rewrite (fetch_single_feed_body _ _ _ _ _ _ _ Ep).
  rewrite (fetch_single_feed_body _ _ _ _ _ _ _ Ep'), Hes.
  destruct (entries_loop_without_short CONFIG wall_clock feed feed' feed_url
              (entries feed) [] 0
              (with_events s [Log INFO (Attempting feed_url)])
              (with_events s [Log INFO (Attempting feed_url)])
              Ht (same_store_refl _))
    as (r & s1 & s2 & -> & -> & [Hd Hk]).
  destruct r as [out|x]; simpl; by repeat split.
Qed.

Lemma X8_witness :
  fst (fetch_single_feed Examples.cfg MoreExamples.parse_d Examples.clock
         (Body "D without d1") "http://d" Examples.s0)
  = fst (fetch_single_feed Examples.cfg MoreExamples.parse_d Examples.clock
           (Body "D") "http://d" Examples.s0)
  /\ same_store
       (snd (fetch_single_feed Examples.cfg MoreExamples.parse_d
               Examples.clock (Body "D without d1") "http://d" Examples.s0))
       (snd (fetch_single_feed Examples.cfg MoreExamples.parse_d
               Examples.clock (Body "D") "http://d" Examples.s0)).
Proof.
  apply (X8_short_entries_leave_no_mark
           Examples.cfg MoreExamples.parse_d Examples.clock
           "D" "D without d1" "http://d"
           Examples.feed_d MoreExamples.feed_d_long Examples.s0);
    reflexivity.
Defined.

(** ** When an entry is accepted *)

(** X9.  For a document of one entry and a cap of at least one, the fetch
    returns an article exactly when the extraction returns a text, the
    text has at least [min_article_length] characters and its fingerprint
    is not in the store; the article then carries that text.  Nothing
    else decides: not the title, the link or the date of the entry.  With
    [min_article_length] at zero or below this lets through an entry that
    has none of the three fields, as an article with empty content. *)
Theorem X9_acceptance_criterion
    (CONFIG : config) (feedparser_parse : string -> result feed_doc)
    (wall_clock : nat -> datetime)
    (text feed_url : string) (feed : feed_doc) (e : entry) (s : state) :
  0 < max_articles_per_feed CONFIG ->
  feedparser_parse text = Ok feed ->
  entries feed = [e] ->
  forall c,
    (exists a s',
       fetch_single_feed CONFIG feedparser_parse wall_clock (Body text)
                         feed_url s = (Ok [a], s')
       /\ content a = c)
    <-> (extract_content e = Ok c
         /\ min_article_length CONFIG <= PyStr.len c
         /\ content_hash_of c ∉ db s).
Proof.
  intros Hmax Ep Hes c.
  rewrite (fetch_single_feed_body _ _ _ _ _ _ _ Ep), Hes, entries_loop_cons.
  assert ((0 >=? max_articles_per_feed CONFIG) = false) as ->
    by (rewrite Z.geb_leb; apply Z.leb_gt; lia).
  set (sa := with_events s [Log INFO (Attempting feed_url)]).
  destruct (entry_step_run CONFIG wall_clock feed feed_url e sa)
    as (r & evs & s1 & -> & _ & Hrun).
  destruct Hrun as [x Ex|c' Ec' Hshort|c' Ec' Hlong Hdup|c' d Ec' Hlong Hfresh].
  - split; [intros (a & s' & [=] & _)|intros (Ec & _); congruence].
  - split; [intros (a & s' & [=] & _)|].
    intros (Ec & Hlen & _). rewrite Ec in Ec'. injection Ec' as <-. lia.
  - split; [intros (a & s' & [=] & _)|].
    intros (Ec & _ & Hnew). rewrite Ec in Ec'. injection Ec' as <-.
    by destruct Hnew.
  - split.
    + intros (a & s' & [= <- _] & <-). by repeat split.
    + intros (Ec & _). rewrite Ec in Ec'. injection Ec' as <-.
      eexists _, _. split; reflexivity.
Qed.

(** The criterion at work: under a threshold of zero the entry without
    fields is accepted with empty content. *)
Lemma X9_witness :
  exists a s',
    fetch_single_feed MoreExamples.cfg_min0 MoreExamples.parse_bare
      Examples.clock (Body "bare") "http://bare" Examples.s0 = (Ok [a], s')
    /\ content a = "".
Proof.
  apply (X9_acceptance_criterion
           MoreExamples.cfg_min0 MoreExamples.parse_bare Examples.clock
           "bare" "http://bare" MoreExamples.feed_bare
           MoreExamples.bare_entry Examples.s0).
  - simpl. lia.
  - reflexivity.
  - reflexivity.
  - split; [reflexivity|]. split; [by vm_compute|]. apply not_elem_of_empty.
Defined.

(** ** What reaches the store *)

Lemma loop_run_written (CONFIG : config) (feed : feed_doc) (feed_url : string)
    (es : list entry) (articles : list Article) (n : Z) (s : state)
    (r : result (list Article)) (evs : list event) (s' : state) :
  loop_run CONFIG feed feed_url es articles n s r evs s' ->
  forall h, h ∈ cached evs ->
    exists e c,
      e ∈ es
      /\ extract_content e = Ok c
      /\ h = content_hash_of c
      /\ min_article_length CONFIG <= PyStr.len c.
Proof.
  induction 1 as [articles n s|e es articles n s Hcap
                  |e es articles n s x evs s' Hn Hrun Hst
                  |e es articles n s evs s' r evs' s'' Hn Hrun Hst Hrest IH
                  |e es articles n s a evs s' r evs' s'' Hn Hrun Hst Hrest IH];
    intros h Hh.
  - by apply elem_of_nil in Hh.
  - by apply elem_of_nil in Hh.
  - inversion Hrun; subst. by apply elem_of_nil in Hh.
  - rewrite cached_app in Hh. apply elem_of_app in Hh as [Hh|Hh].
    + inversion Hrun; subst; simpl in Hh; by apply elem_of_nil in Hh.
    + destruct (IH h Hh) as (e' & c & He' & Hc).
      exists e', c. split; [|exact Hc]. apply elem_of_cons. by right.
  - rewrite cached_app in Hh. apply elem_of_app in Hh as [Hh|Hh].
    + inversion Hrun; subst. simpl in Hh.
      apply list_elem_of_singleton in Hh as ->.
      exists e, c. split; [apply elem_of_cons; by left|]. by repeat split.
    + destruct (IH h Hh) as (e' & c & He' & Hc).
      exists e', c. split; [|exact Hc]. apply elem_of_cons. by right.
Qed.

(** X10.  Whatever a fetch adds to the store is the fingerprint of a
    text that was extracted from an entry of the fetched document and
    passed the length filter: also when the fetch fails and returns
    nothing.  A failed request or an unparsable body adds nothing. *)
Theorem X10_store_receives_only_accepted_content
    (CONFIG : config) (feedparser_parse : string -> result feed_doc)
    (wall_clock : nat -> datetime)
    (response : http_outcome) (feed_url : string)
    (s : state) (r : result (list Article)) (s' : state) (h : string) :
  fetch_single_feed CONFIG feedparser_parse wall_clock response feed_url s
  = (r, s') ->
  h ∈ db s' ->
  h ∈ db s
  \/ exists text feed e c,
       response = Body text
       /\ feedparser_parse text = Ok feed
       /\ e ∈ entries feed
       /\ extract_content e = Ok c
       /\ h = content_hash_of c
       /\ min_article_length CONFIG <= PyStr.len c.
Proof.
  rewrite fetch_single_feed_eq, fetch_resume_eq.
  destruct (response_text response) as [text|x] eqn:Er;
    [|intros [= <- <-]; by left].
  assert (response = Body text) as -> by (destruct response; simpl in Er; congruence).
  destruct (feedparser_parse text) as [feed|x] eqn:Ep;
    [|intros [= <- <-]; by left].
  destruct (entries_loop_run CONFIG wall_clock feed feed_url (entries feed)
              [] 0 (with_events s [Log INFO (Attempting feed_url)]))
    as (r1 & evs & s1 & -> & Hrun).
  pose proof (loop_run_steps _ _ _ _ _ _ _ _ _ _ Hrun) as (_ & Hd & _).
  assert (h ∈ db s1 ->
          h ∈ db s
          \/ exists text0 feed0 e c,
               Body text = Body text0
               /\ feedparser_parse text0 = Ok feed0
               /\ e ∈ entries feed0
               /\ extract_content e = Ok c
               /\ h = content_hash_of c
               /\ min_article_length CONFIG <= PyStr.len c) as Hmain.
  { rewrite Hd. intros Hin. apply elem_of_union in Hin as [Hin|Hin];
      [|by left].
    apply elem_of_list_to_set in Hin.
    destruct (loop_run_written _ _ _ _ _ _ _ _ _ _ Hrun h Hin)
      as (e & c & He & Hc).
    right. by exists text, feed, e, c. }
  destruct r1 as [out|x]; intros [= <- <-]; exact Hmain.
Qed.

Lemma X10_witness :
  content_hash_of "The first article of feed C is fine." ∈ db Examples.s0
  \/ exists text feed e c,
       Body "C" = Body text
       /\ Examples.parse text = Ok feed
       /\ e ∈ entries feed
       /\ extract_content e = Ok c
       /\ content_hash_of "The first article of feed C is fine."
          = content_hash_of c
       /\ min_article_length Examples.cfg <= PyStr.len c.
Proof.
  apply (X10_store_receives_only_accepted_content
           Examples.cfg Examples.parse Examples.clock (Body "C") "http://c"
           Examples.s0
           (fst (fetch_single_feed Examples.cfg Examples.parse Examples.clock
                   (Body "C") "http://c" Examples.s0))
           (snd (fetch_single_feed Examples.cfg Examples.parse Examples.clock
                   (Body "C") "http://c" Examples.s0))).
  - by destruct (fetch_single_feed _ _ _ _ _ _).
  - apply (bool_decide_unpack _). vm_compute. exact I.
Defined.

(** ** The attempt and outcome lines of a run *)

Lemma attempted_app (evs1 evs2 : list event) :
  attempted (evs1 ++ evs2) = attempted evs1 ++ attempted evs2.
Proof.
  induction evs1 as [|[lvl []| | | | |] evs1 IH]; simpl; by rewrite ?IH.
Qed.

Lemma reported_app (evs1 evs2 : list event) :
  reported (evs1 ++ evs2) = reported evs1 ++ reported evs2.
Proof.
  induction evs1 as [|[lvl []| | | | |] evs1 IH]; simpl; by rewrite ?IH.
Qed.

Lemma reported_error_line (feed_url : string) (x : exn) :
  attempted [error_line feed_url x] = []
  /\ reported [error_line feed_url x] = [feed_url].
Proof. unfold error_line. by destruct (is_ClientError x). Qed.

Lemma attempts_lines (batch : list string) :
  attempted (attempts batch) = batch /\ reported (attempts batch) = [].
Proof.
  induction batch as [|u batch [IH1 IH2]]; [done|].
  unfold attempts. rewrite fmap_cons. simpl. split; [|exact IH2].
  f_equal. exact IH1.
Qed.

Lemma batch_tail_lines (feeds : list string) (batch_size i : Z) :
  attempted (batch_tail feeds batch_size i) = []
  /\ reported (batch_tail feeds batch_size i) = [].
Proof. unfold batch_tail. by destruct (_ <? _). Qed.

(** The sources at the positions of an order that gives every position of
    the batch once are the sources of the batch, up to their order. *)
Lemma omap_lookup_seq {A} (l : list A) (a n : nat) :
  omap (fun j => l !! j) (seq a n) = take n (drop a l).
Proof.
  revert a. induction n as [|n IH]; intros a; [by rewrite take_0|].
  simpl seq. simpl omap. rewrite IH.
  destruct (l !! a) as [x|] eqn:E.
  - by rewrite (drop_S _ _ _ E).
  - apply lookup_ge_None in E. by rewrite !drop_ge, !take_nil by lia.
Qed.

Lemma omap_lookup_schedule {A} (l : list A) (order : list nat) :
  order ≡ₚ seq 0 (length l) ->
  omap (fun j => l !! j) order ≡ₚ l.
Proof.
  intros ->. rewrite omap_lookup_seq, drop_0. by rewrite firstn_all.
Qed.

Section LineFacts.

Variable CONFIG : config.
Variable http_get : Z -> string -> http_outcome.
Variable feedparser_parse : string -> result feed_doc.
Variable wall_clock : nat -> datetime.
Variable schedule : Z -> list nat.

Lemma entry_run_lines feed feed_url e s r evs :
  entry_run CONFIG feed feed_url e s r evs ->
  attempted evs = [] /\ reported evs = [].
Proof. by destruct 1. Qed.

Lemma loop_run_lines feed feed_url es articles n s r evs s' :
  loop_run CONFIG feed feed_url es articles n s r evs s' ->
  attempted evs = [] /\ reported evs = [].
Proof.
  induction 1 as [| |? ? ? ? ? ? ? ? ? Hrun ?
                  |? ? ? ? ? ? ? ? ? ? ? Hrun Hst ? [IH1 IH2]
                  |? ? ? ? ? ? ? ? ? ? ? ? Hrun Hst ? [IH1 IH2]];
    try done.
  - by eapply entry_run_lines.
  - destruct (entry_run_lines _ _ _ _ _ _ Hrun) as [H1 H2].
    by rewrite attempted_app, reported_app, IH1, IH2, H1, H2.
  - destruct (entry_run_lines _ _ _ _ _ _ Hrun) as [H1 H2].
    by rewrite attempted_app, reported_app, IH1, IH2, H1, H2.
Qed.

(** From its response on, a fetch logs no attempt line and exactly one
    outcome line, for its own source. *)
Lemma fetch_resume_lines (response : http_outcome) (feed_url : string)
    (s : state) (r : result (list Article)) (s' : state) :
  fetch_resume CONFIG feedparser_parse wall_clock response feed_url s = (r, s') ->
  attempted (trace s') = attempted (trace s)
  /\ reported (trace s') = reported (trace s) ++ [feed_url].
Proof.
  rewrite fetch_resume_eq.
  assert (forall s1 x,
            attempted (trace (with_events s1 [error_line feed_url x]))
            = attempted (trace s1)
            /\ reported (trace (with_events s1 [error_line feed_url x]))
               = reported (trace s1) ++ [feed_url]) as Herr.
  { intros s1 x. simpl trace. rewrite attempted_app, reported_app.
    destruct (reported_error_line feed_url x) as [-> ->].
    by rewrite app_nil_r. }
  destruct (response_text response) as [text|x];
    [|intros [= <- <-]; apply Herr].
  destruct (feedparser_parse text) as [feed|x];
    [|intros [= <- <-]; apply Herr].
  destruct (entries_loop_run CONFIG wall_clock feed feed_url
              (entries feed) [] 0 s) as (r1 & evs & s1 & -> & Hrun).
  pose proof (loop_run_steps _ _ _ _ _ _ _ _ _ _ Hrun) as (Ht & _).
  destruct (loop_run_lines _ _ _ _ _ _ _ _ _ Hrun) as [Ha Hr].
  assert (attempted (trace s1) = attempted (trace s)
          /\ reported (trace s1) = reported (trace s)) as [Ea Er].
  { by rewrite Ht, attempted_app, reported_app, Ha, Hr, !app_nil_r. }
  destruct r1 as [out|x]; intros [= <- <-].
  - simpl trace. rewrite attempted_app, reported_app, Ea, Er. simpl.
    by rewrite app_nil_r.
  - destruct (Herr s1 x) as [-> ->]. by rewrite Ea, Er.
Qed.

Lemma resume_tasks_lines (i : Z) (batch : list string) (order : list nat)
    (results : list (option (result (list Article))))
    (s s' : state) r :
  resume_tasks CONFIG http_get feedparser_parse wall_clock
               i batch order results s = (r, s') ->
  attempted (trace s') = attempted (trace s)
  /\ reported (trace s')
     = reported (trace s) ++ omap (fun j => batch !! j) order.
Proof.
  revert results s. induction order as [|j order IH]; intros results s.
  - intros [= <- <-]. by rewrite app_nil_r.
  - rewrite resume_tasks_cons. simpl omap.
    destruct (batch !! j) as [feed_url|]; [|by apply IH].
    destruct (fetch_resume _ _ _ _ feed_url s) as [r1 s1] eqn:E1.
    apply fetch_resume_lines in E1 as [Ea Er].
    intros H. apply IH in H as [-> ->].
    by rewrite Ea, Er, <- app_assoc.
Qed.

(** A gather logs the attempt lines of its batch in the order of the
    batch, and the outcome lines in the order of the schedule. *)
Lemma gather_lines (i : Z) (batch : list string) (s s' : state) r :
  gather CONFIG http_get feedparser_parse wall_clock schedule i batch s
  = (r, s') ->
  attempted (trace s') = attempted (trace s) ++ batch
  /\ reported (trace s')
     = reported (trace s) ++ omap (fun j => batch !! j) (schedule i).
Proof.
  rewrite gather_eq. intros H. apply resume_tasks_lines in H as [-> ->].
  simpl trace. rewrite attempted_app, reported_app.
  destruct (attempts_lines batch) as [-> ->]. by rewrite app_nil_r.
Qed.

Lemma batches_loop_lines (feeds : list string) (b : nat) (m a : nat)
    (articles : list Article) (s : state) r (s' : state) :
  (length feeds <= (a + m) * b)%nat ->
  batches_loop CONFIG http_get feedparser_parse wall_clock schedule
    feeds (Z.of_nat b) ((fun k => Z.of_nat k * Z.of_nat b) <$> seq a m)
    articles s = (r, s') ->
  attempted (trace s') = attempted (trace s) ++ drop (a * b) feeds
  /\ ((forall i, i ∈ (fun k => Z.of_nat k * Z.of_nat b) <$> seq a m ->
         schedule i ≡ₚ seq 0 (length (py_slice feeds i (i + Z.of_nat b)))) ->
      reported (trace s') ≡ₚ reported (trace s) ++ drop (a * b) feeds).
Proof.
  revert a articles s. induction m as [|m IH]; intros a articles s Hhi.
  - intros [= <- <-]. rewrite drop_ge by lia. by rewrite !app_nil_r.
  - simpl seq. rewrite fmap_cons, batches_loop_cons.
    set (i := Z.of_nat a * Z.of_nat b).
    destruct (gather CONFIG http_get feedparser_parse wall_clock schedule i
                (py_slice feeds i (i + Z.of_nat b))
                (with_events s [SessionOpen]))
      as [[results|x] s1] eqn:Eg.
    2:{ destruct (gather_returns CONFIG http_get feedparser_parse wall_clock
                    schedule i (py_slice feeds i (i + Z.of_nat b))
                    (with_events s [SessionOpen]))
          as (results & evs1 & s1' & Eg' & _).
        rewrite Eg' in Eg. discriminate. }
    apply gather_lines in Eg as [Ea Er].
    simpl trace in Ea, Er.
    rewrite attempted_app in Ea. rewrite reported_app in Er.
    simpl in Ea, Er. rewrite app_nil_r in Ea, Er.
    intros H. apply IH in H as [Ha Hr]; [|lia].
    simpl trace in Ha, Hr.
    rewrite attempted_app in Ha. rewrite reported_app in Hr.
    destruct (batch_tail_lines feeds (Z.of_nat b) i) as [Et1 Et2].
    rewrite Et1, app_nil_r in Ha. rewrite Et2, app_nil_r in Hr.
    assert (py_slice feeds i (i + Z.of_nat b) ++ drop (S a * b) feeds
            = drop (a * b) feeds) as Esplit.
    { subst i. rewrite py_slice_chunk.
      replace (S a * b)%nat with (a * b + b)%nat by lia.
      by rewrite <- drop_drop, take_drop. }
    split.
    + by rewrite Ha, Ea, <- app_assoc, Esplit.
    + intros Hsched. rewrite Hr, Er.
      * rewrite <- app_assoc. apply Permutation_app_head.
        rewrite <- Esplit. apply Permutation_app_tail.
        apply omap_lookup_schedule, Hsched. apply elem_of_cons. by left.
      * intros i' Hi'. apply Hsched. apply elem_of_cons. by right.
Qed.

Lemma fetch_feeds_batch_lines (feeds : list string) (batch_size : Z)
    (s : state) :
  0 < batch_size ->
  exists out evs s',
    fetch_feeds_batch CONFIG http_get feedparser_parse wall_clock schedule
                      feeds batch_size s = (Ok out, s')
    /\ trace s' = trace s ++ evs
    /\ attempted evs = feeds
    /\ (valid_schedule schedule feeds batch_size -> reported evs ≡ₚ feeds).
Proof.
  intros Hbs.
  destruct (fetch_feeds_batch_chunks CONFIG http_get feedparser_parse
              wall_clock schedule feeds batch_size s Hbs)
    as (b & m & -> & Hr & -> & Hhi & _).
  destruct (batches_loop_backed CONFIG http_get feedparser_parse wall_clock
              schedule feeds (Z.of_nat b)
              ((fun k => Z.of_nat k * Z.of_nat b) <$> seq 0 m) [] s s []
              (runs_on_refl s) (backed_nil CONFIG []))
    as (out & evs & s' & E & [(Ht & _) _] & _).
  simpl in Ht.
  destruct (batches_loop_lines feeds b m 0 [] s (Ok out) s'
              ltac:(simpl; lia) E) as [Ha Hrep].
  rewrite Ht, attempted_app, drop_0 in Ha. apply app_inv_head in Ha.
  exists out, evs, s'. split; [exact E|]. split; [exact Ht|].
  split; [exact Ha|].
  intros Hsched.
  rewrite Ht, reported_app, drop_0 in Hrep.
  eapply Permutation_app_inv_l. apply Hrep.
  intros i Hi. by eapply Hsched.
Qed.

End LineFacts.

(** X11.  With a positive batch size every source of the feed list is
    attempted exactly once and in the order of the list, whatever the
    schedule of the concurrent fetches and whatever fails: the attempt
    lines of a run name the feed list itself.  A source that fails is not
    tried again, and none is left out. *)
Theorem X11_every_source_attempted_once_in_order
    (CONFIG : config) (http_get : Z -> string -> http_outcome)
    (feedparser_parse : string -> result feed_doc)
    (wall_clock : nat -> datetime) (schedule : Z -> list nat)
    (feeds : list string) (batch_size : Z) (s : state) :
  0 < batch_size ->
  exists out evs s',
    fetch_feeds_batch CONFIG http_get feedparser_parse wall_clock schedule
                      feeds batch_size s = (Ok out, s')
    /\ trace s' = trace s ++ evs
    /\ attempted evs = feeds.
Proof.
  intros Hbs.
  destruct (fetch_feeds_batch_lines CONFIG http_get feedparser_parse
              wall_clock schedule feeds batch_size s Hbs)
    as (out & evs & s' & E & Ht & Ha & _).
  by exists out, evs, s'.
Qed.

Lemma X11_witness :
  exists out evs s',
    fetch_feeds_batch Examples.cfg Examples.net Examples.parse Examples.clock
                      Examples.sched Examples.feeds7 5 Examples.s0 = (Ok out, s')
    /\ trace s' = trace Examples.s0 ++ evs
    /\ attempted evs = Examples.feeds7.
Proof.
  apply (X11_every_source_attempted_once_in_order
           Examples.cfg Examples.net Examples.parse Examples.clock
           Examples.sched Examples.feeds7 5 Examples.s0).
  lia.
Defined.

Lemma sched_valid : valid_schedule Examples.sched Examples.feeds7 5.
Proof.
  intros starts i Hr Hi. vm_compute in Hr. injection Hr as <-.
  apply elem_of_cons in Hi as [-> | Hi];
    [|apply elem_of_cons in Hi as [-> | Hi]; [|by apply elem_of_nil in Hi]].
  - vm_compute. apply (Permutation_trans (l' := [0; 3; 4; 1; 2]%nat)).
    + apply perm_swap.
    + apply perm_skip.
      apply (Permutation_trans (l' := [1; 3; 4; 2]%nat)).
      * apply (Permutation_trans (l' := [3; 1; 4; 2]%nat)).
        -- apply perm_skip. apply perm_swap.
        -- apply perm_swap.
      * apply perm_skip.
        apply (Permutation_trans (l' := [3; 2; 4]%nat)).
        -- apply perm_skip. apply perm_swap.
        -- apply perm_swap.
  - vm_compute. apply perm_swap.
Qed.

(** X12.  With a positive batch size and under a valid schedule every
    source gets exactly one outcome line: the line with the number of
    articles fetched or one of the two error lines.  The outcome lines of
    a run name the sources of the feed list, each once; their order inside
    a batch is the order in which the fetches finished. *)
Theorem X12_every_source_reported_once
    (CONFIG : config) (http_get : Z -> string -> http_outcome)
    (feedparser_parse : string -> result feed_doc)
    (wall_clock : nat -> datetime) (schedule : Z -> list nat)
    (feeds : list string) (batch_size : Z) (s : state) :
  0 < batch_size ->
  valid_schedule schedule feeds batch_size ->
  exists out evs s',
    fetch_feeds_batch CONFIG http_get feedparser_parse wall_clock schedule
                      feeds batch_size s = (Ok out, s')
    /\ trace s' = trace s ++ evs
    /\ reported evs ≡ₚ feeds.
Proof.
  intros Hbs Hsched.
  destruct (fetch_feeds_batch_lines CONFIG http_get feedparser_parse
              wall_clock schedule feeds batch_size s Hbs)
    as (out & evs & s' & E & Ht & _ & Hr).
  exists out, evs, s'. split; [exact E|]. split; [exact Ht|]. by apply Hr.
Qed.

Lemma X12_witness :
  exists out evs s',
    fetch_feeds_batch Examples.cfg Examples.net Examples.parse Examples.clock
                      Examples.sched Examples.feeds7 5 Examples.s0 = (Ok out, s')
    /\ trace s' = trace Examples.s0 ++ evs
    /\ reported evs ≡ₚ Examples.feeds7.
Proof.
  apply (X12_every_source_reported_once
           Examples.cfg Examples.net Examples.parse Examples.clock
           Examples.sched Examples.feeds7 5 Examples.s0).
  - lia.
  - exact sched_valid.
Defined.

(** ** Fetching a document again *)

(** After a loop that returned with the cap not reached, every entry of
    the document has a content that is too short or whose fingerprint is
    in the store. *)
Lemma loop_run_settled (CONFIG : config) (feed : feed_doc) (feed_url : string)
    (es : list entry) (articles : list Article) (n : Z) (s : state)
    (r : result (list Article)) (evs : list event) (s' : state) :
  loop_run CONFIG feed feed_url es articles n s r evs s' ->
  forall out,
    r = Ok out ->
    n = Z.of_nat (length articles) ->
    Z.of_nat (length out) < max_articles_per_feed CONFIG ->
    forall e, e ∈ es ->
      exists c,
        extract_content e = Ok c
        /\ (PyStr.len c < min_article_length CONFIG
            \/ content_hash_of c ∈ db s').
Proof.
  induction 1 as [articles n s|e0 es articles n s Hcap
                  |e0 es articles n s x evs s' Hn Hrun Hst
                  |e0 es articles n s evs s' r evs' s'' Hn Hrun Hst Hrest IH
                  |e0 es articles n s a evs s' r evs' s'' Hn Hrun Hst Hrest IH];
    intros out Er En Hlen e He.
  - by apply elem_of_nil in He.
  - injection Er as <-. lia.
  - discriminate.
  - pose proof (steps_to_db_mono _ _ _ (loop_run_steps _ _ _ _ _ _ _ _ _ _ Hrest))
      as Hmono.
    apply elem_of_cons in He as [-> | He]; [|by eapply IH].
    inversion Hrun as [|c Ec Hshort|c Ec Hlong Hdup|]; subst.
    + exists c. split; [exact Ec|by left].
    + exists c. split; [exact Ec|]. right.
      apply Hmono. by apply (steps_to_db_mono _ _ _ Hst).
  - pose proof (steps_to_db_mono _ _ _ (loop_run_steps _ _ _ _ _ _ _ _ _ _ Hrest))
      as Hmono.
    apply elem_of_cons in He as [-> | He].
    + inversion Hrun as [| | |c d Ec Hlong Hfresh]; subst.
      exists c. split; [exact Ec|]. right. apply Hmono.
      destruct Hst as (_ & -> & _). simpl. set_solver.
    + apply (IH out Er); [|exact Hlen|exact He].
      rewrite length_app. simpl. lia.
Qed.

(** Over entries that are all too short or already in the store, the loop
    adds no article and leaves the store and the clock alone. *)
Lemma entries_loop_settled (CONFIG : config) (wall_clock : nat -> datetime)
    (feed : feed_doc) (feed_url : string) (es : list entry)
    (articles : list Article) (n : Z) (s : state) :
  (forall e, e ∈ es ->
     exists c,
       extract_content e = Ok c
       /\ (PyStr.len c < min_article_length CONFIG
           \/ content_hash_of c ∈ db s)) ->
  exists s',
    entries_loop CONFIG wall_clock feed feed_url es articles n s
    = (Ok articles, s')
    /\ same_store s s'.
Proof.
  revert s. induction es as [|e es IH]; intros s Hes.
  - exists s. split; [reflexivity|apply same_store_refl].
  - rewrite entries_loop_cons.
    destruct (n >=? max_articles_per_feed CONFIG);
      [exists s; split; [reflexivity|apply same_store_refl]|].
    destruct (Hes e) as (c & Ec & Hc); [apply elem_of_cons; by left|].
    assert (exists evs,
              entry_step CONFIG wall_clock feed feed_url e s
              = (Ok None, with_events s evs)) as (evs & ->).
    { destruct (Z.lt_ge_cases (PyStr.len c) (min_article_length CONFIG))
        as [Hshort|Hlong].
      - eexists. apply entry_step_too_short. unfold too_short. rewrite Ec.
        by apply Z.ltb_lt.
      - destruct Hc as [Hshort|Hin]; [lia|].
        eexists. by apply entry_step_duplicate. }
    destruct (IH (with_events s evs)) as (s' & -> & Hd & Hk).
    + intros e' He'. apply Hes. apply elem_of_cons. by right.
    + exists s'. split; [reflexivity|]. split; [exact Hd|exact Hk].
Qed.

(** X13.  Fetching a document again brings nothing new.  When the fetch
    of a document went through all its entries (the loop returned and the
    cap was not reached), a later fetch of the same document, from any
    store that still holds what the first one left, returns no article,
    writes nothing to the store and does not read the clock. *)
Theorem X13_second_fetch_returns_nothing
    (CONFIG : config) (feedparser_parse : string -> result feed_doc)
    (wall_clock : nat -> datetime)
    (text feed_url : string) (feed : feed_doc)
    (s : state) (out : list Article) (s1 s2 : state) :
  feedparser_parse text = Ok feed ->
  entries_loop CONFIG wall_clock feed feed_url (entries feed) [] 0
    (with_events s [Log INFO (Attempting feed_url)]) = (Ok out, s1) ->
  Z.of_nat (length out) < max_articles_per_feed CONFIG ->
  db s1 ⊆ db s2 ->
  exists s3,
    fetch_single_feed CONFIG feedparser_parse wall_clock (Body text)
                      feed_url s2 = (Ok [], s3)
    /\ same_store s2 s3.
Proof.
  intros Ep E1 Hlen Hsub.
  destruct (entries_loop_run CONFIG wall_clock feed feed_url (entries feed)
              [] 0 (with_events s [Log INFO (Attempting feed_url)]))
    as (r & evs & s1' & E1' & Hrun).
  rewrite E1 in E1'. injection E1' as <- <-.
  pose proof (loop_run_settled _ _ _ _ _ _ _ _ _ _ Hrun out eq_refl eq_refl Hlen)
    as Hset.
  destruct (entries_loop_settled CONFIG wall_clock feed feed_url (entries feed)
              [] 0 (with_events s2 [Log INFO (Attempting feed_url)]))
    as (s3 & E3 & Hd & Hk).
  { intros e He. destruct (Hset e He) as (c & Ec & [Hshort|Hin]).
    - exists c. split; [exact Ec|by left].
    - exists c. split; [exact Ec|]. right. simpl. by apply Hsub. }
  rewrite (fetch_single_feed_body _ _ _ _ _ _ _ Ep), E3.
  eexists. split; [reflexivity|]. split; [exact Hd|exact Hk].
Qed.

(** The theorem at work on the document of feed D, fetched twice in a
    row under a cap of three. *)
Lemma X13_witness :
  exists s3,
    fetch_single_feed MoreExamples.cfg_cap3 Examples.parse Examples.clock
      (Body "D") "http://d"
      (snd (fetch_single_feed MoreExamples.cfg_cap3 Examples.parse
              Examples.clock (Body "D") "http://d" Examples.s0))
    = (Ok [], s3)
    /\ same_store
         (snd (fetch_single_feed MoreExamples.cfg_cap3 Examples.parse
                 Examples.clock (Body "D") "http://d" Examples.s0))
         s3.
Proof.
  apply (X13_second_fetch_returns_nothing
           MoreExamples.cfg_cap3 Examples.parse Examples.clock
           "D" "http://d" Examples.feed_d Examples.s0
           (Examples.articles_of
              (entries_loop MoreExamples.cfg_cap3 Examples.clock
                 Examples.feed_d "http://d" (entries Examples.feed_d) [] 0
                 (with_events Examples.s0 [Log INFO (Attempting "http://d")])))
           (snd
              (entries_loop MoreExamples.cfg_cap3 Examples.clock
                 Examples.feed_d "http://d" (entries Examples.feed_d) [] 0
                 (with_events Examples.s0 [Log INFO (Attempting "http://d")])))).
  - reflexivity.
  - vm_compute. reflexivity.
  - vm_compute. reflexivity.
  - apply (bool_decide_unpack _). vm_compute. exact I.
Defined.

(** ** Two sources of a batch with the same content *)

Section SharedContent.

Variable CONFIG : config.
Variable feedparser_parse : string -> result feed_doc.
Variable wall_clock : nat -> datetime.

(** The fetch of a document of one entry, from its response on, when the
    content is long enough and new to the store. *)
Lemma fetch_resume_single_fresh (text feed_url : string) (feed : feed_doc)
    (e : entry) (c : string) (s : state) :
  0 < max_articles_per_feed CONFIG ->
  feedparser_parse text = Ok feed ->
  entries feed = [e] ->
  extract_content e = Ok c ->
  min_article_length CONFIG <= PyStr.len c ->
  content_hash_of c ∉ db s ->
  exists a s',
    fetch_resume CONFIG feedparser_parse wall_clock (Body text) feed_url s
    = (Ok [a], s')
    /\ made_from feed feed_url e a
    /\ content_hash_of c ∈ db s'.
Proof.
  intros Hmax Ep Hes Ec Hlen Hnew.
  rewrite fetch_resume_eq. simpl response_text. cbv beta iota.
  rewrite Ep, Hes, entries_loop_cons.
  assert ((0 >=? max_articles_per_feed CONFIG) = false) as ->
    by (rewrite Z.geb_leb; apply Z.leb_gt; lia).
  destruct (entry_step_accept CONFIG wall_clock feed feed_url e s c Ec Hlen Hnew)
    as (a & s1 & -> & Hmade & _ & (_ & Hd & _)).
  simpl. eexists _, _. split; [reflexivity|]. split; [exact Hmade|].
  simpl. rewrite Hd. simpl. set_solver.
Qed.

(** The same fetch when the store holds the fingerprint. *)
Lemma fetch_resume_single_duplicate (text feed_url : string) (feed : feed_doc)
    (e : entry) (c : string) (s : state) :
  0 < max_articles_per_feed CONFIG ->
  feedparser_parse text = Ok feed ->
  entries feed = [e] ->
  extract_content e = Ok c ->
  min_article_length CONFIG <= PyStr.len c ->
  content_hash_of c ∈ db s ->
  exists s',
    fetch_resume CONFIG feedparser_parse wall_clock (Body text) feed_url s
    = (Ok [], s').
Proof.
  intros Hmax Ep Hes Ec Hlen Hin.
  rewrite fetch_resume_eq. simpl response_text. cbv beta iota.
  rewrite Ep, Hes, entries_loop_cons.
  assert ((0 >=? max_articles_per_feed CONFIG) = false) as ->
    by (rewrite Z.geb_leb; apply Z.leb_gt; lia).
  rewrite (entry_step_duplicate CONFIG wall_clock feed feed_url e s c Ec Hlen Hin).
  simpl. by eexists.
Qed.

End SharedContent.

(** X14.  The result of a batch depends on the order in which the
    responses arrive.  When the two sources of a batch each carry one
    entry with the same content, long enough and new to the store, the run
    returns one article, and it is made from the source whose fetch
    resumes first: its title, link and source name are those of that
    source. *)
Theorem X14_first_response_takes_shared_content
    (CONFIG : config) (http_get : Z -> string -> http_outcome)
    (feedparser_parse : string -> result feed_doc)
    (wall_clock : nat -> datetime) (schedule : Z -> list nat)
    (u0 u1 t0 t1 : string) (f0 f1 : feed_doc) (e0 e1 : entry)
    (c : string) (batch_size : Z) (s : state) :
  2 <= batch_size ->
  0 < max_articles_per_feed CONFIG ->
  http_get 0 u0 = Body t0 ->
  http_get 1 u1 = Body t1 ->
  feedparser_parse t0 = Ok f0 ->
  feedparser_parse t1 = Ok f1 ->
  entries f0 = [e0] ->
  entries f1 = [e1] ->
  extract_content e0 = Ok c ->
  extract_content e1 = Ok c ->
  min_article_length CONFIG <= PyStr.len c ->
  content_hash_of c ∉ db s ->
  (schedule 0 = [0; 1]%nat ->
   exists a s',
     fetch_feeds_batch CONFIG http_get feedparser_parse wall_clock schedule
                       [u0; u1] batch_size s = (Ok [a], s')
     /\ made_from f0 u0 e0 a)
  /\ (schedule 0 = [1; 0]%nat ->
      exists a s',
        fetch_feeds_batch CONFIG http_get feedparser_parse wall_clock schedule
                          [u0; u1] batch_size s = (Ok [a], s')
        /\ made_from f1 u1 e1 a).
Proof.
  intros Hbs Hmax Hg0 Hg1 Ep0 Ep1 Hes0 Hes1 Ec0 Ec1 Hlen Hnew.
  destruct (fetch_feeds_batch_chunks CONFIG http_get feedparser_parse
              wall_clock schedule [u0; u1] batch_size s ltac:(lia))
    as (b & m & -> & _ & -> & Hhi & Hlo).
  simpl length in Hhi, Hlo.
  assert (m = 1%nat) as -> by nia.
  simpl seq. rewrite fmap_cons, fmap_nil, batches_loop_cons, py_slice_chunk.
  assert (take b (drop (0 * b) [u0; u1]) = [u0; u1]) as ->
    by (simpl; apply take_ge; simpl; lia).
  rewrite gather_eq.
  change (Z.of_nat 0 * Z.of_nat b) with 0.
  set (sa := with_events (with_events s [SessionOpen]) (attempts [u0; u1])).
  assert (content_hash_of c ∉ db sa) as Hnew' by exact Hnew.
  split; intros ->.
  - rewrite resume_tasks_cons. simpl lookup. cbv beta iota.
    change (0 + Z.of_nat 0) with 0. rewrite Hg0.
    destruct (fetch_resume_single_fresh CONFIG feedparser_parse wall_clock
                t0 u0 f0 e0 c sa Hmax Ep0 Hes0 Ec0 Hlen Hnew')
      as (a & s1 & -> & Hmade & Hin).
    rewrite resume_tasks_cons. simpl lookup. cbv beta iota.
    change (0 + Z.of_nat 1) with 1. rewrite Hg1.
    destruct (fetch_resume_single_duplicate CONFIG feedparser_parse wall_clock
                t1 u1 f1 e1 c s1 Hmax Ep1 Hes1 Ec1 Hlen Hin)
      as (s2 & ->).
    simpl. eexists _, _. split; [reflexivity|exact Hmade].
  - rewrite resume_tasks_cons. simpl lookup. cbv beta iota.
    change (0 + Z.of_nat 1) with 1. rewrite Hg1.
    destruct (fetch_resume_single_fresh CONFIG feedparser_parse wall_clock
                t1 u1 f1 e1 c sa Hmax Ep1 Hes1 Ec1 Hlen Hnew')
      as (a & s1 & -> & Hmade & Hin).
    rewrite resume_tasks_cons. simpl lookup. cbv beta iota.
    change (0 + Z.of_nat 0) with 0. rewrite Hg0.
    destruct (fetch_resume_single_duplicate CONFIG feedparser_parse wall_clock
                t0 u0 f0 e0 c s1 Hmax Ep0 Hes0 Ec0 Hlen Hin)
      as (s2 & ->).
    simpl. eexists _, _. split; [reflexivity|exact Hmade].
Qed.

(** The theorem at work: two sources with the sample text, the second
    one answering first. *)
Lemma X14_witness :
  exists a s',
    fetch_feeds_batch Examples.cfg Examples.net_scenario
      Examples.parse_scenario Examples.clock MoreExamples.sched_second_first
      ["h1"; "h2"] 5 Examples.s0 = (Ok [a], s')
    /\ made_from Examples.feed_hello "h2"
         (Examples.summary_entry "h" Examples.hello) a.
Proof.
  apply (X14_first_response_takes_shared_content
           Examples.cfg Examples.net_scenario Examples.parse_scenario
           Examples.clock MoreExamples.sched_second_first
           "h1" "h2" "h1" "h2" Examples.feed_hello Examples.feed_hello
           (Examples.summary_entry "h" Examples.hello)
           (Examples.summary_entry "h" Examples.hello)
           Examples.hello 5 Examples.s0).
  - lia.
  - simpl. lia.
  - reflexivity.
  - reflexivity.
  - reflexivity.
  - reflexivity.
  - reflexivity.
  - reflexivity.
  - vm_compute. reflexivity.
  - vm_compute. reflexivity.
  - by vm_compute.
  - apply not_elem_of_empty.
  - reflexivity.
Defined.

(** * The prompt templates *)

Section TemplateFacts.

Variable AGENT_CONTEXT_PREP : string.
Variable QUALITY_GATE : string.
Variable number : Type.
Variable percent_1f : number -> string.

Local Abbreviation researcher :=
  (Templates.render_researcher_prompt AGENT_CONTEXT_PREP QUALITY_GATE number).
Local Abbreviation outliner :=
  (Templates.render_outliner_prompt AGENT_CONTEXT_PREP QUALITY_GATE number).
Local Abbreviation writer :=
  (Templates.render_writer_prompt AGENT_CONTEXT_PREP QUALITY_GATE number).
Local Abbreviation editor :=
  (Templates.render_editor_prompt AGENT_CONTEXT_PREP QUALITY_GATE number).
Local Abbreviation seo_optimizer :=
  (Templates.render_seo_optimizer_prompt AGENT_CONTEXT_PREP QUALITY_GATE
     number percent_1f).

(** Runs the substitution of a rendering function on its template, the
    arguments left as they are. *)
Ltac render :=
  match goal with
  | |- context [Templates.substitute ?t ?m] =>
      let v := eval vm_compute in (Templates.substitute t m) in
      replace (Templates.substitute t m) with v
        by (vm_compute; reflexivity)
  end.

(** X15.  The five rendering functions return a prompt for every
    argument and every specification: each template has its placeholders
    among the keywords its function passes and no delimiter that starts
    no placeholder, and the texts passed in are not scanned, so a [$] in
    a topic, a draft or a keyword raises nothing. *)
Theorem X15_rendering_never_raises
    (a b : string) (spec : Templates.Spec number) :
  (exists out, researcher a b spec = Templates.Text out)
  /\ (exists out, outliner a b spec = Templates.Text out)
  /\ (exists out, writer a b spec = Templates.Text out)
  /\ (exists out, editor a spec = Templates.Text out)
  /\ (exists out, seo_optimizer a spec = Templates.Text out).
Proof.
  split; [|split; [|split; [|split]]].
  - unfold Templates.render_researcher_prompt. render. by eexists.
  - unfold Templates.render_outliner_prompt. render. by eexists.
  - unfold Templates.render_writer_prompt. render. by eexists.
  - unfold Templates.render_editor_prompt. render. by eexists.
  - unfold Templates.render_seo_optimizer_prompt. render. by eexists.
Qed.

(** X16.  The outliner prompt does not depend on the [word_target] of the
    specification: [render_outliner_prompt] passes it on as
    [total_word_target], a keyword the outliner template has no
    placeholder for. *)
Theorem X16_outliner_ignores_word_target
    (topic research_brief : string) (spec : Templates.Spec number)
    (w : option Z) :
  outliner topic research_brief (Templates.with_word_target w spec)
  = outliner topic research_brief spec.
Proof.
  unfold Templates.render_outliner_prompt.
  destruct spec. vm_compute. reflexivity.
Qed.

(** X17.  The first argument of each rendering function (the topic, the
    outline, the draft, the edited content) goes into the prompt as it
    is, at a place that does not depend on it: the prompt is the prompt
    for the empty text with the argument put in at a fixed offset.
    Nothing the argument holds is read as a placeholder. *)
Theorem X17_first_argument_inserted_verbatim
    (b : string) (spec : Templates.Spec number) :
  (exists n base,
     researcher "" b spec = Templates.Text base
     /\ forall x,
          researcher x b spec = Templates.Text (Templates.insert_at n x base))
  /\ (exists n base,
        outliner "" b spec = Templates.Text base
        /\ forall x,
             outliner x b spec = Templates.Text (Templates.insert_at n x base))
  /\ (exists n base,
        writer "" b spec = Templates.Text base
        /\ forall x,
             writer x b spec = Templates.Text (Templates.insert_at n x base))
  /\ (exists n base,
        editor "" spec = Templates.Text base
        /\ forall x,
             editor x spec = Templates.Text (Templates.insert_at n x base))
  /\ (exists n base,
        seo_optimizer "" spec = Templates.Text base
        /\ forall x,
             seo_optimizer x spec
             = Templates.Text (Templates.insert_at n x base)).
Proof.
  split; [|split; [|split; [|split]]].
  - exists 127%nat. unfold Templates.render_researcher_prompt.
    eexists. split; [render; reflexivity|].
    intros x. vm_compute. reflexivity.
  - exists 114%nat. unfold Templates.render_outliner_prompt.
    eexists. split; [render; reflexivity|].
    intros x. vm_compute. reflexivity.
  - exists 131%nat. unfold Templates.render_writer_prompt.
    eexists. split; [render; reflexivity|].
    intros x. vm_compute. reflexivity.
  - exists 123%nat. unfold Templates.render_editor_prompt.
    eexists. split; [render; reflexivity|].
    intros x. vm_compute. reflexivity.
  - exists 118%nat. unfold Templates.render_seo_optimizer_prompt.
    eexists. split; [render; reflexivity|].
    intros x. vm_compute. reflexivity.
Qed.

End TemplateFacts.
